(** * vtquery: nearest-feature queries over vector tiles

    A shallow embedding of [src/vtquery.cpp]: the result queue kept by
    [Worker::Execute], the duplicate test, the stable re-sort after every
    accepted candidate, and the assembly of the FeatureCollection in
    [Worker::OnOK].

    The collaborators that are not part of the file (gzip, the vector tile
    decoder, the closest point kernel and the geographic transforms of
    [util.hpp]) are section variables. *)

From Stdlib Require Import ZArith String List Bool Lia.
From stdpp Require Import base tactics option list sets sorting strings.


(** ** Doubles

    The code only compares distances.  A double that is not a NaN is
    represented by its position in the order of the doubles (the
    sign-magnitude reading of its bit pattern, so that both zeros are [0]);
    every comparison with a NaN is false, as in IEEE 754. *)

Inductive double : Type :=
  | NaN
  | Num (rank : Z).

Definition dbl_lt (a b : double) : bool :=
  match a, b with
  | Num x, Num y => (x <? y)%Z
  | _, _ => false
  end.

Definition dbl_le (a b : double) : bool :=
  match a, b with
  | Num x, Num y => (x <=? y)%Z
  | _, _ => false
  end.

Definition dbl_gt (a b : double) : bool := dbl_lt b a.

Definition dbl_zero : double := Num 0.

(** [std::numeric_limits<double>::max()], bit pattern 0x7fefffffffffffff. *)
Definition DBL_MAX_rank : Z := 0x7fefffffffffffff.
Definition DBL_MAX : double := Num DBL_MAX_rank.

Definition is_num (d : double) : Prop :=
  match d with NaN => False | Num _ => True end.

Global Instance is_num_dec (d : double) : Decision (is_num d).
Proof. destruct d; simpl; apply _. Defined.

Definition rank_of (d : double) : Z :=
  match d with NaN => 0 | Num z => z end.

Global Instance double_eq_dec : EqDecision double.
Proof. solve_decision. Defined.

(** ** Data model *)

Inductive GeomType : Type := point | linestring | polygon | all | unknown.

Global Instance GeomType_eq_dec : EqDecision GeomType.
Proof. solve_decision. Defined.

(** The numeric value of an enumerator. *)
Definition GeomType_value (g : GeomType) : nat :=
  match g with
  | point => 0
  | linestring => 1
  | polygon => 2
  | all => 3
  | unknown => 4
  end.

Definition GeomTypeStrings : list string :=
  ["point"; "linestring"; "polygon"; "unknown"].

(** [GeomTypeStrings[enumVal]]; [None] is a read past the end of the array. *)
Definition getGeomTypeString (enumVal : nat) : option string :=
  GeomTypeStrings !! enumVal.

(** [vtzero::GeomType]. *)
Inductive vt_GeomType : Type := vt_UNKNOWN | vt_POINT | vt_LINESTRING | vt_POLYGON.

(** An encoded property value as the tile stores it, a tagged field. *)
Inductive property_value : Type :=
  | string_value (s : string)
  | float_value (d : double)
  | double_value (d : double)
  | int_value (z : Z)
  | uint_value (z : Z)
  | sint_value (z : Z)
  | bool_value (b : bool).

Global Instance property_value_eq_dec : EqDecision property_value.
Proof. solve_decision. Defined.

(** [vtzero::property]: equal when key bytes and value bytes are equal. *)
Record property : Type := mk_property {
  prop_key : string;
  prop_value : property_value
}.

Global Instance property_eq_dec : EqDecision property.
Proof. solve_decision. Defined.

(** [mapbox::feature::value], restricted to what a tile property can
    convert to. *)
Inductive feature_value : Type :=
  | v_bool (b : bool)
  | v_uint64 (z : Z)
  | v_int64 (z : Z)
  | v_double (d : double)
  | v_string (s : string).

Global Instance feature_value_eq_dec : EqDecision feature_value.
Proof. solve_decision. Defined.

Definition materialized_prop_type : Type := string * feature_value.

Definition point_double : Type := double * double.
Definition point_int64 : Type := Z * Z.

(** A decoded feature as [vtzero::feature] exposes it. *)
Record vt_feature : Type := mk_feature {
  f_geometry_type : vt_GeomType;
  f_has_id : bool;
  f_id : Z;
  f_properties : list property;
  f_geometry : list (list point_int64)
}.

Record vt_layer : Type := mk_layer {
  l_name : string;
  l_extent : Z;
  l_features : list vt_feature
}.

Definition vector_tile : Type := list vt_layer.

(** main storage item for returning to the user

    The field [id] of the source is [id_] here, [id] being the identity
    function of the library. *)
Record ResultObject : Type := mk_result {
  properties_vector : list property;
  properties_vector_materialized : list materialized_prop_type;
  layer_name : string;
  coordinates : point_double;
  distance : double;
  original_geometry_type : GeomType;
  has_id : bool;
  id_ : Z
}.

Global Instance ResultObject_eq_dec : EqDecision ResultObject.
Proof. solve_decision. Defined.

(** [ResultObject()] *)
Definition ResultObject_default : ResultObject :=
  {| properties_vector := [];
     properties_vector_materialized := [];
     layer_name := "";
     coordinates := (Num 0, Num 0);
     distance := DBL_MAX;
     original_geometry_type := unknown;
     has_id := false;
     id_ := 0 |}.

Definition buffer : Type := list Byte.byte.

Record TileObject : Type := mk_tile {
  tile_z : Z;
  tile_x : Z;
  tile_y : Z;
  tile_data : buffer
}.

(** the baton of data to be passed from the v8 thread into the cpp threadpool *)
Record QueryData : Type := mk_query {
  tiles : list TileObject;
  layers : list string;
  latitude : double;
  longitude : double;
  radius : double;
  num_results : nat;
  dedupe : bool;
  geometry_filter_type : GeomType
}.

(** [QueryData(num_tiles)]: the values a request has before its options
    are read. *)
Definition QueryData_init : QueryData :=
  {| tiles := [];
     layers := [];
     latitude := Num 0;
     longitude := Num 0;
     radius := Num 0;
     num_results := 5;
     dedupe := true;
     geometry_filter_type := all |}.

Record closest_point_info : Type := mk_cp {
  cp_x : double;
  cp_y : double;
  cp_distance : double
}.

(** ** [std::stable_sort]

    Stable insertion sort: an element is put in front of the first element
    that does not compare less than it, so elements that compare equal keep
    their order. *)

Fixpoint sort_insert {A : Type} (comp : A -> A -> bool) (x : A) (l : list A) : list A :=
  match l with
  | [] => [x]
  | y :: l' => if comp y x then y :: sort_insert comp x l' else x :: l
  end.

Definition stable_sort {A : Type} (comp : A -> A -> bool) (l : list A) : list A :=
  foldr (sort_insert comp) [] l.

(** ** Functions of the source *)

Definition get_geometry_type (f : vt_feature) : GeomType :=
  match f_geometry_type f with
  | vt_POINT => point
  | vt_LINESTRING => linestring
  | vt_POLYGON => polygon
  | _ => unknown
  end.

Definition CompareDistance (r1 r2 : ResultObject) : bool :=
  dbl_lt (distance r1) (distance r2).

(** replace already existing results with a better, duplicate result *)
Definition insert_result (old_result : ResultObject) (props_vec : list property)
    (layer : string) (pt : point_double) (dist : double) (geom_type : GeomType)
    (hasid : bool) (id : Z) : ResultObject :=
  {| properties_vector := props_vec;
     properties_vector_materialized := properties_vector_materialized old_result;
     layer_name := layer;
     coordinates := pt;
     distance := dist;
     original_geometry_type := geom_type;
     has_id := hasid;
     id_ := id |}.

Definition get_properties_vector (f : vt_feature) : list property := f_properties f.

(** compare two features to determine if they are duplicates *)
Definition value_is_duplicate (r : ResultObject) (candidate_feature : vt_feature)
    (candidate_layer : string) (candidate_geom : GeomType)
    (candidate_props_vec : list property) : bool :=
  if negb (String.eqb (layer_name r) candidate_layer) then false
  else if negb (bool_decide (original_geometry_type r = candidate_geom)) then false
  else if has_id r && f_has_id candidate_feature
          && negb (Z.eqb (id_ r) (f_id candidate_feature)) then false
  else bool_decide (properties_vector r = candidate_props_vec).

(** Modelled from the spec: the value mapping used by
    [vtzero::convert_property_value] is declared in the vector tile library,
    not in this file; section 4.D of the specification gives it:
    bool to bool, sint/int to i64, uint to u64, float/double to f64,
    string to string. *)
Definition convert_property_value (v : property_value) : feature_value :=
  match v with
  | string_value s => v_string s
  | float_value d => v_double d
  | double_value d => v_double d
  | int_value z => v_int64 z
  | uint_value z => v_uint64 z
  | sint_value z => v_int64 z
  | bool_value b => v_bool b
  end.

(** The loop at the end of [Execute] that fills
    [properties_vector_materialized]. *)
Definition materialize (feature : ResultObject) : ResultObject :=
  {| properties_vector := properties_vector feature;
     properties_vector_materialized :=
       properties_vector_materialized feature ++
       map (fun p => (prop_key p, convert_property_value (prop_value p)))
           (properties_vector feature);
     layer_name := layer_name feature;
     coordinates := coordinates feature;
     distance := distance feature;
     original_geometry_type := original_geometry_type feature;
     has_id := has_id feature;
     id_ := id_ feature |}.

(** ** The JavaScript values built by [OnOK] *)

Record tilequery_properties : Type := mk_tilequery {
  tq_distance : double;
  tq_geometry : option string;
  tq_layer : string
}.

(** [js_number_uint z] and [js_number_int z] stand for the JavaScript
    number that [Napi::Number::New] makes from the 64-bit integer [z], the
    double nearest to it; the integer is kept to tell where the number
    comes from, not as its value. *)
Inductive js_value : Type :=
  | js_boolean (b : bool)
  | js_number_uint (z : Z)
  | js_number_int (z : Z)
  | js_number (d : double)
  | js_string (s : string)
  | js_tilequery (t : tilequery_properties).

(** A JavaScript object: its own properties, keys in insertion order. *)
Definition js_object : Type := list (string * js_value).

(** A property is added, or replaced when the key is present. *)
Fixpoint obj_put (k : string) (v : js_value) (o : js_object) : js_object :=
  match o with
  | [] => [(k, v)]
  | (k', v') :: o' =>
      if String.eqb k' k then (k, v) :: o' else (k', v') :: obj_put k v o'
  end.

(** [Object::Set].  The key __proto__ reaches the prototype setter of the
    object, which ignores a value that is no object: the feature
    properties set under that key are booleans, numbers and strings, so
    nothing is stored for it. *)
Definition obj_set (k : string) (v : js_value) (o : js_object) : js_object :=
  if String.eqb k "__proto__" then o else obj_put k v o.

Fixpoint obj_get (k : string) (o : js_object) : option js_value :=
  match o with
  | [] => None
  | (k', v') :: o' => if String.eqb k' k then Some v' else obj_get k o'
  end.

(** [fo_id] is the 64-bit id handed to [Set("id", ...)], which stores the
    number made from it. *)
Record feature_obj : Type := mk_feature_obj {
  fo_id : Z;
  fo_coordinates : list double;
  fo_properties : js_object
}.

(** A JavaScript array: [Set] past the end extends it and leaves holes. *)
Abbreviation js_array := (list (option feature_obj)).

Definition array_set (i : nat) (v : feature_obj) (a : js_array) : js_array :=
  if decide (i < length a) then <[i := Some v]> a
  else a ++ replicate (i - length a) None ++ [Some v].

Record FeatureCollection : Type := mk_fc {
  fc_type : string;
  features : js_array
}.

(** used to create the final v8 (JSON) object to return to the user *)
Definition set_property (property : materialized_prop_type)
    (properties_obj : js_object) : js_object :=
  match property.2 with
  | v_bool v => obj_set property.1 (js_boolean v) properties_obj
  | v_uint64 v => obj_set property.1 (js_number_uint v) properties_obj
  | v_int64 v => obj_set property.1 (js_number_int v) properties_obj
  | v_double v => obj_set property.1 (js_number v) properties_obj
  | v_string v => obj_set property.1 (js_string v) properties_obj
  end.

(** The body of the [if] in the loop of [OnOK]: one result turned into a
    GeoJSON feature. *)
Definition make_feature_obj (feature : ResultObject) : feature_obj :=
  let properties_obj :=
    foldl (fun o prop => set_property prop o) []
          (properties_vector_materialized feature) in
  let tilequery_properties_obj :=
    {| tq_distance := distance feature;
       tq_geometry := getGeomTypeString (GeomType_value (original_geometry_type feature));
       tq_layer := layer_name feature |} in
  {| fo_id := id_ feature;
     fo_coordinates := [(coordinates feature).1; (coordinates feature).2];
     fo_properties :=
       obj_set "tilequery" (js_tilequery tilequery_properties_obj) properties_obj |}.

(** The [while (!results_queue_.empty())] loop.  [stack] is the queue with
    its back first, so [length rest] is [results_queue_.size() - 1]. *)
Fixpoint OnOK_loop (stack : list ResultObject) (features_array : js_array) : js_array :=
  match stack with
  | [] => features_array
  | feature :: rest =>
      let features_array :=
        if dbl_lt (distance feature) DBL_MAX
        then array_set (length rest) (make_feature_obj feature) features_array
        else features_array in
      OnOK_loop rest features_array
  end.

Definition OnOK (results_queue_ : list ResultObject) : FeatureCollection :=
  {| fc_type := "FeatureCollection";
     features := OnOK_loop (reverse results_queue_) [] |}.

(** Readers of the emitted objects. *)
Definition fo_tilequery (o : feature_obj) : option tilequery_properties :=
  match obj_get "tilequery" (fo_properties o) with
  | Some (js_tilequery t) => Some t
  | _ => None
  end.

(** ** The collaborators

    What the worker calls and this file does not define. *)

Class Collaborators : Type := {
  (** [gzip::is_compressed], [gzip::Decompressor::decompress] and the
      decoding of a whole buffer by vtzero; [None] is a thrown exception. *)
  is_compressed : buffer -> bool;
  decompress : buffer -> option buffer;
  read_tile : buffer -> option vector_tile;
  (** [utils::create_query_point], [utils::convert_vt_to_ll] and
      [utils::distance_in_meters]. *)
  create_query_point : double -> double -> Z -> Z -> Z -> Z -> point_int64;
  convert_vt_to_ll : Z -> Z -> Z -> Z -> closest_point_info -> point_double;
  distance_in_meters : point_double -> point_double -> double;
  (** [closest_point(extract_geometry<int64_t>(feature), query_point)]. *)
  closest_point : vt_feature -> point_int64 -> closest_point_info
}.

(** ** The worker *)

Section Engine.

Context `{Collaborators}.

Definition back (results_queue_ : list ResultObject) : ResultObject :=
  default ResultObject_default (last results_queue_).

(** The [for (auto& result : results_queue_)] loop of the duplicate check;
    returns [found_duplicate], [skip_duplicate] and the queue. *)
Fixpoint dedupe_scan (feature : vt_feature) (layer : string)
    (geom : GeomType) (ll : point_double) (meters : double)
    (properties_vec : list property) (results_queue_ : list ResultObject)
    : bool * bool * list ResultObject :=
  match results_queue_ with
  | [] => (false, false, [])
  | result :: rest =>
      if value_is_duplicate result feature layer geom properties_vec then
        if dbl_le meters (distance result) then
          (true, false,
           insert_result result properties_vec layer ll meters geom
                         (f_has_id feature) (f_id feature) :: rest)
        else (false, true, result :: rest)
      else
        let '(found, skip, rest') :=
          dedupe_scan feature layer geom ll meters properties_vec rest in
        (found, skip, result :: rest')
  end.

(** The position and distance reported for a feature that was not skipped
    by the safety check: the query point itself on a direct hit. *)
Definition snap (data : QueryData) (extent tile_obj_z tile_obj_x tile_obj_y : Z)
    (cp_info : closest_point_info) : point_double * double :=
  if dbl_gt (cp_distance cp_info) dbl_zero then
    let ll := convert_vt_to_ll extent tile_obj_z tile_obj_x tile_obj_y cp_info in
    (ll, distance_in_meters (longitude data, latitude data) ll)
  else ((longitude data, latitude data), dbl_zero).

(** The body of the feature loop. *)
Definition process_feature (data : QueryData) (layer : string)
    (extent tile_obj_z tile_obj_x tile_obj_y : Z) (query_point : point_int64)
    (results_queue_ : list ResultObject) (feature : vt_feature)
    : list ResultObject :=
  let original_geometry_type := get_geometry_type feature in
  if negb (bool_decide (geometry_filter_type data = all))
     && negb (bool_decide (geometry_filter_type data = original_geometry_type))
  then results_queue_
  else
    let cp_info := closest_point feature query_point in
    if dbl_lt (cp_distance cp_info) dbl_zero then results_queue_
    else
      let '(ll, meters) := snap data extent tile_obj_z tile_obj_x tile_obj_y cp_info in
      if dbl_gt meters (radius data) then results_queue_
      else
        let properties_vec := get_properties_vector feature in
        let '(found_duplicate, skip_duplicate, results_queue_) :=
          if dedupe data
          then dedupe_scan feature layer original_geometry_type ll meters
                           properties_vec results_queue_
          else (false, false, results_queue_) in
        if skip_duplicate then results_queue_
        else if found_duplicate
        then stable_sort CompareDistance results_queue_
        else if dbl_lt meters (distance (back results_queue_))
        then stable_sort CompareDistance
               (<[pred (length results_queue_) :=
                    insert_result (back results_queue_) properties_vec layer ll
                                  meters original_geometry_type
                                  (f_has_id feature) (f_id feature)]>
                  results_queue_)
        else results_queue_.

(** The body of the layer loop. *)
Definition process_layer (data : QueryData) (tile_obj_z tile_obj_x tile_obj_y : Z)
    (results_queue_ : list ResultObject) (layer : vt_layer) : list ResultObject :=
  if negb (bool_decide (layers data = []))
     && negb (bool_decide (l_name layer ∈ layers data))
  then results_queue_
  else
    let extent := l_extent layer in
    let query_point :=
      create_query_point (longitude data) (latitude data) extent
                         tile_obj_z tile_obj_x tile_obj_y in
    foldl (process_feature data (l_name layer) extent
                           tile_obj_z tile_obj_x tile_obj_y query_point)
          results_queue_ (l_features layer).

Definition decoded_tile : Type := vector_tile * Z * Z * Z.

(** The body of the tile loop. *)
Definition process_tile (data : QueryData) (results_queue_ : list ResultObject)
    (tile_obj : decoded_tile) : list ResultObject :=
  let '(tile, z, x, y) := tile_obj in
  foldl (process_layer data z x y) results_queue_ tile.

Definition decode_tile (tile_obj : TileObject) : option decoded_tile :=
  tile ← (if is_compressed (tile_data tile_obj)
          then decompress (tile_data tile_obj) ≫= read_tile
          else read_tile (tile_data tile_obj));
  Some (tile, tile_z tile_obj, tile_x tile_obj, tile_y tile_obj).

(** The queue after the three nested loops, before materialization. *)
Definition traverse (data : QueryData) (decoded : list decoded_tile)
    : list ResultObject :=
  foldl (process_tile data)
        (replicate (num_results data) ResultObject_default) decoded.

(** [Worker::Execute]; [None] when an exception reached [SetError].
    The tiles are read in full before the loops; the source reads
    layers, features and properties on demand inside the loops, in the
    same [try] block, so a request succeeds here when every tile can be
    read in full. *)
Definition Execute (data : QueryData) : option (list ResultObject) :=
  decoded ← mapM decode_tile (tiles data);
  Some (materialize <$> traverse data decoded).

(** [Execute] followed by [OnOK]: the FeatureCollection handed to the
    callback, or [None] when the callback gets an error. *)
Definition Worker (data : QueryData) : option FeatureCollection :=
  OnOK <$> Execute data.

End Engine.

(** ** The queue as a sorted buffer

    The definitions below restate the insertion of one candidate on whole
    result objects; [process_feature_offer] relates them to the loop body. *)

(** The result object a feature becomes once its position and distance are
    known: what [insert_result] writes into a slot whose materialized
    properties are still empty. *)
Definition entry_of (layer : string) (ll : point_double) (meters : double)
    (feature : vt_feature) : ResultObject :=
  insert_result ResultObject_default (get_properties_vector feature) layer ll
                meters (get_geometry_type feature) (f_has_id feature) (f_id feature).

(** [value_is_duplicate] between a slot and a candidate entry. *)
Definition is_dup (r c : ResultObject) : bool :=
  String.eqb (layer_name r) (layer_name c)
  && bool_decide (original_geometry_type r = original_geometry_type c)
  && negb (has_id r && has_id c && negb (Z.eqb (id_ r) (id_ c)))
  && bool_decide (properties_vector r = properties_vector c).

(** Index of the first slot that is a duplicate of [c]. *)
Fixpoint find_dup (c : ResultObject) (q : list ResultObject) : option nat :=
  match q with
  | [] => None
  | r :: q' => if is_dup r c then Some 0 else S <$> find_dup c q'
  end.

(** [c] put behind every element that is not farther than it. *)
Fixpoint place (c : ResultObject) (l : list ResultObject) : list ResultObject :=
  match l with
  | [] => [c]
  | y :: l' => if CompareDistance c y then c :: l else y :: place c l'
  end.

(** Lines 324-356 of the source on whole entries. *)
Definition offer (dedupe_on : bool) (q : list ResultObject) (c : ResultObject)
    : list ResultObject :=
  match (if dedupe_on then find_dup c q else None) with
  | Some i =>
      if dbl_le (distance c) (distance (default ResultObject_default (q !! i)))
      then stable_sort CompareDistance (<[i := c]> q)
      else q
  | None =>
      if dbl_lt (distance c) (distance (default ResultObject_default (last q)))
      then stable_sort CompareDistance (<[pred (length q) := c]> q)
      else q
  end.

(** The slots that [OnOK] turns into features. *)
Definition emitted (q : list ResultObject) : list ResultObject :=
  filter (fun r => dbl_lt (distance r) DBL_MAX = true) q.

Definition feature_of (r : ResultObject) : feature_obj :=
  make_feature_obj (materialize r).

Definition fo_distance (o : feature_obj) : double :=
  from_option tq_distance NaN (fo_tilequery o).

Definition rk (r : ResultObject) : Z := rank_of (distance r).

Definition numq (q : list ResultObject) : Prop :=
  Forall (fun r => is_num (distance r)) q.

Definition sortedq (q : list ResultObject) : Prop :=
  StronglySorted (fun a b => (rk a <= rk b)%Z) q.

Definition wfq (q : list ResultObject) : Prop := numq q /\ sortedq q.

Definition cleanq (q : list ResultObject) : Prop :=
  Forall (fun r => properties_vector_materialized r = []) q.

(** For every distance, the results at that distance appear in the order in
    which the candidates were met. *)
Definition ties_in_encounter_order (met rs : list ResultObject) : Prop :=
  forall d : double, filter (fun r => distance r = d) rs `sublist_of` met.

(** Distances do not decrease along the list. *)
Definition ascending (rs : list ResultObject) : Prop :=
  forall i j a b, i <= j -> rs !! i = Some a -> rs !! j = Some b ->
                  dbl_le (distance a) (distance b) = true.

(** The same on the emitted objects, read through [tilequery.distance]. *)
Definition ascending_features (fc : FeatureCollection) : Prop :=
  forall i j oi oj, i <= j ->
    features fc !! i = Some (Some oi) -> features fc !! j = Some (Some oj) ->
    dbl_le (fo_distance oi) (fo_distance oj) = true.

(** Two results that the duplicate test of the specification identifies:
    same layer, same geometry type, same id when both have one, same
    materialized properties. *)
Definition share_identity (r1 r2 : ResultObject) : Prop :=
  layer_name r1 = layer_name r2
  /\ original_geometry_type r1 = original_geometry_type r2
  /\ (has_id r1 = true -> has_id r2 = true -> id_ r1 = id_ r2)
  /\ properties_vector_materialized r1 = properties_vector_materialized r2.

(** The duplicate test of [value_is_duplicate] between two results. *)
Definition duplicates (r c : ResultObject) : Prop :=
  layer_name r = layer_name c
  /\ original_geometry_type r = original_geometry_type c
  /\ ¬ (has_id r = true /\ has_id c = true /\ id_ r <> id_ c)
  /\ properties_vector r = properties_vector c.

(** No candidate is a duplicate of an earlier candidate at the very same
    distance. *)
Definition no_tied_duplicates (cs : list ResultObject) : Prop :=
  forall i j a b, i < j -> cs !! i = Some a -> cs !! j = Some b ->
                  duplicates a b -> distance a <> distance b.

(** *** The duplicate test as a class

    When the slots and the candidate agree on having an id, the duplicate
    test is the equality of the class below. *)

Definition cls (r : ResultObject) : string * GeomType * list property * option Z :=
  (layer_name r, original_geometry_type r, properties_vector r,
   if has_id r then Some (id_ r) else None).

(** A slot that holds a feature: the default slot has the unknown type. *)
Definition live (r : ResultObject) : Prop := original_geometry_type r <> unknown.

Global Instance live_dec (r : ResultObject) : Decision (live r).
Proof. unfold live. apply _. Defined.

(** The same result with the type [all], which no feature has, in place
    of [unknown]: a stored feature of unknown type told apart from an empty
    slot. *)
Definition relabel (r : ResultObject) : ResultObject :=
  {| properties_vector := properties_vector r;
     properties_vector_materialized := properties_vector_materialized r;
     layer_name := layer_name r;
     coordinates := coordinates r;
     distance := distance r;
     original_geometry_type :=
       if decide (original_geometry_type r = unknown) then all
       else original_geometry_type r;
     has_id := has_id r;
     id_ := id_ r |}.

Definition good_cand (b : bool) (c : ResultObject) : Prop :=
  has_id c = b /\ live c /\ properties_vector_materialized c = [].

Definition slot_ok (b : bool) (r : ResultObject) : Prop :=
  r = ResultObject_default
  \/ (good_cand b r /\ dbl_lt (distance r) DBL_MAX = true).

Definition queue_inv (b : bool) (q : list ResultObject) : Prop :=
  wfq q /\ Forall (slot_ok b) q /\ NoDup (cls <$> filter live q).

(** The queue [q'] of the run over the relabelled candidates beside the
    queue [q] of the run over the candidates themselves: it emits the
    relabelled slots of [q]. *)
Definition relabelled (b : bool) (q q' : list ResultObject) : Prop :=
  length q = length q'
  /\ wfq q
  /\ Forall (fun r => (rk r <= DBL_MAX_rank)%Z) q
  /\ Forall (fun r => original_geometry_type r <> all) q
  /\ queue_inv b q'
  /\ emitted q' = relabel <$> emitted q.

(** What the emitted slots keep through every insertion when all
    candidates agree on having an id: the emitted slots have pairwise
    different classes. *)
Definition out_inv (b : bool) (q : list ResultObject) : Prop :=
  wfq q
  /\ Forall (fun r => (rk r <= DBL_MAX_rank)%Z) q
  /\ Forall (fun r => dbl_lt (distance r) DBL_MAX = true -> has_id r = b) q
  /\ NoDup (cls <$> emitted q).

(** [c] is of the class of [r] and at its distance. *)
Definition matches (r c : ResultObject) : Prop :=
  cls c = cls r /\ distance c = distance r.

Global Instance matches_dec (r c : ResultObject) : Decision (matches r c).
Proof. unfold matches. apply _. Defined.

(** A candidate that was met finds its class in the queue at a distance
    that is not greater, or its class is absent and the back slot is not
    farther than it. *)
Definition dominated (q : list ResultObject) (c : ResultObject) : Prop :=
  (exists r, r ∈ q /\ live r /\ cls r = cls c
             /\ dbl_lt (distance c) (distance r) = false)
  \/ ((forall r, r ∈ q -> live r -> cls r <> cls c)
      /\ dbl_lt (distance c)
                (distance (default ResultObject_default (last q))) = false).

(** A slot holds the last candidate met of its class and distance. *)
Definition latest (met : list ResultObject) (r : ResultObject) : Prop :=
  live r -> last (filter (matches r) met) = Some r.

Definition run_inv (b : bool) (q met : list ResultObject) : Prop :=
  queue_inv b q /\ Forall (dominated q) met /\ Forall (latest met) q.

Definition shape (q : list ResultObject)
    : list (string * GeomType * list property * option Z * double) :=
  (fun r => (cls r, distance r)) <$> q.

Section Candidates.

Context `{Collaborators}.

(** The filters of the feature loop: [None] for a feature that is
    skipped before the duplicate check. *)
Definition candidate (data : QueryData) (layer : string)
    (extent tile_obj_z tile_obj_x tile_obj_y : Z) (query_point : point_int64)
    (feature : vt_feature) : option ResultObject :=
  if negb (bool_decide (geometry_filter_type data = all))
     && negb (bool_decide (geometry_filter_type data = get_geometry_type feature))
  then None
  else
    let cp_info := closest_point feature query_point in
    if dbl_lt (cp_distance cp_info) dbl_zero then None
    else
      let '(ll, meters) := snap data extent tile_obj_z tile_obj_x tile_obj_y cp_info in
      if dbl_gt meters (radius data) then None
      else Some (entry_of layer ll meters feature).

Definition layer_candidates (data : QueryData) (z x y : Z) (layer : vt_layer)
    : list ResultObject :=
  if negb (bool_decide (layers data = []))
     && negb (bool_decide (l_name layer ∈ layers data))
  then []
  else
    omap (candidate data (l_name layer) (l_extent layer) z x y
            (create_query_point (longitude data) (latitude data)
                                (l_extent layer) z x y))
         (l_features layer).

Definition tile_candidates (data : QueryData) (tile_obj : decoded_tile)
    : list ResultObject :=
  let '(tile, z, x, y) := tile_obj in
  tile ≫= layer_candidates data z x y.

(** The candidates of a query in the order in which the loops meet them. *)
Definition encounter (data : QueryData) (decoded : list decoded_tile)
    : list ResultObject :=
  decoded ≫= tile_candidates data.

Definition decode_tiles (data : QueryData) : option (list decoded_tile) :=
  mapM decode_tile (tiles data).

(** The kernel reports a negative distance for a feature without a known
    geometry type (an empty geometry). *)
Definition kernel_rejects_unknown : Prop :=
  forall (f : vt_feature) (q : point_int64),
    f_geometry_type f = vt_UNKNOWN ->
    dbl_lt (cp_distance (closest_point f q)) dbl_zero = true.

(** A great-circle distance is never below zero. *)
Definition meters_not_negative : Prop :=
  forall a b : point_double, dbl_lt (distance_in_meters a b) dbl_zero = false.

(** The features of unknown geometry type in the tiles, if any, get a
    negative distance from the kernel and so fall to the safety check. *)
Definition unknown_rejected (decoded : list decoded_tile) : Prop :=
  forall tile_obj layer f q,
    tile_obj ∈ decoded -> layer ∈ tile_obj.1.1.1 -> f ∈ l_features layer ->
    f_geometry_type f = vt_UNKNOWN ->
    dbl_lt (cp_distance (closest_point f q)) dbl_zero = true.


(** Either every feature of the tiles has an id or none has. *)
Definition ids_uniform (decoded : list decoded_tile) : Prop :=
  exists b : bool,
    forall tile_obj layer f,
      tile_obj ∈ decoded -> layer ∈ tile_obj.1.1.1 -> f ∈ l_features layer ->
      f_has_id f = b.

(** The dedupe claim as the specification words it, on the result of
    [Execute]: no two emitted results share layer, geometry type, id and
    materialized properties. *)
Definition no_shared_identity (data : QueryData) : Prop :=
  forall q i j r1 r2,
    Execute data = Some q -> i <> j ->
    emitted q !! i = Some r1 -> emitted q !! j = Some r2 ->
    ¬ share_identity r1 r2.

(** The tie-break of the ordering claim: among the emitted results of
    one distance, the order is the order in which they were met. *)
Definition ties_follow_encounter (data : QueryData) : Prop :=
  forall decoded,
    decode_tiles data = Some decoded ->
    ties_in_encounter_order (encounter data decoded)
                            (emitted (traverse data decoded)).

End Candidates.

Definition with_tiles (data : QueryData) (ts : list TileObject) : QueryData :=
  {| tiles := ts;
     layers := layers data;
     latitude := latitude data;
     longitude := longitude data;
     radius := radius data;
     num_results := num_results data;
     dedupe := dedupe data;
     geometry_filter_type := geometry_filter_type data |}.

Definition with_limit (data : QueryData) (limit : nat) : QueryData :=
  {| tiles := tiles data;
     layers := layers data;
     latitude := latitude data;
     longitude := longitude data;
     radius := radius data;
     num_results := limit;
     dedupe := dedupe data;
     geometry_filter_type := geometry_filter_type data |}.

(** Case analysis on a membership in an explicit list. *)
Ltac mem_cases H :=
  repeat (apply elem_of_cons in H as [H|H]); [..|by apply elem_of_nil in H].


(** ** The arguments of [vtquery]

    The JavaScript values the entry point inspects.  A plain object, an
    array, a buffer and a function all answer [IsObject]; [props] lists
    what [Has] and [Get] see of them by name, own or inherited. *)

#[warnings="-register-all"]
Inductive napi_value : Type :=
  | nv_undefined
  | nv_null
  | nv_boolean (b : bool)
  | nv_number (d : double)
  | nv_string (s : string)
  | nv_symbol
  | nv_function (props : list (string * napi_value))
  | nv_buffer (bytes : buffer) (props : list (string * napi_value))
  | nv_array (items : list napi_value) (props : list (string * napi_value))
  | nv_object (props : list (string * napi_value)).

Definition IsUndefined (v : napi_value) : bool :=
  match v with nv_undefined => true | _ => false end.

Definition IsNull (v : napi_value) : bool :=
  match v with nv_null => true | _ => false end.

Definition IsBoolean (v : napi_value) : bool :=
  match v with nv_boolean _ => true | _ => false end.

Definition IsNumber (v : napi_value) : bool :=
  match v with nv_number _ => true | _ => false end.

Definition IsString (v : napi_value) : bool :=
  match v with nv_string _ => true | _ => false end.

Definition IsFunction (v : napi_value) : bool :=
  match v with nv_function _ => true | _ => false end.

Definition IsBuffer (v : napi_value) : bool :=
  match v with nv_buffer _ _ => true | _ => false end.

Definition IsArray (v : napi_value) : bool :=
  match v with nv_array _ _ => true | _ => false end.

Definition IsObject (v : napi_value) : bool :=
  match v with
  | nv_function _ | nv_buffer _ _ | nv_array _ _ | nv_object _ => true
  | _ => false
  end.

Definition props_of (v : napi_value) : list (string * napi_value) :=
  match v with
  | nv_function props | nv_buffer _ props | nv_array _ props | nv_object props => props
  | _ => []
  end.

Fixpoint prop_lookup {A : Type} (key : string) (props : list (string * A)) : option A :=
  match props with
  | [] => None
  | (k, v) :: props' => if String.eqb k key then Some v else prop_lookup key props'
  end.

(** [obj.Has(key)] and [obj.Get(key)]; a key that is absent reads as
    undefined. *)
Definition Has (obj : napi_value) (key : string) : bool :=
  bool_decide (is_Some (prop_lookup key (props_of obj))).

Definition Get (obj : napi_value) (key : string) : napi_value :=
  default nv_undefined (prop_lookup key (props_of obj)).

(** The elements of an array; [arr.Length()] is the length of the list and
    [arr.Get(i)] is [element]. *)
Definition items_of (v : napi_value) : list napi_value :=
  match v with nv_array items _ => items | _ => [] end.

Definition element (items : list napi_value) (i : nat) : napi_value :=
  default nv_undefined (items !! i).

(** [info[i]]: an index past the arguments reads as undefined. *)
Definition arg (info : list napi_value) (i : nat) : napi_value :=
  default nv_undefined (info !! i).

(** The conversions, each used behind the matching test. *)
Definition DoubleValue (v : napi_value) : double :=
  match v with nv_number d => d | _ => NaN end.

Definition BooleanValue (v : napi_value) : bool :=
  match v with nv_boolean b => b | _ => false end.

Definition Utf8Value (v : napi_value) : string :=
  match v with nv_string s => s | _ => "" end.

Definition Data (v : napi_value) : buffer :=
  match v with nv_buffer bytes _ => bytes | _ => [] end.

(** What the addon interface provides and this file does not define:
    [Napi::Number::Int32Value], the conversion of a number to int32. *)
Class NodeApi : Type := {
  Int32Value : double -> Z
}.

(** How a call of [vtquery] ends: a worker is queued with the request, the
    callback is called with an error ([utils::CallbackError]), or a
    JavaScript exception is thrown. *)
Inductive outcome (A : Type) : Type :=
  | Ok (a : A)
  | CallbackError (msg : string)
  | Throw (msg : string).

Arguments Ok {A} a.
Arguments CallbackError {A} msg.
Arguments Throw {A} msg.

Global Instance outcome_ret : MRet outcome := fun A a => Ok a.

Global Instance outcome_bind : MBind outcome := fun A B f m =>
  match m with
  | Ok a => f a
  | CallbackError msg => CallbackError msg
  | Throw msg => Throw msg
  end.

Definition with_dedupe (data : QueryData) (b : bool) : QueryData :=
  {| tiles := tiles data;
     layers := layers data;
     latitude := latitude data;
     longitude := longitude data;
     radius := radius data;
     num_results := num_results data;
     dedupe := b;
     geometry_filter_type := geometry_filter_type data |}.

Definition with_radius (data : QueryData) (r : double) : QueryData :=
  {| tiles := tiles data;
     layers := layers data;
     latitude := latitude data;
     longitude := longitude data;
     radius := r;
     num_results := num_results data;
     dedupe := dedupe data;
     geometry_filter_type := geometry_filter_type data |}.

Definition with_layers (data : QueryData) (ls : list string) : QueryData :=
  {| tiles := tiles data;
     layers := ls;
     latitude := latitude data;
     longitude := longitude data;
     radius := radius data;
     num_results := num_results data;
     dedupe := dedupe data;
     geometry_filter_type := geometry_filter_type data |}.

Definition with_geometry (data : QueryData) (g : GeomType) : QueryData :=
  {| tiles := tiles data;
     layers := layers data;
     latitude := latitude data;
     longitude := longitude data;
     radius := radius data;
     num_results := num_results data;
     dedupe := dedupe data;
     geometry_filter_type := g |}.

Definition with_lnglat (data : QueryData) (lng lat : double) : QueryData :=
  {| tiles := tiles data;
     layers := layers data;
     latitude := lat;
     longitude := lng;
     radius := radius data;
     num_results := num_results data;
     dedupe := dedupe data;
     geometry_filter_type := geometry_filter_type data |}.

(** ** The entry point *)

Section EntryPoint.

Context `{NodeApi}.

(** The body of the loop over the tiles array: one item checked and
    turned into a [TileObject]. *)
Definition tile_item (tile_val : napi_value) : outcome TileObject :=
  if negb (IsObject tile_val)
  then CallbackError "items in 'tiles' array must be objects" else
  let tile_obj := tile_val in
  if negb (Has tile_obj "buffer")
  then CallbackError "item in 'tiles' array does not include a buffer value" else
  let buf_val := Get tile_obj "buffer" in
  if IsNull buf_val || IsUndefined buf_val
  then CallbackError "buffer value in 'tiles' array item is null or undefined" else
  if negb (IsBuffer buf_val)
  then CallbackError "buffer value in 'tiles' array item is not a true buffer" else
  if negb (Has tile_obj "z")
  then CallbackError "item in 'tiles' array does not include a 'z' value" else
  let z_val := Get tile_obj "z" in
  if negb (IsNumber z_val)
  then CallbackError "'z' value in 'tiles' array item is not an int32" else
  let z := Int32Value (DoubleValue z_val) in
  if (z <? 0)%Z
  then CallbackError "'z' value must not be less than zero" else
  if negb (Has tile_obj "x")
  then CallbackError "item in 'tiles' array does not include a 'x' value" else
  let x_val := Get tile_obj "x" in
  if negb (IsNumber x_val)
  then CallbackError "'x' value in 'tiles' array item is not an int32" else
  let x := Int32Value (DoubleValue x_val) in
  if (x <? 0)%Z
  then CallbackError "'x' value must not be less than zero" else
  if negb (Has tile_obj "y")
  then CallbackError "item in 'tiles' array does not include a 'y' value" else
  let y_val := Get tile_obj "y" in
  if negb (IsNumber y_val)
  then CallbackError "'y' value in 'tiles' array item is not an int32" else
  let y := Int32Value (DoubleValue y_val) in
  if (y <? 0)%Z
  then CallbackError "'y' value must not be less than zero" else
  Ok {| tile_z := z; tile_x := x; tile_y := y; tile_data := Data buf_val |}.

(** [for (unsigned t = 0; t < num_tiles; ++t)]: the first item that is
    refused ends the call. *)
Fixpoint tiles_loop (items : list napi_value) (query_data : QueryData)
    : outcome QueryData :=
  match items with
  | [] => Ok query_data
  | tile_val :: rest =>
      tile ← tile_item tile_val;
      tiles_loop rest (with_tiles query_data (tiles query_data ++ [tile]))
  end.

Definition option_dedupe (options : napi_value) (query_data : QueryData)
    : outcome QueryData :=
  if Has options "dedupe" then
    let dedupe_val := Get options "dedupe" in
    if negb (IsBoolean dedupe_val)
    then CallbackError "'dedupe' must be a boolean" else
    Ok (with_dedupe query_data (BooleanValue dedupe_val))
  else Ok query_data.

Definition option_radius (options : napi_value) (query_data : QueryData)
    : outcome QueryData :=
  if Has options "radius" then
    let radius_val := Get options "radius" in
    if negb (IsNumber radius_val)
    then CallbackError "'radius' must be a number" else
    let radius := DoubleValue radius_val in
    if dbl_lt radius dbl_zero
    then CallbackError "'radius' must be a positive number" else
    Ok (with_radius query_data radius)
  else Ok query_data.

Definition option_limit (options : napi_value) (query_data : QueryData)
    : outcome QueryData :=
  if Has options "limit" then
    let num_results_val := Get options "limit" in
    if negb (IsNumber num_results_val)
    then CallbackError "'limit' must be a number" else
    let num_results := Int32Value (DoubleValue num_results_val) in
    if (num_results <? 1)%Z
    then CallbackError "'limit' must be 1 or greater" else
    if (1000 <? num_results)%Z
    then CallbackError "'limit' must be less than 1000" else
    Ok (with_limit query_data (Z.to_nat num_results))
  else Ok query_data.

(** [for (unsigned j = 0; j < num_layers; ++j)] *)
Fixpoint layers_loop (items : list napi_value) (query_data : QueryData)
    : outcome QueryData :=
  match items with
  | [] => Ok query_data
  | layer_val :: rest =>
      if negb (IsString layer_val)
      then CallbackError "'layers' values must be strings" else
      let layer_utf8_value := Utf8Value layer_val in
      if bool_decide (String.length layer_utf8_value <= 0)
      then CallbackError "'layers' values must be non-empty strings" else
      layers_loop rest
        (with_layers query_data (layers query_data ++ [layer_utf8_value]))
  end.

Definition option_layers (options : napi_value) (query_data : QueryData)
    : outcome QueryData :=
  if Has options "layers" then
    let layers_val := Get options "layers" in
    if negb (IsArray layers_val)
    then CallbackError "'layers' must be an array of strings" else
    let layers_arr := items_of layers_val in
    if bool_decide (0 < length layers_arr)
    then layers_loop layers_arr query_data
    else Ok query_data
  else Ok query_data.

Definition option_geometry (options : napi_value) (query_data : QueryData)
    : outcome QueryData :=
  if Has options "geometry" then
    let geometry_val := Get options "geometry" in
    if negb (IsString geometry_val)
    then CallbackError "'geometry' option must be a string" else
    let geometry_utf8_value := Utf8Value geometry_val in
    if bool_decide (String.length geometry_utf8_value <= 0)
    then CallbackError "'geometry' value must be a non-empty string" else
    if String.eqb geometry_utf8_value "point"
    then Ok (with_geometry query_data point)
    else if String.eqb geometry_utf8_value "linestring"
    then Ok (with_geometry query_data linestring)
    else if String.eqb geometry_utf8_value "polygon"
    then Ok (with_geometry query_data polygon)
    else CallbackError "'geometry' must be 'point', 'linestring', or 'polygon'"
  else Ok query_data.

(** [vtquery(info)]: [Ok data] is the worker queued with [data]. *)
Definition vtquery (info : list napi_value) : outcome QueryData :=
  let len := length info in
  if bool_decide (len = 0)
  then Throw "last argument must be a callback function" else
  let callback_val := arg info (len - 1) in
  if negb (IsFunction callback_val)
  then Throw "last argument must be a callback function" else
  if negb (IsArray (arg info 0))
  then CallbackError "first arg 'tiles' must be an array of tile objects" else
  let tiles_arr := items_of (arg info 0) in
  let num_tiles := length tiles_arr in
  if bool_decide (num_tiles <= 0)
  then CallbackError "'tiles' array must be of length greater than 0" else
  query_data ← tiles_loop tiles_arr QueryData_init;
  if negb (IsArray (arg info 1))
  then CallbackError
         "second arg 'lnglat' must be an array with [longitude, latitude] values"
  else
  let lnglat_val := items_of (arg info 1) in
  if negb (bool_decide (length lnglat_val = 2))
  then CallbackError "'lnglat' must be an array of [longitude, latitude]" else
  let lng_val := element lnglat_val 0 in
  let lat_val := element lnglat_val 1 in
  if negb (IsNumber lng_val) || negb (IsNumber lat_val)
  then CallbackError "lnglat values must be numbers" else
  let query_data :=
    with_lnglat query_data (DoubleValue lng_val) (DoubleValue lat_val) in
  if bool_decide (3 < len) then
    if negb (IsObject (arg info 2))
    then CallbackError "'options' arg must be an object" else
    let options := arg info 2 in
    query_data ← option_dedupe options query_data;
    query_data ← option_radius options query_data;
    query_data ← option_limit options query_data;
    query_data ← option_layers options query_data;
    option_geometry options query_data
  else Ok query_data.

End EntryPoint.

(** ** Readers of what [OnOK] builds *)

(** [features_array[i]] as JavaScript reads it: a hole and an index past
    the end both read as undefined. *)
Definition array_get (a : js_array) (i : nat) : option feature_obj :=
  mjoin (a !! i).

(** The tile object with the payload [b] in place of its data. *)
Definition with_data (tile_obj : TileObject) (b : buffer) : TileObject :=
  {| tile_z := tile_z tile_obj;
     tile_x := tile_x tile_obj;
     tile_y := tile_y tile_obj;
     tile_data := b |}.

(** ** Requests the entry point accepts

    What a caller has to pass for a worker to be queued, stated on the
    arguments. *)

Section Requests.

Context `{NodeApi}.

Definition tile_ok (tile_val : napi_value) : Prop :=
  IsObject tile_val = true
  /\ IsBuffer (Get tile_val "buffer") = true
  /\ forall key, key ∈ ["z"; "x"; "y"]%string ->
       exists n, Get tile_val key = nv_number n /\ (0 <= Int32Value n)%Z.

Definition options_ok (options : napi_value) : Prop :=
  IsObject options = true
  /\ (Has options "dedupe" = true -> IsBoolean (Get options "dedupe") = true)
  /\ (Has options "radius" = true ->
      exists r, Get options "radius" = nv_number r /\ dbl_lt r dbl_zero = false)
  /\ (Has options "limit" = true ->
      exists n, Get options "limit" = nv_number n
                /\ (1 <= Int32Value n <= 1000)%Z)
  /\ (Has options "layers" = true ->
      exists names props,
        Get options "layers" = nv_array (nv_string <$> names) props
        /\ Forall (fun s => s <> ""%string) names)
  /\ (Has options "geometry" = true ->
      exists s, Get options "geometry" = nv_string s
                /\ s ∈ ["point"; "linestring"; "polygon"]%string).

Definition well_formed (info : list napi_value) : Prop :=
  (exists cb, last info = Some cb /\ IsFunction cb = true)
  /\ (exists items props,
         arg info 0 = nv_array items props /\ items <> [] /\ Forall tile_ok items)
  /\ (exists lng lat props,
         arg info 1 = nv_array [nv_number lng; nv_number lat] props)
  /\ (3 < length info -> options_ok (arg info 2)).

(** The option [key] was read: the call has an options argument and the
    object has the key. *)
Definition given (info : list napi_value) (key : string) : bool :=
  bool_decide (3 < length info) && Has (arg info 2) key.

End Requests.

(** [tilequery.distance] of the features in order; [None] at a hole. *)
Definition distances (fc : FeatureCollection) : list (option double) :=
  (fun o : option feature_obj => fo_distance <$> o) <$> features fc.

(** The candidate is within the radius [r]: the test of the feature loop. *)
Definition within (r : double) (c : ResultObject) : Prop :=
  dbl_gt (distance c) r = false.

Global Instance within_dec (r : double) (c : ResultObject) : Decision (within r c).
Proof. unfold within. apply _. Defined.

(** No candidate is a duplicate of one met before it. *)
Definition no_duplicates (cs : list ResultObject) : Prop :=
  forall i j a b, i < j -> cs !! i = Some a -> cs !! j = Some b -> ¬ duplicates a b.
(** ** A planar stand-in for the collaborators

    Concrete collaborators on which the definitions can be run: a buffer is
    gzip data when it starts with the magic bytes 1f 8b, the bytes behind
    them being the payload; a buffer names one of the tiles below; positions
    are read on an integer grid and distances are taken along the axes.  The
    kernel reports -1 for a feature without a known geometry. *)

Definition planar_is_compressed (b : buffer) : bool :=
  match b with
  | Byte.x1f :: Byte.x8b :: _ => true
  | _ => false
  end.

Definition planar_decompress (b : buffer) : option buffer := Some (drop 2 b).

Definition planar_query_point (lon lat : double) (extent z x y : Z) : point_int64 :=
  (rank_of lon, rank_of lat).

Definition planar_closest_point (f : vt_feature) (q : point_int64)
    : closest_point_info :=
  match f_geometry_type f, f_geometry f with
  | vt_UNKNOWN, _ => {| cp_x := Num 0; cp_y := Num 0; cp_distance := Num (-1) |}
  | _, ((px, py) :: _) :: _ =>
      {| cp_x := Num px; cp_y := Num py;
         cp_distance := Num (Z.abs (px - q.1) + Z.abs (py - q.2)) |}
  | _, _ => {| cp_x := Num 0; cp_y := Num 0; cp_distance := Num (-1) |}
  end.

Definition planar_vt_to_ll (extent z x y : Z) (cp : closest_point_info)
    : point_double :=
  (cp_x cp, cp_y cp).

Definition planar_distance (a b : point_double) : double :=
  Num (Z.abs (rank_of a.1 - rank_of b.1) + Z.abs (rank_of a.2 - rank_of b.2)).

Definition point_feature (hasid : bool) (id : Z) (props : list property) (x : Z)
    : vt_feature :=
  {| f_geometry_type := vt_POINT; f_has_id := hasid; f_id := id;
     f_properties := props; f_geometry := [[(x, 0%Z)]] |}.

Definition props_main : list property :=
  [{| prop_key := "name"; prop_value := string_value "Main St" |}].

Definition props_side : list property :=
  [{| prop_key := "name"; prop_value := string_value "Side St" |}].

(** One layer; features with ids 1 and 2 and features without id that carry
    the same properties, at distances 10, 20, 5 and 3 from the origin. *)
Definition tile_mixed_ids : vector_tile :=
  [ {| l_name := "roads"; l_extent := 4096;
       l_features := [ point_feature true 1 props_main 10;
                       point_feature true 2 props_main 20;
                       point_feature false 0 props_main 5;
                       point_feature true 2 props_main 3 ] |} ].

(** Three features at distance 5: two with the same properties, on either
    side of the origin, the second of them with an id, and between them a
    feature with other properties. *)
Definition tile_ties : vector_tile :=
  [ {| l_name := "roads"; l_extent := 4096;
       l_features := [ point_feature false 0 props_main 5;
                       point_feature false 0 props_side 5;
                       point_feature true 7 props_main (-5) ] |} ].

(** Features with distinct ids, one exactly at the origin, and one without a
    known geometry type. *)
Definition tile_plain : vector_tile :=
  [ {| l_name := "poi"; l_extent := 4096;
       l_features := [ point_feature true 1 props_main 4;
                       point_feature true 2 props_side 0;
                       {| f_geometry_type := vt_UNKNOWN; f_has_id := true; f_id := 3;
                          f_properties := []; f_geometry := [] |};
                       point_feature true 4 props_side 2 ] |} ].

(** Two features with the same id whose property is the number 5, once
    encoded as int and once as sint. *)
Definition tile_encodings : vector_tile :=
  [ {| l_name := "poi"; l_extent := 4096;
       l_features :=
         [ point_feature true 1 [{| prop_key := "n"; prop_value := int_value 5 |}] 1;
           point_feature true 1 [{| prop_key := "n"; prop_value := sint_value 5 |}] 2 ] |} ].

(** Two features at distance 5 on either side of the origin with different
    properties, and behind them a farther duplicate of the first. *)
Definition tile_level : vector_tile :=
  [ {| l_name := "roads"; l_extent := 4096;
       l_features := [ point_feature false 0 props_main 5;
                       point_feature false 0 props_side (-5);
                       point_feature false 0 props_main 7 ] |} ].

Definition planar_read_tile (b : buffer) : option vector_tile :=
  match b with
  | [Byte.x01] => Some tile_mixed_ids
  | [Byte.x02] => Some tile_ties
  | [Byte.x03] => Some tile_plain
  | [Byte.x04] => Some tile_encodings
  | [Byte.x05] => Some tile_level
  | _ => None
  end.

Definition planar : Collaborators :=
  {| is_compressed := planar_is_compressed;
     decompress := planar_decompress;
     read_tile := planar_read_tile;
     create_query_point := planar_query_point;
     convert_vt_to_ll := planar_vt_to_ll;
     distance_in_meters := planar_distance;
     closest_point := planar_closest_point |}.

(** The planar stand-in with a kernel that has no case for an unknown
    geometry: a feature without coordinates is measured as the point
    (0, 0), whatever its type. *)
Definition lenient_closest_point (f : vt_feature) (q : point_int64)
    : closest_point_info :=
  let '(px, py) :=
    match f_geometry f with
    | ((px, py) :: _) :: _ => (px, py)
    | _ => (0, 0)%Z
    end in
  {| cp_x := Num px; cp_y := Num py;
     cp_distance := Num (Z.abs (px - q.1) + Z.abs (py - q.2)) |}.

Definition lenient : Collaborators :=
  {| is_compressed := planar_is_compressed;
     decompress := planar_decompress;
     read_tile := planar_read_tile;
     create_query_point := planar_query_point;
     convert_vt_to_ll := planar_vt_to_ll;
     distance_in_meters := planar_distance;
     closest_point := lenient_closest_point |}.

(** A query at the origin with radius 100 and no filter. *)
Definition query_at_origin (ts : list TileObject) (limit : nat) (dd : bool)
    : QueryData :=
  {| tiles := ts; layers := []; latitude := Num 0; longitude := Num 0;
     radius := Num 100; num_results := limit; dedupe := dd;
     geometry_filter_type := all |}.

Definition tile_object (b : Byte.byte) : TileObject :=
  {| tile_z := 0; tile_x := 0; tile_y := 0; tile_data := [b] |}.

(** The query at the origin over the plain tile with radius 0. *)
Definition origin_only_query : QueryData :=
  {| tiles := [tile_object Byte.x03]; layers := []; latitude := Num 0;
     longitude := Num 0; radius := dbl_zero; num_results := 5; dedupe := true;
     geometry_filter_type := all |}.

(** Two filled slots: a feature at distance 4, and behind it a feature
    with id 9 at distance 5 that carries the properties of Main St. *)
Definition near_side : ResultObject :=
  entry_of "roads" (Num 4, Num 0) (Num 4) (point_feature false 0 props_side 4).

Definition far_main : ResultObject :=
  entry_of "roads" (Num 5, Num 0) (Num 5) (point_feature true 9 props_main 5).

(** The query at the origin over the level tile, with dedupe. *)
Definition level_query : QueryData := query_at_origin [tile_object Byte.x05] 5 true.

(** The query at the origin over the plain tile, with dedupe. *)
Definition plain_query : QueryData := query_at_origin [tile_object Byte.x03] 5 true.

(** ** A stand-in for the number conversion, and arguments to call with

    The stand-in reads a double as the integer that is its position and
    keeps the low 32 bits. *)

Definition planar_int32 (d : double) : Z :=
  match d with
  | NaN => 0
  | Num z => ((z + 2 ^ 31) mod 2 ^ 32 - 2 ^ 31)%Z
  end.

Definition planar_api : NodeApi := {| Int32Value := planar_int32 |}.

(** [{buffer: <b>, z: 0, x: 0, y: 0}] *)
Definition tile_value (b : Byte.byte) : napi_value :=
  nv_object [("buffer", nv_buffer [b] []); ("z", nv_number (Num 0));
             ("x", nv_number (Num 0)); ("y", nv_number (Num 0))]%string.

(** [[0, 0]] *)
Definition origin_value : napi_value :=
  nv_array [nv_number (Num 0); nv_number (Num 0)] [].

Definition callback_value : napi_value := nv_function [].

(** [{radius: 100, limit: 1000, geometry: 'point', layers: ['poi']}] *)
Definition options_value : napi_value :=
  nv_object [("radius", nv_number (Num 100)); ("limit", nv_number (Num 1000));
             ("geometry", nv_string "point");
             ("layers", nv_array [nv_string "poi"] [])]%string.

(** [vtquery([{buffer: <03>, z: 0, x: 0, y: 0}], [0, 0], options, callback)]
    and the request it queues. *)
Definition sample_call : list napi_value :=
  [nv_array [tile_value Byte.x03] []; origin_value; options_value; callback_value].

Definition sample_query : QueryData :=
  {| tiles := [tile_object Byte.x03]; layers := ["poi"%string];
     latitude := Num 0; longitude := Num 0; radius := Num 100;
     num_results := 1000; dedupe := true; geometry_filter_type := point |}.

(** The plain tile behind the gzip magic bytes. *)
Definition compressed_tile : TileObject :=
  {| tile_z := 0; tile_x := 0; tile_y := 0;
     tile_data := [Byte.x1f; Byte.x8b; Byte.x03] |}.

(** Features without ids, two of them with the same properties. *)
Definition tile_repeats : vector_tile :=
  [ {| l_name := "roads"; l_extent := 4096;
       l_features := [ point_feature false 0 props_main 7;
                       point_feature false 0 props_side 5;
                       point_feature false 0 props_main 3 ] |} ].

(** The planar stand-in with a decompressor that fails on every buffer. *)
Definition broken_gzip : Collaborators :=
  {| is_compressed := planar_is_compressed;
     decompress := fun _ => None;
     read_tile := planar_read_tile;
     create_query_point := planar_query_point;
     convert_vt_to_ll := planar_vt_to_ll;
     distance_in_meters := planar_distance;
     closest_point := planar_closest_point |}.
(** * Proofs *)

(** ** Comparisons *)

Lemma dbl_lt_num (a b : double) :
  is_num a -> is_num b -> dbl_lt a b = (rank_of a <? rank_of b)%Z.
Proof. by destruct a, b. Qed.

Lemma dbl_le_num (a b : double) :
  is_num a -> is_num b -> dbl_le a b = (rank_of a <=? rank_of b)%Z.
Proof. by destruct a, b. Qed.

Lemma dbl_lt_is_num (a b : double) : dbl_lt a b = true -> is_num a /\ is_num b.
Proof. by destruct a, b. Qed.

Lemma dbl_le_is_num (a b : double) : dbl_le a b = true -> is_num a /\ is_num b.
Proof. by destruct a, b. Qed.

Lemma dbl_lt_rank (a b : double) :
  dbl_lt a b = true <-> is_num a /\ is_num b /\ (rank_of a < rank_of b)%Z.
Proof. destruct a, b; simpl; rewrite ?Z.ltb_lt; intuition congruence. Qed.

Lemma dbl_le_rank (a b : double) :
  dbl_le a b = true <-> is_num a /\ is_num b /\ (rank_of a <= rank_of b)%Z.
Proof. destruct a, b; simpl; rewrite ?Z.leb_le; intuition congruence. Qed.

Lemma is_num_rank (d : double) : is_num d -> d = Num (rank_of d).
Proof. by destruct d. Qed.

Lemma CompareDistance_rk (a b : ResultObject) :
  is_num (distance a) -> is_num (distance b) ->
  CompareDistance a b = (rk a <? rk b)%Z.
Proof. apply dbl_lt_num. Qed.

(** ** The stable sort *)

Lemma sort_insert_Permutation {A : Type} (comp : A -> A -> bool) (x : A) (l : list A) :
  sort_insert comp x l ≡ₚ x :: l.
Proof.
  induction l as [|y l IH]; simpl; [done|].
  destruct (comp y x); [|done].
  rewrite IH. apply Permutation_swap.
Qed.

Lemma stable_sort_Permutation {A : Type} (comp : A -> A -> bool) (l : list A) :
  stable_sort comp l ≡ₚ l.
Proof.
  induction l as [|x l IH]; simpl; [done|].
  rewrite sort_insert_Permutation. by rewrite IH.
Qed.

Lemma stable_sort_length {A : Type} (comp : A -> A -> bool) (l : list A) :
  length (stable_sort comp l) = length l.
Proof. by rewrite stable_sort_Permutation. Qed.

Lemma stable_sort_app {A : Type} (comp : A -> A -> bool) (l1 l2 : list A) :
  stable_sort comp (l1 ++ l2) = foldr (sort_insert comp) (stable_sort comp l2) l1.
Proof. unfold stable_sort. apply foldr_app. Qed.

(** Elements at one distance keep their order: the sort is stable. *)
Lemma sort_insert_filter_tie (d : double) (x : ResultObject) (l : list ResultObject) :
  filter (fun r => distance r = d) (sort_insert CompareDistance x l)
  = filter (fun r => distance r = d) (x :: l).
Proof.
  induction l as [|y l IH]; simpl; [done|].
  destruct (CompareDistance y x) eqn:Hc; [|done].
  rewrite filter_cons, IH, !filter_cons.
  destruct (decide (distance y = d)) as [Hy|Hy];
    destruct (decide (distance x = d)) as [Hx|Hx]; try done.
  unfold CompareDistance in Hc. rewrite Hy, Hx in Hc.
  destruct d; simpl in Hc; [done|]. apply Z.ltb_lt in Hc. lia.
Qed.

Lemma stable_sort_filter_tie (d : double) (l : list ResultObject) :
  filter (fun r => distance r = d) (stable_sort CompareDistance l)
  = filter (fun r => distance r = d) l.
Proof.
  induction l as [|x l IH]; simpl; [done|].
  rewrite sort_insert_filter_tie, !filter_cons, IH. done.
Qed.

Lemma sort_insert_head (c : ResultObject) (l : list ResultObject) :
  (forall y, head l = Some y -> CompareDistance y c = false) ->
  sort_insert CompareDistance c l = c :: l.
Proof.
  destruct l as [|y l]; simpl; [done|].
  intros Hy. by rewrite (Hy y eq_refl).
Qed.

Lemma sortedq_cons (x : ResultObject) (l : list ResultObject) :
  sortedq (x :: l) <-> sortedq l /\ Forall (fun y => (rk x <= rk y)%Z) l.
Proof. unfold sortedq. rewrite StronglySorted_cons. tauto. Qed.

Lemma numq_cons (x : ResultObject) (l : list ResultObject) :
  numq (x :: l) <-> is_num (distance x) /\ numq l.
Proof. unfold numq. by rewrite Forall_cons. Qed.

Lemma stable_sort_sorted (q : list ResultObject) :
  numq q -> sortedq q -> stable_sort CompareDistance q = q.
Proof.
  induction q as [|x q IH]; simpl; [done|].
  rewrite numq_cons, sortedq_cons. intros [Hx Hn] [Hs Hle].
  rewrite IH by done. apply sort_insert_head.
  intros y Hy. destruct q as [|z q]; simplify_eq/=.
  apply Forall_cons in Hle as [Hle _]. apply numq_cons in Hn as [Hy _].
  rewrite CompareDistance_rk by done. apply Z.ltb_ge. lia.
Qed.

Lemma place_head (c : ResultObject) (l : list ResultObject) :
  (forall y, head l = Some y -> CompareDistance c y = true) ->
  place c l = c :: l.
Proof.
  destruct l as [|y l]; simpl; [done|].
  intros Hy. by rewrite (Hy y eq_refl).
Qed.

Lemma place_length (c : ResultObject) (l : list ResultObject) :
  length (place c l) = S (length l).
Proof.
  induction l as [|y l IH]; simpl; [done|].
  destruct (CompareDistance c y); simpl; by rewrite ?IH.
Qed.

Lemma foldr_insert_place (c : ResultObject) (l1 l2 : list ResultObject) :
  numq l1 -> sortedq l1 -> numq l2 -> is_num (distance c) ->
  Forall (fun y => Forall (fun z => (rk y <= rk z)%Z) l2) l1 ->
  Forall (fun z => (rk c <= rk z)%Z) l2 ->
  foldr (sort_insert CompareDistance) (c :: l2) l1 = place c l1 ++ l2.
Proof.
  intros Hn1 Hs1 Hn2 Hc H12 Hc2.
  induction l1 as [|y l1 IH]; simpl; [done|].
  apply numq_cons in Hn1 as [Hy Hn1]. apply sortedq_cons in Hs1 as [Hs1 Hyl].
  apply Forall_cons in H12 as [Hy2 H12].
  rewrite IH by done. clear IH.
  rewrite (CompareDistance_rk c y) by done.
  destruct (Z.ltb_spec (rk c) (rk y)) as [Hlt|Hge].
  - rewrite place_head.
    2:{ intros z Hz. destruct l1 as [|z' l1]; simplify_eq/=.
        apply Forall_cons in Hyl as [Hyz _]. apply numq_cons in Hn1 as [Hz _].
        rewrite CompareDistance_rk by done. apply Z.ltb_lt. lia. }
    simpl. rewrite (CompareDistance_rk c y) by done.
    replace (rk c <? rk y)%Z with true by (symmetry; apply Z.ltb_lt; lia).
    f_equal. apply sort_insert_head.
    intros z Hz. destruct l1 as [|z' l1]; simpl in Hz.
    + destruct l2 as [|z' l2]; simplify_eq/=.
      apply Forall_cons in Hy2 as [Hyz _]. apply numq_cons in Hn2 as [Hz _].
      rewrite CompareDistance_rk by done. apply Z.ltb_ge. lia.
    + simplify_eq. apply Forall_cons in Hyl as [Hyz _].
      apply numq_cons in Hn1 as [Hz _].
      rewrite CompareDistance_rk by done. apply Z.ltb_ge. lia.
  - simpl. apply sort_insert_head.
    intros z Hz. destruct l1 as [|z' l1]; simpl in Hz.
    + simplify_eq. rewrite CompareDistance_rk by done. apply Z.ltb_ge. lia.
    + apply numq_cons in Hn1 as [Hz' _]. apply Forall_cons in Hyl as [Hyz _].
      destruct (CompareDistance c z'); simplify_eq/=;
        rewrite CompareDistance_rk by done; apply Z.ltb_ge; lia.
Qed.

(** Overwriting a slot by an entry that is not farther, then sorting. *)
Lemma sort_overwrite (l1 l2 : list ResultObject) (r c : ResultObject) :
  numq (l1 ++ r :: l2) -> sortedq (l1 ++ r :: l2) ->
  is_num (distance c) -> (rk c <= rk r)%Z ->
  stable_sort CompareDistance (l1 ++ c :: l2) = place c l1 ++ l2.
Proof.
  intros Hn Hs Hc Hcr.
  apply Forall_app in Hn as [Hn1 Hn2]. apply numq_cons in Hn2 as [Hr Hn2].
  apply StronglySorted_app in Hs as (H12 & Hs1 & Hs2).
  apply sortedq_cons in Hs2 as [Hs2 Hrl].
  assert (Forall (fun z => (rk c <= rk z)%Z) l2) as Hc2.
  { eapply Forall_impl; [exact Hrl|]. simpl. intros. lia. }
  rewrite stable_sort_app. simpl. rewrite stable_sort_sorted by done.
  rewrite sort_insert_head.
  2:{ intros y Hy. destruct l2 as [|z l2]; simplify_eq/=.
      apply Forall_cons in Hc2 as [Hcy _]. apply numq_cons in Hn2 as [Hy _].
      rewrite CompareDistance_rk by done. apply Z.ltb_ge. lia. }
  apply foldr_insert_place; try done.
  apply Forall_forall. intros y Hy. apply Forall_forall. intros z Hz.
  apply (H12 y z); [done|]. by right.
Qed.

(** ** The loop body is [offer] on the candidate *)

Lemma insert_result_clean (old : ResultObject) (layer : string) (ll : point_double)
    (meters : double) (feature : vt_feature) :
  properties_vector_materialized old = [] ->
  insert_result old (get_properties_vector feature) layer ll meters
                (get_geometry_type feature) (f_has_id feature) (f_id feature)
  = entry_of layer ll meters feature.
Proof. intros Hold. unfold entry_of, insert_result. by rewrite Hold. Qed.

Lemma value_is_duplicate_is_dup (r : ResultObject) (layer : string)
    (ll : point_double) (meters : double) (feature : vt_feature) :
  value_is_duplicate r feature layer (get_geometry_type feature)
                     (get_properties_vector feature)
  = is_dup r (entry_of layer ll meters feature).
Proof.
  unfold value_is_duplicate, is_dup, entry_of, insert_result; simpl.
  destruct (String.eqb (layer_name r) layer); simpl; [|done].
  destruct (bool_decide (original_geometry_type r = get_geometry_type feature));
    simpl; [|done].
  by destruct (has_id r && f_has_id feature && negb (id_ r =? f_id feature)%Z).
Qed.

Lemma back_clean (q : list ResultObject) :
  cleanq q -> properties_vector_materialized (back q) = [].
Proof.
  intros Hq. unfold back. destruct (last q) as [r|] eqn:Hl; simpl; [|done].
  apply last_Some_elem_of in Hl. by eapply Forall_forall in Hq.
Qed.

Section LoopBody.

Context `{Collaborators}.

Lemma dedupe_scan_find_dup (feature : vt_feature) (layer : string)
    (ll : point_double) (meters : double) (q : list ResultObject) :
  cleanq q ->
  dedupe_scan feature layer (get_geometry_type feature) ll meters
              (get_properties_vector feature) q
  = match find_dup (entry_of layer ll meters feature) q with
    | Some i =>
        if dbl_le meters (distance (default ResultObject_default (q !! i)))
        then (true, false, <[i := entry_of layer ll meters feature]> q)
        else (false, true, q)
    | None => (false, false, q)
    end.
Proof.
  induction q as [|r q IH]; simpl; [done|].
  intros Hq. apply Forall_cons in Hq as [Hr Hq].
  rewrite (value_is_duplicate_is_dup r layer ll meters feature).
  destruct (is_dup r (entry_of layer ll meters feature)); simpl.
  - rewrite insert_result_clean by done. done.
  - rewrite IH by done.
    destruct (find_dup (entry_of layer ll meters feature) q) as [i|]; simpl; [|done].
    by destruct (dbl_le meters (distance (default ResultObject_default (q !! i)))).
Qed.

Lemma process_feature_offer (data : QueryData) (layer : string)
    (extent z x y : Z) (qp : point_int64) (q : list ResultObject)
    (feature : vt_feature) :
  cleanq q ->
  process_feature data layer extent z x y qp q feature
  = from_option (offer (dedupe data) q) q
                (candidate data layer extent z x y qp feature).
Proof.
  intros Hq. unfold process_feature, candidate.
  destruct (negb (bool_decide (geometry_filter_type data = all))
            && negb (bool_decide (geometry_filter_type data = get_geometry_type feature)));
    [done|].
  destruct (dbl_lt (cp_distance (closest_point feature qp)) dbl_zero); [done|].
  destruct (snap data extent z x y (closest_point feature qp)) as [ll meters].
  destruct (dbl_gt meters (radius data)); [done|]. simpl.
  unfold offer. destruct (dedupe data).
  - rewrite dedupe_scan_find_dup by done.
    destruct (find_dup (entry_of layer ll meters feature) q) as [i|]; simpl.
    + by destruct (dbl_le meters (distance (default ResultObject_default (q !! i)))).
    + rewrite insert_result_clean by by apply back_clean. done.
  - rewrite insert_result_clean by by apply back_clean. done.
Qed.

End LoopBody.

Lemma offer_Forall (P : ResultObject -> Prop) (b : bool) (q : list ResultObject)
    (c : ResultObject) :
  Forall P q -> P c -> Forall P (offer b q c).
Proof.
  intros Hq Hc. unfold offer.
  destruct (if b then find_dup c q else None) as [i|].
  - destruct (dbl_le _ _); [|done].
    rewrite stable_sort_Permutation. by apply Forall_insert.
  - destruct (dbl_lt _ _); [|done].
    rewrite stable_sort_Permutation. by apply Forall_insert.
Qed.

Lemma offer_length (b : bool) (q : list ResultObject) (c : ResultObject) :
  length (offer b q c) = length q.
Proof.
  unfold offer. destruct (if b then find_dup c q else None) as [i|].
  - destruct (dbl_le _ _); [|done]. by rewrite stable_sort_length, length_insert.
  - destruct (dbl_lt _ _); [|done]. by rewrite stable_sort_length, length_insert.
Qed.

Lemma foldl_offer_Forall (P : ResultObject -> Prop) (b : bool)
    (cs q : list ResultObject) :
  Forall P q -> Forall P cs -> Forall P (foldl (offer b) q cs).
Proof.
  revert q. induction cs as [|c cs IH]; simpl; [done|].
  intros q Hq Hcs. apply Forall_cons in Hcs as [Hc Hcs].
  apply IH; [|done]. by apply offer_Forall.
Qed.

Lemma foldl_offer_length (b : bool) (cs q : list ResultObject) :
  length (foldl (offer b) q cs) = length q.
Proof.
  revert q. induction cs as [|c cs IH]; simpl; [done|].
  intros q. by rewrite IH, offer_length.
Qed.

Section Traversal.

Context `{Collaborators}.

Lemma candidate_clean (data : QueryData) (layer : string) (extent z x y : Z)
    (qp : point_int64) (feature : vt_feature) (c : ResultObject) :
  candidate data layer extent z x y qp feature = Some c ->
  properties_vector_materialized c = [].
Proof.
  unfold candidate. intros Hc.
  repeat (case_match; simplify_eq/=). done.
Qed.

Lemma features_offer (data : QueryData) (layer : string) (extent z x y : Z)
    (qp : point_int64) (fs : list vt_feature) (q : list ResultObject) :
  cleanq q ->
  foldl (process_feature data layer extent z x y qp) q fs
  = foldl (offer (dedupe data)) q
          (omap (candidate data layer extent z x y qp) fs).
Proof.
  revert q. induction fs as [|f fs IH]; simpl; [done|].
  intros q Hq. rewrite process_feature_offer by done.
  destruct (candidate data layer extent z x y qp f) as [c|] eqn:Hc; simpl.
  - apply IH. apply offer_Forall; [done|]. by eapply candidate_clean.
  - by apply IH.
Qed.

Lemma process_layer_offer (data : QueryData) (z x y : Z) (q : list ResultObject)
    (layer : vt_layer) :
  cleanq q ->
  process_layer data z x y q layer
  = foldl (offer (dedupe data)) q (layer_candidates data z x y layer).
Proof.
  intros Hq. unfold process_layer, layer_candidates.
  case_match; [done|]. by apply features_offer.
Qed.

Lemma layer_candidates_clean (data : QueryData) (z x y : Z) (layer : vt_layer) :
  cleanq (layer_candidates data z x y layer).
Proof.
  unfold layer_candidates, cleanq. case_match; [done|].
  apply Forall_forall. intros c Hc.
  apply list_elem_of_omap in Hc as (f & _ & Hc). by eapply candidate_clean.
Qed.

Lemma process_tile_offer (data : QueryData) (q : list ResultObject)
    (tile_obj : decoded_tile) :
  cleanq q ->
  process_tile data q tile_obj
  = foldl (offer (dedupe data)) q (tile_candidates data tile_obj).
Proof.
  destruct tile_obj as [[[tile z] x] y]. simpl.
  revert q. induction tile as [|layer tile IH]; simpl; [done|].
  intros q Hq. rewrite foldl_app, process_layer_offer by done.
  apply IH. apply foldl_offer_Forall; [done|]. apply layer_candidates_clean.
Qed.

Lemma tile_candidates_clean (data : QueryData) (tile_obj : decoded_tile) :
  cleanq (tile_candidates data tile_obj).
Proof.
  destruct tile_obj as [[[tile z] x] y]. unfold cleanq. simpl.
  apply Forall_forall. intros c Hc.
  apply list_elem_of_bind in Hc as (layer & Hc & _).
  pose proof (layer_candidates_clean data z x y layer) as Hl.
  by eapply Forall_forall in Hl.
Qed.

Lemma tiles_offer (data : QueryData) (q : list ResultObject)
    (decoded : list decoded_tile) :
  cleanq q ->
  foldl (process_tile data) q decoded
  = foldl (offer (dedupe data)) q (encounter data decoded).
Proof.
  unfold encounter.
  revert q. induction decoded as [|t decoded IH]; simpl; [done|].
  intros q Hq. rewrite foldl_app, process_tile_offer by done.
  apply IH. apply foldl_offer_Forall; [done|]. apply tile_candidates_clean.
Qed.

(** The three loops are a left fold of [offer] over the candidates in
    encounter order, started on [limit] default slots. *)
Lemma traverse_offer (data : QueryData) (decoded : list decoded_tile) :
  traverse data decoded
  = foldl (offer (dedupe data))
          (replicate (num_results data) ResultObject_default)
          (encounter data decoded).
Proof.
  unfold traverse. apply tiles_offer.
  unfold cleanq. apply Forall_replicate. done.
Qed.

End Traversal.

(** ** Invariants of the queue *)

Lemma find_dup_Some (c : ResultObject) (q : list ResultObject) (i : nat) :
  find_dup c q = Some i ->
  exists r, q !! i = Some r /\ is_dup r c = true
            /\ Forall (fun r' => is_dup r' c = false) (take i q).
Proof.
  revert i. induction q as [|x q IH]; simpl; [done|].
  intros i. destruct (is_dup x c) eqn:Hx.
  - intros [= <-]. exists x. simpl. by repeat split.
  - destruct (find_dup c q) as [j|]; simpl; [|done].
    intros [= <-]. destruct (IH j eq_refl) as (r & Hr & Hd & Hf).
    exists r. simpl. repeat split; [done..|]. by constructor.
Qed.

Lemma find_dup_None (c : ResultObject) (q : list ResultObject) :
  find_dup c q = None <-> Forall (fun r => is_dup r c = false) q.
Proof.
  induction q as [|x q IH]; simpl; [done|].
  rewrite Forall_cons. destruct (is_dup x c); [intuition congruence|].
  destruct (find_dup c q); simpl in *; intuition congruence.
Qed.

(** Either nothing changes, or a slot holding something not closer is
    overwritten and the queue sorted again. *)
Lemma offer_cases (b : bool) (q : list ResultObject) (c : ResultObject) :
  offer b q c = q
  \/ exists i r, q !! i = Some r
                 /\ dbl_le (distance c) (distance r) = true
                 /\ offer b q c = stable_sort CompareDistance (<[i := c]> q).
Proof.
  unfold offer. destruct (if b then find_dup c q else None) as [i|] eqn:Hf.
  - destruct b; [|done]. apply find_dup_Some in Hf as (r & Hr & _).
    rewrite Hr. simpl. destruct (dbl_le (distance c) (distance r)) eqn:Hle; [|by left].
    right. by exists i, r.
  - rewrite last_lookup.
    destruct (q !! pred (length q)) as [r|] eqn:Hr; simpl.
    + destruct (dbl_lt (distance c) (distance r)) eqn:Hlt; [|by left].
      right. exists (pred (length q)), r. repeat split; [done|].
      apply dbl_lt_rank in Hlt as (? & ? & ?). apply dbl_le_rank.
      repeat split; [done..|lia].
    + left. apply lookup_ge_None in Hr.
      rewrite list_insert_ge by done.
      destruct (dbl_lt _ _); [|done].
      assert (q = []) as -> by (destruct q; simpl in *; [done|lia]). done.
Qed.

Lemma sort_insert_sortedq (x : ResultObject) (l : list ResultObject) :
  is_num (distance x) -> numq l -> sortedq l ->
  sortedq (sort_insert CompareDistance x l).
Proof.
  intros Hx. induction l as [|y l IH]; simpl.
  - intros _ _. apply sortedq_cons. split; [constructor|done].
  - rewrite numq_cons, sortedq_cons. intros [Hy Hn] [Hs Hle].
    rewrite CompareDistance_rk by done.
    destruct (Z.ltb_spec (rk y) (rk x)) as [Hlt|Hge].
    + apply sortedq_cons. split; [by apply IH|].
      rewrite sort_insert_Permutation. constructor; [lia|done].
    + apply sortedq_cons. split; [by apply sortedq_cons|].
      constructor; [done|]. eapply Forall_impl; [exact Hle|]. simpl. intros. lia.
Qed.

Lemma stable_sort_sortedq (l : list ResultObject) :
  numq l -> sortedq (stable_sort CompareDistance l).
Proof.
  induction l as [|x l IH]; simpl; [constructor|].
  rewrite numq_cons. intros [Hx Hn].
  apply sort_insert_sortedq; [done| |by apply IH].
  unfold numq. by rewrite stable_sort_Permutation.
Qed.

Lemma offer_wfq (b : bool) (q : list ResultObject) (c : ResultObject) :
  wfq q -> wfq (offer b q c).
Proof.
  intros [Hn Hs].
  destruct (offer_cases b q c) as [->|(i & r & Hr & Hle & ->)]; [done|].
  apply dbl_le_is_num in Hle as [Hc _].
  assert (numq (<[i:=c]> q)) as Hn' by by apply Forall_insert.
  split; [|by apply stable_sort_sortedq].
  unfold numq. by rewrite stable_sort_Permutation.
Qed.

Lemma foldl_offer_wfq (b : bool) (cs q : list ResultObject) :
  wfq q -> wfq (foldl (offer b) q cs).
Proof.
  revert q. induction cs as [|c cs IH]; simpl; [done|].
  intros q Hq. by apply IH, offer_wfq.
Qed.

Lemma sortedq_replicate (n : nat) (r : ResultObject) : sortedq (replicate n r).
Proof.
  induction n as [|n IH]; simpl; [constructor|].
  apply sortedq_cons. split; [done|]. apply Forall_replicate. lia.
Qed.

Lemma initial_wfq (n : nat) : wfq (replicate n ResultObject_default).
Proof.
  split; [|apply sortedq_replicate]. by apply Forall_replicate.
Qed.

(** In a sorted queue the emitted slots are a prefix. *)
Lemma emitted_prefix (q : list ResultObject) :
  wfq q ->
  q = emitted q ++ filter (fun r => ¬ dbl_lt (distance r) DBL_MAX = true) q.
Proof.
  intros [Hn Hs]. unfold emitted.
  induction q as [|x q IH]; simpl; [done|].
  apply numq_cons in Hn as [Hx Hn]. apply sortedq_cons in Hs as [Hs Hle].
  rewrite !filter_cons.
  destruct (decide (dbl_lt (distance x) DBL_MAX = true)) as [Hlt|Hge].
  - rewrite decide_False by tauto. simpl. f_equal. by apply IH.
  - rewrite decide_True by done.
    assert (Forall (fun r => ¬ dbl_lt (distance r) DBL_MAX = true) q) as Hq.
    { apply Forall_forall. intros y Hy Hlt. apply Hge.
      eapply Forall_forall in Hle; [|done]. eapply Forall_forall in Hn; [|done].
      apply dbl_lt_rank in Hlt as (_ & _ & Hlt). apply dbl_lt_rank.
      repeat split; [done..|]. unfold rk in Hle. lia. }
    assert (filter (fun r => dbl_lt (distance r) DBL_MAX = true) q = []) as ->.
    { clear -Hq. induction Hq as [|y q Hy Hq IH]; [done|].
      by rewrite filter_cons_False. }
    simpl. f_equal. clear -Hq.
    induction Hq as [|y q Hy Hq IH]; [done|].
    by rewrite filter_cons_True, <- IH.
Qed.

(** ** What [OnOK] emits *)

Lemma OnOK_loop_dead (l s : list ResultObject) (arr : js_array) :
  Forall (fun r => ¬ dbl_lt (distance r) DBL_MAX = true) l ->
  OnOK_loop (reverse l ++ s) arr = OnOK_loop s arr.
Proof.
  induction l as [|x l IH] using rev_ind; [done|].
  rewrite Forall_app, Forall_singleton. intros [Hl Hx].
  rewrite reverse_snoc. simpl.
  destruct (dbl_lt (distance x) DBL_MAX); [done|]. by apply IH.
Qed.

Lemma OnOK_loop_live (l : list ResultObject) (tail : js_array) :
  Forall (fun r => dbl_lt (distance r) DBL_MAX = true) l ->
  OnOK_loop (reverse l) (replicate (length l) None ++ tail)
  = ((Some ∘ make_feature_obj) <$> l) ++ tail.
Proof.
  revert tail. induction l as [|x l IH] using rev_ind; [done|].
  intros tail. rewrite Forall_app, Forall_singleton. intros [Hl Hx].
  rewrite reverse_snoc, length_app. cbn [OnOK_loop length].
  rewrite Hx, length_reverse.
  unfold array_set. rewrite decide_True.
  2:{ rewrite length_app, length_replicate. lia. }
  replace (length l + 1) with (S (length l)) by lia.
  rewrite replicate_S_end, <- (assoc_L (++)).
  rewrite insert_app_r_alt by (rewrite length_replicate; lia).
  rewrite length_replicate, Nat.sub_diag. cbn [app insert list_insert].
  rewrite IH by done. rewrite fmap_app, <- (assoc_L (++)). done.
Qed.

Lemma OnOK_loop_split (live dead : list ResultObject) :
  Forall (fun r => dbl_lt (distance r) DBL_MAX = true) live ->
  Forall (fun r => ¬ dbl_lt (distance r) DBL_MAX = true) dead ->
  OnOK_loop (reverse (live ++ dead)) [] = (Some ∘ make_feature_obj) <$> live.
Proof.
  intros Hlive Hdead. rewrite reverse_app, OnOK_loop_dead by done.
  destruct live as [|x live _] using rev_ind; [done|].
  rewrite Forall_app, Forall_singleton in Hlive. destruct Hlive as [Hlive Hx].
  rewrite reverse_snoc. cbn [OnOK_loop]. rewrite Hx, length_reverse.
  unfold array_set. rewrite decide_False by (simpl; lia). simpl.
  rewrite Nat.sub_0_r, OnOK_loop_live by done.
  by rewrite fmap_app.
Qed.

Lemma OnOK_features (q : list ResultObject) :
  wfq q -> features (OnOK q) = (Some ∘ make_feature_obj) <$> emitted q.
Proof.
  intros Hq. simpl. rewrite (emitted_prefix q Hq) at 1.
  apply OnOK_loop_split; unfold emitted.
  - apply Forall_forall. intros r Hr. by apply list_elem_of_filter in Hr as [? _].
  - apply Forall_forall. intros r Hr. by apply list_elem_of_filter in Hr as [? _].
Qed.

Lemma materialize_wfq (q : list ResultObject) : wfq q -> wfq (materialize <$> q).
Proof.
  intros [Hn Hs]. split.
  - unfold numq. rewrite Forall_fmap. exact Hn.
  - unfold sortedq. eapply StronglySorted_fmap; [|exact Hs].
    intros a b. done.
Qed.

Lemma emitted_materialize (q : list ResultObject) :
  emitted (materialize <$> q) = materialize <$> emitted q.
Proof.
  unfold emitted. induction q as [|x q IH]; [done|].
  rewrite fmap_cons, !filter_cons. simpl.
  destruct (decide (dbl_lt (distance x) DBL_MAX = true)); by rewrite IH.
Qed.

Lemma make_feature_obj_tilequery (r : ResultObject) :
  fo_tilequery (make_feature_obj r)
  = Some {| tq_distance := distance r;
            tq_geometry := getGeomTypeString (GeomType_value (original_geometry_type r));
            tq_layer := layer_name r |}.
Proof.
  unfold fo_tilequery, make_feature_obj. cbn [fo_properties].
  change (obj_set "tilequery") with (obj_put "tilequery").
  generalize (foldl (fun o prop => set_property prop o) []
                    (properties_vector_materialized r)).
  intros o. induction o as [|[k v] o IH]; simpl; [done|].
  destruct (String.eqb k "tilequery") eqn:Hk; simpl.
  - done.
  - by rewrite Hk.
Qed.

Lemma feature_of_tilequery (r : ResultObject) :
  fo_tilequery (feature_of r)
  = Some {| tq_distance := distance r;
            tq_geometry := getGeomTypeString (GeomType_value (original_geometry_type r));
            tq_layer := layer_name r |}.
Proof. unfold feature_of. by rewrite make_feature_obj_tilequery. Qed.

Lemma feature_of_distance (r : ResultObject) : fo_distance (feature_of r) = distance r.
Proof. unfold fo_distance. by rewrite feature_of_tilequery. Qed.

Section WorkerOutput.

Context `{Collaborators}.

Lemma traverse_wfq (data : QueryData) (decoded : list decoded_tile) :
  wfq (traverse data decoded).
Proof. rewrite traverse_offer. apply foldl_offer_wfq, initial_wfq. Qed.

(** The FeatureCollection is the image of the emitted slots, in queue
    order and without holes. *)
Lemma Worker_spec (data : QueryData) (fc : FeatureCollection) :
  Worker data = Some fc <->
  exists decoded,
    decode_tiles data = Some decoded
    /\ fc = {| fc_type := "FeatureCollection";
               features := (Some ∘ feature_of) <$> emitted (traverse data decoded) |}.
Proof.
  unfold Worker, Execute, decode_tiles.
  destruct (mapM decode_tile (tiles data)) as [decoded|]; simpl.
  - assert (OnOK (materialize <$> traverse data decoded)
            = {| fc_type := "FeatureCollection";
                 features := (Some ∘ feature_of) <$> emitted (traverse data decoded) |})
      as ->.
    { unfold OnOK at 1. f_equal.
      change (OnOK_loop (reverse (materialize <$> traverse data decoded)) [])
        with (features (OnOK (materialize <$> traverse data decoded))).
      rewrite OnOK_features by apply materialize_wfq, traverse_wfq.
      rewrite emitted_materialize, <- list_fmap_compose. done. }
    split.
    + intros [= <-]. by exists decoded.
    + intros (d & [= <-] & ->). done.
  - split; [done|]. by intros (d & ? & _).
Qed.

Lemma Worker_features (data : QueryData) (fc : FeatureCollection) :
  Worker data = Some fc ->
  exists decoded,
    decode_tiles data = Some decoded
    /\ features fc = (Some ∘ feature_of) <$> emitted (traverse data decoded).
Proof.
  intros Hw. apply Worker_spec in Hw as (decoded & Hd & ->). by exists decoded.
Qed.

End WorkerOutput.

(** ** Facts about candidates *)

Section CandidateFacts.

Context `{Collaborators}.

Lemma candidate_Some (data : QueryData) (layer : string) (extent z x y : Z)
    (qp : point_int64) (f : vt_feature) (c : ResultObject) :
  candidate data layer extent z x y qp f = Some c ->
  (geometry_filter_type data = all
   \/ geometry_filter_type data = get_geometry_type f)
  /\ dbl_lt (cp_distance (closest_point f qp)) dbl_zero = false
  /\ dbl_gt (snap data extent z x y (closest_point f qp)).2 (radius data) = false
  /\ c = entry_of layer (snap data extent z x y (closest_point f qp)).1
                  (snap data extent z x y (closest_point f qp)).2 f.
Proof.
  unfold candidate. intros Hc.
  destruct (bool_decide (geometry_filter_type data = all)) eqn:Hall;
    destruct (bool_decide (geometry_filter_type data = get_geometry_type f)) eqn:Hty;
    simpl in Hc; try done;
    destruct (dbl_lt (cp_distance (closest_point f qp)) dbl_zero); try done;
    destruct (snap data extent z x y (closest_point f qp)) as [ll meters]; simpl;
    destruct (dbl_gt meters (radius data)); simplify_eq;
    (split; [|done]).
  - left. by apply bool_decide_eq_true in Hall.
  - left. by apply bool_decide_eq_true in Hall.
  - right. by apply bool_decide_eq_true in Hty.
Qed.

Lemma encounter_elem (data : QueryData) (decoded : list decoded_tile)
    (c : ResultObject) :
  c ∈ encounter data decoded ->
  exists layer extent z x y qp f,
    candidate data layer extent z x y qp f = Some c.
Proof.
  unfold encounter. intros Hc.
  apply list_elem_of_bind in Hc as ([[[tile z] x] y] & Hc & _).
  simpl in Hc. apply list_elem_of_bind in Hc as (layer & Hc & _).
  unfold layer_candidates in Hc. case_match; [by apply elem_of_nil in Hc|].
  apply list_elem_of_omap in Hc as (f & _ & Hc). eauto 10.
Qed.

Lemma encounter_Forall (P : ResultObject -> Prop) (data : QueryData)
    (decoded : list decoded_tile) :
  (forall layer extent z x y qp f c,
      candidate data layer extent z x y qp f = Some c -> P c) ->
  Forall P (encounter data decoded).
Proof.
  intros HP. apply Forall_forall. intros c Hc.
  apply encounter_elem in Hc as (layer & extent & z & x & y & qp & f & Hc).
  by eapply HP.
Qed.

(** A property of the default slot and of every candidate holds for
    every slot of the queue at the end of the traversal. *)
Lemma traverse_Forall (P : ResultObject -> Prop) (data : QueryData)
    (decoded : list decoded_tile) :
  (0 < num_results data -> P ResultObject_default) ->
  (forall layer extent z x y qp f c,
      candidate data layer extent z x y qp f = Some c -> P c) ->
  Forall P (traverse data decoded).
Proof.
  intros Hd HP. rewrite traverse_offer. apply foldl_offer_Forall.
  - apply Forall_forall. intros r Hr. apply elem_of_replicate in Hr as [-> Hn].
    apply Hd. lia.
  - by apply encounter_Forall.
Qed.

Lemma snap_cases (data : QueryData) (extent z x y : Z) (cp : closest_point_info) :
  (snap data extent z x y cp).2 = dbl_zero
  \/ exists ll, (snap data extent z x y cp).2
                = distance_in_meters (longitude data, latitude data) ll.
Proof. unfold snap. destruct (dbl_gt _ _); simpl; eauto. Qed.

End CandidateFacts.

(** ** The claims *)

Section Claims.

Context `{Collaborators}.

Lemma dedupe_scan_length (feature : vt_feature) (layer : string) (geom : GeomType)
    (ll : point_double) (meters : double) (props : list property)
    (q : list ResultObject) :
  length (dedupe_scan feature layer geom ll meters props q).2 = length q.
Proof.
  induction q as [|r q IH]; simpl; [done|].
  destruct (value_is_duplicate r feature layer geom props).
  - by destruct (dbl_le meters (distance r)).
  - destruct (dedupe_scan feature layer geom ll meters props q) as [[fd sk] q'].
    simpl in *. by rewrite IH.
Qed.

Lemma process_feature_length (data : QueryData) (layer : string)
    (extent z x y : Z) (qp : point_int64) (q : list ResultObject)
    (feature : vt_feature) :
  length (process_feature data layer extent z x y qp q feature) = length q.
Proof.
  unfold process_feature.
  destruct (_ && _); [done|].
  destruct (dbl_lt _ dbl_zero); [done|].
  destruct (snap data extent z x y (closest_point feature qp)) as [ll meters].
  destruct (dbl_gt meters (radius data)); [done|].
  destruct (dedupe data).
  - pose proof (dedupe_scan_length feature layer (get_geometry_type feature) ll
                  meters (get_properties_vector feature) q) as Hl.
    destruct (dedupe_scan _ _ _ _ _ _ q) as [[fd sk] q']. simpl in Hl.
    destruct sk; [done|]. destruct fd; [by rewrite stable_sort_length|].
    destruct (dbl_lt _ _); [|done].
    by rewrite stable_sort_length, length_insert.
  - destruct (dbl_lt _ _); [|done].
    by rewrite stable_sort_length, length_insert.
Qed.

Lemma traverse_length (data : QueryData) (decoded : list decoded_tile) :
  length (traverse data decoded) = num_results data.
Proof. by rewrite traverse_offer, foldl_offer_length, length_replicate. Qed.

Lemma emitted_length (q : list ResultObject) : length (emitted q) <= length q.
Proof. unfold emitted. apply length_filter. Qed.

(** C5: the result queue has [limit] slots at the start, every step of
    the feature loop keeps the number of slots, so it has [limit] slots
    after the traversal; the FeatureCollection has at most [limit]
    features. *)
Theorem result_set_capacity (data : QueryData) :
  length (traverse data []) = num_results data
  /\ (forall layer extent z x y qp q feature,
         length (process_feature data layer extent z x y qp q feature) = length q)
  /\ (forall decoded, length (traverse data decoded) = num_results data)
  /\ (forall fc, Worker data = Some fc ->
                 length (features fc) <= num_results data).
Proof.
  split; [apply traverse_length|].
  split; [intros; apply process_feature_length|].
  split; [apply traverse_length|].
  intros fc Hw. apply Worker_features in Hw as (decoded & _ & ->).
  rewrite length_fmap, <- (traverse_length data decoded). apply emitted_length.
Qed.

Lemma emitted_elem_of (q : list ResultObject) (r : ResultObject) :
  r ∈ emitted q <-> dbl_lt (distance r) DBL_MAX = true /\ r ∈ q.
Proof. unfold emitted. by rewrite list_elem_of_filter. Qed.

Lemma features_elem_of (q : list ResultObject) (o : feature_obj) :
  Some o ∈ (Some ∘ feature_of) <$> emitted q ->
  exists r, o = feature_of r /\ dbl_lt (distance r) DBL_MAX = true /\ r ∈ q.
Proof.
  intros Ho. apply list_elem_of_fmap in Ho as (r & [= ->] & Hr).
  apply emitted_elem_of in Hr. by exists r.
Qed.

(** C2: the default radius is 0; a feature farther than the radius
    leaves the queue unchanged; every emitted distance is at most the
    radius; with radius 0 (and a distance function that is never
    negative) every emitted distance is 0. *)
Theorem radius_cutoff (data : QueryData) :
  dbl_le dbl_zero (radius data) = true ->
  radius QueryData_init = dbl_zero
  /\ (forall layer extent z x y qp q feature,
      dbl_gt (snap data extent z x y (closest_point feature qp)).2 (radius data) = true ->
      process_feature data layer extent z x y qp q feature = q)
  /\ (forall fc o, Worker data = Some fc -> Some o ∈ features fc ->
                   dbl_le (fo_distance o) (radius data) = true)
  /\ (meters_not_negative -> radius data = dbl_zero ->
      forall fc o, Worker data = Some fc -> Some o ∈ features fc ->
                   fo_distance o = dbl_zero).
Proof.
  intros Hr. split; [reflexivity|].
  apply dbl_le_is_num in Hr as [_ Hr].
  assert (forall decoded,
             Forall (fun r => is_num (distance r) ->
                              dbl_le (distance r) (radius data) = true
                              \/ r = ResultObject_default)
                    (traverse data decoded)) as Hle.
  { intros decoded. apply traverse_Forall; [by right|].
    intros layer extent z x y qp f c Hc Hn. left.
    apply candidate_Some in Hc as (_ & _ & Hgt & ->). simpl in *.
    set (m := (snap data extent z x y (closest_point f qp)).2) in *.
    unfold dbl_gt in Hgt. rewrite dbl_lt_num in Hgt by done.
    rewrite dbl_le_num by done. apply Z.leb_le. apply Z.ltb_ge in Hgt. lia. }
  split; [|split].
  - intros layer extent z x y qp q feature Hgt. unfold process_feature.
    destruct (_ && _); [done|]. destruct (dbl_lt _ dbl_zero); [done|].
    destruct (snap data extent z x y (closest_point feature qp)) as [ll meters].
    simpl in Hgt. by rewrite Hgt.
  - intros fc o Hw Ho. apply Worker_features in Hw as (decoded & _ & Hf).
    rewrite Hf in Ho. apply features_elem_of in Ho as (r & -> & Hlt & Hin).
    rewrite feature_of_distance.
    specialize (Hle decoded). eapply Forall_forall in Hle; [|exact Hin].
    destruct Hle as [Hle| ->]; [by apply dbl_lt_is_num in Hlt as [? _]|done|].
    by vm_compute in Hlt.
  - intros Hm Hr0 fc o Hw Ho. apply Worker_features in Hw as (decoded & _ & Hf).
    rewrite Hf in Ho. apply features_elem_of in Ho as (r & -> & Hlt & Hin).
    rewrite feature_of_distance.
    assert (Forall (fun r => dbl_lt (distance r) dbl_zero = false)
                   (traverse data decoded)) as Hge.
    { apply traverse_Forall; [done|].
      intros layer extent z x y qp f c Hc.
      apply candidate_Some in Hc as (_ & _ & _ & ->). simpl.
      destruct (snap_cases data extent z x y (closest_point f qp)) as [->|[ll ->]];
        [done|apply Hm]. }
    specialize (Hle decoded). eapply Forall_forall in Hle; [|exact Hin].
    eapply Forall_forall in Hge; [|exact Hin].
    destruct Hle as [Hle| ->]; [by apply dbl_lt_is_num in Hlt as [? _]| |].
    + rewrite Hr0 in Hle. apply dbl_le_rank in Hle as (Hn & _ & Hle).
      rewrite dbl_lt_num in Hge by done. apply Z.ltb_ge in Hge.
      rewrite (is_num_rank _ Hn). unfold dbl_zero in *. simpl in *. f_equal. lia.
    + by vm_compute in Hlt.
Qed.

End Claims.

(** ** Ordering of the output *)

Lemma sortedq_lookup (l : list ResultObject) (i j : nat) (a b : ResultObject) :
  sortedq l -> i <= j -> l !! i = Some a -> l !! j = Some b -> (rk a <= rk b)%Z.
Proof.
  revert i j. induction l as [|x l IH]; intros i j Hs Hij Ha Hb; [done|].
  apply sortedq_cons in Hs as [Hs Hle].
  destruct i as [|i], j as [|j]; simplify_eq/=; try lia.
  - apply list_elem_of_lookup_2 in Hb. by eapply Forall_forall in Hle.
  - eapply IH; [done| |done..]. lia.
Qed.

Lemma emitted_wfq (q : list ResultObject) : wfq q -> wfq (emitted q).
Proof.
  intros Hq. pose proof (emitted_prefix q Hq) as Hp. destruct Hq as [Hn Hs].
  rewrite Hp in Hn, Hs. split.
  - by apply Forall_app in Hn as [? _].
  - by apply StronglySorted_app_1_l in Hs.
Qed.

Lemma wfq_ascending (q : list ResultObject) : wfq q -> ascending q.
Proof.
  intros [Hn Hs] i j a b Hij Ha Hb.
  pose proof (sortedq_lookup q i j a b Hs Hij Ha Hb) as Hle.
  apply list_elem_of_lookup_2 in Ha, Hb.
  eapply Forall_forall in Ha; [|exact Hn]. eapply Forall_forall in Hb; [|exact Hn].
  apply dbl_le_rank. done.
Qed.

Lemma filter_sublist_mono (P : ResultObject -> Prop) `{!forall r, Decision (P r)}
    (l k : list ResultObject) :
  l `sublist_of` k -> filter P l `sublist_of` filter P k.
Proof.
  induction 1 as [|x l k Hs IH|x l k Hs IH]; [done| |].
  - rewrite !filter_cons. destruct (decide (P x)); [by constructor|done].
  - rewrite filter_cons. destruct (decide (P x)); [by constructor|done].
Qed.

(** Without dedupe an accepted candidate goes behind the slots already at
    its distance. *)
Lemma offer_ties (q met : list ResultObject) (c : ResultObject) (d : double) :
  filter (fun r => distance r = d) q `sublist_of` met ->
  filter (fun r => distance r = d) (offer false q c) `sublist_of` met ++ [c].
Proof.
  intros Hq. unfold offer.
  destruct (dbl_lt _ _); [|by apply sublist_inserts_r].
  rewrite stable_sort_filter_tie.
  destruct (decide (q = [])) as [->|Hne]; [apply sublist_nil_l|].
  assert (pred (length q) < length q) as Hlt.
  { destruct q; [done|simpl; lia]. }
  rewrite insert_take_drop by done.
  replace (S (pred (length q))) with (length q) by lia.
  rewrite drop_all, filter_app. apply sublist_app.
  - etrans; [|exact Hq]. apply filter_sublist_mono, sublist_take.
  - apply sublist_filter.
Qed.

Section DuplicateRule.

Context `{Collaborators}.

Lemma value_is_duplicate_iff (r : ResultObject) (feature : vt_feature)
    (layer : string) (geom : GeomType) (props : list property) :
  value_is_duplicate r feature layer geom props = true <->
  layer_name r = layer
  /\ original_geometry_type r = geom
  /\ ¬ (has_id r = true /\ f_has_id feature = true /\ id_ r <> f_id feature)
  /\ properties_vector r = props.
Proof.
  unfold value_is_duplicate.
  destruct (String.eqb_spec (layer_name r) layer) as [Hl|Hl]; simpl;
    [|split; [done|tauto]].
  destruct (decide (original_geometry_type r = geom)) as [Hg|Hg].
  2:{ rewrite bool_decide_eq_false_2 by done. simpl. split; [done|tauto]. }
  rewrite (bool_decide_eq_true_2 _ Hg). simpl.
  destruct (has_id r), (f_has_id feature),
    (Z.eqb_spec (id_ r) (f_id feature)); simpl;
    rewrite ?bool_decide_eq_true; intuition congruence.
Qed.

Lemma dedupe_scan_first (feature : vt_feature) (layer : string) (geom : GeomType)
    (ll : point_double) (meters : double) (props : list property)
    (q1 q2 : list ResultObject) (r : ResultObject) :
  Forall (fun r' => value_is_duplicate r' feature layer geom props = false) q1 ->
  value_is_duplicate r feature layer geom props = true ->
  dedupe_scan feature layer geom ll meters props (q1 ++ r :: q2)
  = if dbl_le meters (distance r)
    then (true, false,
          q1 ++ insert_result r props layer ll meters geom
                              (f_has_id feature) (f_id feature) :: q2)
    else (false, true, q1 ++ r :: q2).
Proof.
  intros Hq1 Hr. induction Hq1 as [|x q1 Hx Hq1 IH]; simpl.
  - rewrite Hr. done.
  - rewrite Hx, IH. by destruct (dbl_le meters (distance r)).
Qed.

(** C3: the duplicate test holds exactly when layer, geometry type and
    property list agree and the ids do not both exist and differ.  With
    dedupe on, let [r] be the first slot of the queue that is a duplicate
    of the feature.  When the feature is not farther than [r], the slot
    is overwritten with the feature (the materialized properties of the
    slot stay) and the queue is sorted again: the result holds the same
    entries as the queue with that slot overwritten, it is in ascending
    order of distance (the distances of the queue being numbers), and
    entries at one distance are in the order they had.  When the feature
    is farther, the queue is left as it is. *)
Theorem duplicate_rule (data : QueryData) (layer : string) (extent z x y : Z)
    (qp : point_int64) (f : vt_feature) (c : ResultObject)
    (q1 q2 : list ResultObject) (r : ResultObject) :
  dedupe data = true ->
  candidate data layer extent z x y qp f = Some c ->
  Forall (fun r' => ¬ (layer_name r' = layer
                       /\ original_geometry_type r' = get_geometry_type f
                       /\ ¬ (has_id r' = true /\ f_has_id f = true
                             /\ id_ r' <> f_id f)
                       /\ properties_vector r' = f_properties f)) q1 ->
  layer_name r = layer
  /\ original_geometry_type r = get_geometry_type f
  /\ ¬ (has_id r = true /\ f_has_id f = true /\ id_ r <> f_id f)
  /\ properties_vector r = f_properties f ->
  (forall r' feature' layer' geom props,
      value_is_duplicate r' feature' layer' geom props = true <->
      layer_name r' = layer'
      /\ original_geometry_type r' = geom
      /\ ¬ (has_id r' = true /\ f_has_id feature' = true
            /\ id_ r' <> f_id feature')
      /\ properties_vector r' = props)
  /\ let q' := process_feature data layer extent z x y qp (q1 ++ r :: q2) f in
     let overwritten :=
       {| properties_vector := f_properties f;
          properties_vector_materialized := properties_vector_materialized r;
          layer_name := layer;
          coordinates := coordinates c;
          distance := distance c;
          original_geometry_type := get_geometry_type f;
          has_id := f_has_id f;
          id_ := f_id f |} in
     if dbl_le (distance c) (distance r)
     then q' ≡ₚ q1 ++ overwritten :: q2
          /\ (numq (q1 ++ r :: q2) -> ascending q')
          /\ (forall d, filter (fun s => distance s = d) q'
                        = filter (fun s => distance s = d)
                                 (q1 ++ overwritten :: q2))
     else q' = q1 ++ r :: q2.
Proof.
  intros Hd Hc Hq1 Hr. split; [apply value_is_duplicate_iff|].
  pose proof Hc as Hc'. apply candidate_Some in Hc' as (_ & _ & _ & ->).
  assert (Forall (fun r' => value_is_duplicate r' f layer (get_geometry_type f)
                              (get_properties_vector f) = false) q1) as Hq1'.
  { eapply Forall_impl; [exact Hq1|]. simpl. intros r' Hr'.
    apply not_true_is_false. by rewrite value_is_duplicate_iff. }
  assert (value_is_duplicate r f layer (get_geometry_type f)
                             (get_properties_vector f) = true) as Hr'.
  { by apply value_is_duplicate_iff. }
  unfold candidate in Hc. unfold process_feature. rewrite Hd.
  destruct (_ && _); [done|].
  destruct (dbl_lt _ dbl_zero); [done|].
  destruct (snap data extent z x y (closest_point f qp)) as [ll meters].
  destruct (dbl_gt meters (radius data)); [done|]. simpl.
  rewrite dedupe_scan_first by done.
  destruct (dbl_le meters (distance r)) eqn:Hle; [|done].
  unfold insert_result, get_properties_vector.
  split; [apply stable_sort_Permutation|].
  split; [|intros d; apply stable_sort_filter_tie].
  intros Hn. apply dbl_le_is_num in Hle as [Hm _].
  assert (numq (q1 ++ {| properties_vector := f_properties f;
                         properties_vector_materialized :=
                           properties_vector_materialized r;
                         layer_name := layer; coordinates := ll;
                         distance := meters;
                         original_geometry_type := get_geometry_type f;
                         has_id := f_has_id f; id_ := f_id f |} :: q2)) as Hn'.
  { unfold numq in *. rewrite Forall_app, Forall_cons in *.
    destruct Hn as (? & _ & ?). done. }
  apply wfq_ascending. split; [|by apply stable_sort_sortedq].
  unfold numq. by rewrite stable_sort_Permutation.
Qed.

End DuplicateRule.

(** ** Closed form of one insertion *)

Lemma overwrite_closed (q : list ResultObject) (i : nat) (r c : ResultObject) :
  wfq q -> q !! i = Some r -> dbl_le (distance c) (distance r) = true ->
  stable_sort CompareDistance (<[i := c]> q) = place c (take i q) ++ drop (S i) q.
Proof.
  intros [Hn Hs] Hr Hle. apply dbl_le_rank in Hle as (Hc & _ & Hle).
  pose proof (lookup_lt_Some _ _ _ Hr) as Hi.
  rewrite insert_take_drop by done.
  rewrite <- (take_drop_middle q i r Hr) in Hn, Hs.
  by apply (sort_overwrite _ _ r).
Qed.

Lemma offer_nil (b : bool) (c : ResultObject) : offer b [] c = [].
Proof.
  destruct (offer_cases b [] c) as [->|(i & r & Hr & _)]; done.
Qed.

Lemma offer_dup_closed (q : list ResultObject) (c r : ResultObject) (i : nat) :
  wfq q -> find_dup c q = Some i -> q !! i = Some r ->
  offer true q c
  = if dbl_le (distance c) (distance r)
    then place c (take i q) ++ drop (S i) q else q.
Proof.
  intros Hq Hf Hr. unfold offer. rewrite Hf, Hr. simpl.
  destruct (dbl_le (distance c) (distance r)) eqn:Hle; [|done].
  by apply (overwrite_closed q i r).
Qed.

Lemma offer_back_closed (b : bool) (q : list ResultObject) (c r : ResultObject) :
  wfq q -> (if b then find_dup c q else None) = None -> last q = Some r ->
  offer b q c
  = if dbl_lt (distance c) (distance r)
    then place c (take (pred (length q)) q) else q.
Proof.
  intros Hq Hf Hr. unfold offer. rewrite Hf, Hr. simpl.
  destruct (dbl_lt (distance c) (distance r)) eqn:Hlt; [|done].
  rewrite last_lookup in Hr.
  assert (dbl_le (distance c) (distance r) = true) as Hle.
  { apply dbl_lt_rank in Hlt as (? & ? & ?). apply dbl_le_rank.
    repeat split; [done..|lia]. }
  rewrite (overwrite_closed q _ r) by done.
  pose proof (lookup_lt_Some _ _ _ Hr) as Hi.
  replace (S (pred (length q))) with (length q) by lia.
  by rewrite drop_all, app_nil_r.
Qed.

Lemma find_dup_take (c : ResultObject) (q : list ResultObject) (k : nat) :
  find_dup c (take k q)
  = match find_dup c q with
    | Some i => if decide (i < k) then Some i else None
    | None => None
    end.
Proof.
  revert k. induction q as [|x q IH]; intros k.
  - by rewrite take_nil.
  - destruct k as [|k]; simpl.
    + destruct (is_dup x c); [done|]. by destruct (find_dup c q).
    + destruct (is_dup x c); [done|]. rewrite IH.
      destruct (find_dup c q) as [i|]; simpl; [|done].
      destruct (decide (i < k)), (decide (S i < S k)); simpl; done || lia.
Qed.

Lemma place_take (c bk : ResultObject) (l : list ResultObject) (k : nat) :
  numq l -> is_num (distance c) -> l !! k = Some bk ->
  (forall y, y ∈ take k l -> (rk y <= rk bk)%Z) ->
  take (S k) (place c l)
  = if CompareDistance c bk then place c (take k l) else take (S k) l.
Proof.
  intros Hn Hc. revert k. induction l as [|y l IH]; intros k Hbk Hle; [done|].
  apply numq_cons in Hn as [Hy Hn].
  destruct k as [|k]; simplify_eq/=.
  - by destruct (CompareDistance c bk).
  - assert (is_num (distance bk)) as Hb.
    { apply list_elem_of_lookup_2 in Hbk. by eapply Forall_forall in Hn. }
    destruct (CompareDistance c y) eqn:Hcy.
    + assert (CompareDistance c bk = true) as ->; [|done].
      rewrite CompareDistance_rk in Hcy |- * by done.
      apply Z.ltb_lt in Hcy. apply Z.ltb_lt.
      specialize (Hle y (list_elem_of_here _ _)). lia.
    + simpl. rewrite IH by (try done; intros z Hz; apply Hle; by right).
      by destruct (CompareDistance c bk).
Qed.

Lemma sortedq_take_le (q : list ResultObject) (k : nat) (bk y : ResultObject) :
  sortedq q -> q !! k = Some bk -> y ∈ take k q -> (rk y <= rk bk)%Z.
Proof.
  intros Hs Hbk Hy. apply list_elem_of_lookup in Hy as [j Hj].
  apply lookup_take_Some in Hj as [Hj Hjk].
  eapply (sortedq_lookup q j k); [done|lia|done..].
Qed.

(** The first [S k] slots after an overwrite behind them. *)
Lemma take_overwrite_behind (q : list ResultObject) (c r bk : ResultObject)
    (i k : nat) :
  wfq q -> k < i -> q !! i = Some r -> q !! k = Some bk ->
  is_num (distance c) ->
  take (S k) (place c (take i q) ++ drop (S i) q)
  = if CompareDistance c bk then place c (take k q) else take (S k) q.
Proof.
  intros [Hn Hs] Hki Hr Hbk Hc.
  pose proof (lookup_lt_Some _ _ _ Hr) as Hi.
  rewrite take_app_le by (rewrite place_length, length_take; lia).
  rewrite (place_take c bk _ k); try done.
  - rewrite take_take. replace (k `min` i) with k by lia.
    rewrite take_take. replace (S k `min` i) with (S k) by lia. done.
  - by apply Forall_take.
  - rewrite lookup_take_lt by lia. done.
  - intros y Hy. rewrite take_take in Hy. replace (k `min` i) with k in Hy by lia.
    by eapply sortedq_take_le.
Qed.

(** Running with a smaller limit is running on a prefix of the queue. *)
Lemma offer_take (b : bool) (q : list ResultObject) (c : ResultObject) (k : nat) :
  wfq q -> offer b (take k q) c = take k (offer b q c).
Proof.
  intros Hq.
  destruct (decide (length q <= k)) as [Hk|Hk].
  { rewrite !take_ge; [done|by rewrite offer_length|done]. }
  destruct k as [|k]; [by rewrite !take_0, offer_nil|].
  assert (wfq (take (S k) q)) as Hqk.
  { destruct Hq as [Hn Hs]. split; [by apply Forall_take|].
    rewrite <- (take_drop (S k) q) in Hs. by apply StronglySorted_app_1_l in Hs. }
  destruct (q !! k) as [bk|] eqn:Hbk; [|apply lookup_ge_None in Hbk; lia].
  assert (last (take (S k) q) = Some bk) as Hlast.
  { rewrite last_lookup, length_take. replace (pred (S k `min` length q)) with k by lia.
    rewrite lookup_take_lt by lia. done. }
  assert (length (take (S k) q) = S k) as Hlen by (rewrite length_take; lia).
  destruct (last q) as [bq|] eqn:Hbq; [|apply last_None in Hbq; subst; simpl in *; lia].
  assert (q !! pred (length q) = Some bq) as Hbq' by by rewrite <- last_lookup.
  assert (is_num (distance bk) /\ is_num (distance bq)) as [Hnk Hnq].
  { destruct Hq as [Hn _]. split.
    - apply list_elem_of_lookup_2 in Hbk. by eapply Forall_forall in Hn.
    - apply list_elem_of_lookup_2 in Hbq'. by eapply Forall_forall in Hn. }
  assert (rk bk <= rk bq)%Z as Hkq.
  { destruct Hq as [_ Hs]. eapply (sortedq_lookup q k (pred (length q))); [done|lia|done..]. }
  (* the candidate is not a number: nothing moves *)
  destruct (decide (is_num (distance c))) as [Hc|Hc].
  2:{ assert (forall q0, offer b q0 c = q0) as Hid.
      { intros q0. destruct (offer_cases b q0 c) as [->|(i & r & _ & Hle & _)]; [done|].
        apply dbl_le_is_num in Hle as [? _]. done. }
      by rewrite !Hid. }
  destruct (if b then find_dup c q else None) as [i|] eqn:Hf.
  - destruct b; [|done].
    pose proof Hf as Hf'. apply find_dup_Some in Hf' as (r & Hr & _).
    pose proof (lookup_lt_Some _ _ _ Hr) as Hi.
    assert (is_num (distance r)) as Hnr.
    { destruct Hq as [Hn _]. apply list_elem_of_lookup_2 in Hr.
      by eapply Forall_forall in Hn. }
    rewrite (offer_dup_closed q c r i) by done.
    destruct (decide (i < S k)) as [Hik|Hik].
    + (* the duplicate is inside the prefix *)
      rewrite (offer_dup_closed (take (S k) q) c r i); try done.
      2:{ rewrite find_dup_take, Hf. by rewrite decide_True. }
      2:{ by rewrite lookup_take_lt. }
      destruct (dbl_le (distance c) (distance r)); [|done].
      rewrite take_take. replace (i `min` S k) with i by lia.
      rewrite take_app, place_length, length_take.
      replace (i `min` length q) with i by lia.
      rewrite (take_ge (place c (take i q))) by (rewrite place_length, length_take; lia).
      f_equal. rewrite take_drop_commute. f_equal. f_equal. lia.
    + (* the duplicate is behind the prefix *)
      rewrite (offer_back_closed true (take (S k) q) c bk); try done.
      2:{ rewrite find_dup_take, Hf. by rewrite decide_False. }
      rewrite Hlen. simpl.
      rewrite take_take. replace (k `min` S k) with k by lia.
      assert (rk bk <= rk r)%Z as Hkr.
      { destruct Hq as [_ Hs]. eapply (sortedq_lookup q k i); [done|lia|done..]. }
      destruct (dbl_le (distance c) (distance r)) eqn:Hle.
      * rewrite (take_overwrite_behind q c r bk i k) by (done || lia). done.
      * assert (dbl_lt (distance c) (distance bk) = false) as ->; [|done].
        rewrite dbl_le_num in Hle by done. rewrite dbl_lt_num by done.
        apply Z.leb_gt in Hle. apply Z.ltb_ge. unfold rk in *. lia.
  - (* no duplicate in the long queue, so none in the prefix *)
    rewrite (offer_back_closed b q c bq) by done.
    rewrite (offer_back_closed b (take (S k) q) c bk); try done.
    2:{ destruct b; [|done]. rewrite find_dup_take, Hf. done. }
    rewrite Hlen. simpl. rewrite take_take. replace (k `min` S k) with k by lia.
    destruct (dbl_lt (distance c) (distance bq)) eqn:Hlt.
    + pose proof (take_overwrite_behind q c bq bk (pred (length q)) k Hq) as Ht.
      replace (S (pred (length q))) with (length q) in Ht by lia.
      rewrite drop_all, app_nil_r in Ht. rewrite Ht by (done || lia). done.
    + assert (dbl_lt (distance c) (distance bk) = false) as ->; [|done].
      rewrite dbl_lt_num in Hlt by done. rewrite dbl_lt_num by done.
      apply Z.ltb_ge in Hlt. apply Z.ltb_ge. unfold rk in *. lia.
Qed.

Lemma foldl_offer_take (b : bool) (cs q : list ResultObject) (k : nat) :
  wfq q -> foldl (offer b) (take k q) cs = take k (foldl (offer b) q cs).
Proof.
  revert q. induction cs as [|c cs IH]; intros q Hq; simpl; [done|].
  rewrite offer_take by done. apply IH. by apply offer_wfq.
Qed.

(** ** Where an emitted slot comes from *)

Section Origin.

Context `{Collaborators}.

Lemma encounter_origin (data : QueryData) (decoded : list decoded_tile)
    (c : ResultObject) :
  c ∈ encounter data decoded ->
  exists tile z x y layer f,
    (tile, z, x, y) ∈ decoded /\ layer ∈ tile /\ f ∈ l_features layer
    /\ (layers data = [] \/ l_name layer ∈ layers data)
    /\ candidate data (l_name layer) (l_extent layer) z x y
         (create_query_point (longitude data) (latitude data)
                             (l_extent layer) z x y) f = Some c.
Proof.
  unfold encounter. intros Hc.
  apply list_elem_of_bind in Hc as ([[[tile z] x] y] & Hc & Ht).
  simpl in Hc. apply list_elem_of_bind in Hc as (layer & Hc & Hl).
  unfold layer_candidates in Hc.
  destruct (negb (bool_decide (layers data = []))
            && negb (bool_decide (l_name layer ∈ layers data))) eqn:Hsel;
    [by apply elem_of_nil in Hc|].
  apply list_elem_of_omap in Hc as (f & Hf & Hc).
  exists tile, z, x, y, layer, f. repeat (split; [done|]). split; [|done].
  apply andb_false_iff in Hsel as [Hsel|Hsel]; apply negb_false_iff in Hsel;
    apply bool_decide_eq_true in Hsel; auto.
Qed.

Lemma traverse_origin (data : QueryData) (decoded : list decoded_tile)
    (r : ResultObject) :
  r ∈ emitted (traverse data decoded) -> r ∈ encounter data decoded.
Proof.
  intros Hr. apply emitted_elem_of in Hr as [Hlive Hr].
  assert (Forall (fun r => r = ResultObject_default \/ r ∈ encounter data decoded)
                 (traverse data decoded)) as Hall.
  { rewrite traverse_offer. apply foldl_offer_Forall.
    - apply Forall_forall. intros x Hx. apply elem_of_replicate in Hx as [-> _].
      by left.
    - apply Forall_forall. by right. }
  rewrite Forall_forall in Hall. destruct (Hall r Hr) as [->|Hin]; [|done].
  by vm_compute in Hlive.
Qed.

End Origin.

Lemma find_dup_replicate (c r : ResultObject) (n : nat) :
  find_dup c (replicate (S n) r) = if is_dup r c then Some 0 else None.
Proof.
  simpl. destruct (is_dup r c) eqn:Hd; [done|].
  assert (find_dup c (replicate n r) = None) as ->; [|done].
  induction n as [|n IH]; simpl; [done|]. by rewrite Hd, IH.
Qed.

Lemma offer_initial (b : bool) (n : nat) (c : ResultObject) :
  dbl_lt (distance c) DBL_MAX = true ->
  offer b (replicate (S n) ResultObject_default) c
  = c :: replicate n ResultObject_default.
Proof.
  intros Hlt. set (q := replicate (S n) ResultObject_default).
  assert (last q = Some ResultObject_default) as Hlast.
  { subst q. rewrite replicate_S_end. apply last_snoc. }
  assert (place c (replicate n ResultObject_default)
          = c :: replicate n ResultObject_default) as Hplace.
  { apply place_head. intros y Hy. destruct n; simplify_eq/=. done. }
  destruct (if b then find_dup c q else None) as [i|] eqn:Hf.
  - destruct b; [|done].
    assert (i = 0) as ->.
    { subst q. rewrite find_dup_replicate in Hf.
      destruct (is_dup ResultObject_default c); by simplify_eq. }
    rewrite (offer_dup_closed q c ResultObject_default 0 (initial_wfq (S n)) Hf eq_refl).
    change (distance ResultObject_default) with DBL_MAX.
    assert (dbl_le (distance c) DBL_MAX = true) as ->.
    { apply dbl_lt_rank in Hlt as (? & ? & ?). apply dbl_le_rank.
      repeat split; [done..|lia]. }
    done.
  - rewrite (offer_back_closed b q c ResultObject_default (initial_wfq (S n)) Hf Hlast).
    change (distance ResultObject_default) with DBL_MAX. rewrite Hlt.
    subst q. rewrite length_replicate. simpl pred.
    rewrite replicate_S_end, take_app_length'; [done|]. by rewrite length_replicate.
Qed.

Section GeometryClaims.

Context `{Collaborators}.

Lemma get_geometry_type_unknown (f : vt_feature) :
  get_geometry_type f = unknown <-> f_geometry_type f = vt_UNKNOWN.
Proof. unfold get_geometry_type. by destruct (f_geometry_type f). Qed.

Lemma get_geometry_type_cases (f : vt_feature) :
  get_geometry_type f ∈ [point; linestring; polygon; unknown].
Proof.
  unfold get_geometry_type. destruct (f_geometry_type f); by repeat constructor.
Qed.





(** C7: every emitted feature was made from a feature of the tiles for
    which the kernel did not report a negative distance.  When the
    kernel distance is above 0 its coordinates are the snap point
    converted by [convert_vt_to_ll] and its distance is
    [distance_in_meters] from the request's point to them; in the other
    case (the kernel distance is exactly 0 when it is a number) its
    coordinates are the request's (lon, lat) and its distance is 0,
    with no conversion.  The loop body stores just that: offered to the
    empty result set, a feature that passes the filters is written into
    the first slot with those coordinates and that distance. *)
Theorem direct_hit_short_circuit (data : QueryData) (fc : FeatureCollection) :
  Worker data = Some fc ->
  (exists decoded,
     decode_tiles data = Some decoded
     /\ forall o, Some o ∈ features fc ->
          exists tile z x y layer f,
            (tile, z, x, y) ∈ decoded /\ layer ∈ tile /\ f ∈ l_features layer
            /\ let cp_info :=
                 closest_point f
                   (create_query_point (longitude data) (latitude data)
                                       (l_extent layer) z x y) in
               dbl_lt (cp_distance cp_info) dbl_zero = false
               /\ (is_num (cp_distance cp_info) ->
                   dbl_gt (cp_distance cp_info) dbl_zero = false ->
                   cp_distance cp_info = dbl_zero)
               /\ if dbl_gt (cp_distance cp_info) dbl_zero
                  then let ll := convert_vt_to_ll (l_extent layer) z x y cp_info in
                       fo_coordinates o = [ll.1; ll.2]
                       /\ fo_distance o
                          = distance_in_meters (longitude data, latitude data) ll
                  else fo_coordinates o = [longitude data; latitude data]
                       /\ fo_distance o = dbl_zero)
  /\ (forall layer extent z x y qp f n,
        geometry_filter_type data = all
        \/ geometry_filter_type data = get_geometry_type f ->
        let cp_info := closest_point f qp in
        let stored :=
          process_feature data layer extent z x y qp
                          (replicate (S n) ResultObject_default) f in
        dbl_lt (cp_distance cp_info) dbl_zero = false ->
        if dbl_gt (cp_distance cp_info) dbl_zero
        then let ll := convert_vt_to_ll extent z x y cp_info in
             let meters := distance_in_meters (longitude data, latitude data) ll in
             dbl_gt meters (radius data) = false ->
             dbl_lt meters DBL_MAX = true ->
             stored = entry_of layer ll meters f :: replicate n ResultObject_default
        else dbl_gt dbl_zero (radius data) = false ->
             stored = entry_of layer (longitude data, latitude data) dbl_zero f
                      :: replicate n ResultObject_default).
Proof.
  intros Hw. apply Worker_features in Hw as (decoded & Hd & Hf). split.
  - exists decoded. split; [done|]. intros o Ho. rewrite Hf in Ho.
    apply list_elem_of_fmap in Ho as (r & [= ->] & Hr).
    apply traverse_origin, encounter_origin in Hr
      as (tile & z & x & y & layer & f & Ht & Hl & Hin & _ & Hc).
    exists tile, z, x, y, layer, f. repeat (split; [done|]).
    apply candidate_Some in Hc as (_ & Hcp & _ & ->).
    rewrite feature_of_distance. unfold snap. simpl.
    set (cp_info := closest_point f _) in *.
    split; [done|]. split.
    + unfold dbl_gt.
      destruct (cp_distance cp_info) as [|d]; [done|].
      simpl in *. intros _ Hgt. apply Z.ltb_ge in Hcp, Hgt.
      unfold dbl_zero. f_equal. lia.
    + unfold dbl_gt. destruct (cp_distance cp_info) as [|d]; simpl; [done|].
      by destruct (0 <? d)%Z.
  - intros layer extent z x y qp f n Hfilter cp_info stored Hcp.
    subst stored cp_info.
    rewrite process_feature_offer by by apply Forall_replicate.
    unfold candidate, snap.
    assert (negb (bool_decide (geometry_filter_type data = all))
            && negb (bool_decide (geometry_filter_type data = get_geometry_type f))
            = false) as ->.
    { destruct Hfilter as [Hall|Hty].
      - by rewrite (bool_decide_eq_true_2 _ Hall).
      - rewrite (bool_decide_eq_true_2 _ Hty). apply andb_false_r. }
    rewrite Hcp.
    destruct (dbl_gt (cp_distance (closest_point f qp)) dbl_zero).
    + simpl. intros Hr Hlt. rewrite Hr. simpl. by apply offer_initial.
    + intros Hr. rewrite Hr. simpl. by apply offer_initial.
Qed.

End GeometryClaims.

Section LimitClaim.

Context `{Collaborators}.

Lemma encounter_with_limit (data : QueryData) (n : nat)
    (decoded : list decoded_tile) :
  encounter (with_limit data n) decoded = encounter data decoded.
Proof. reflexivity. Qed.

Lemma traverse_with_limit (data : QueryData) (k k' : nat)
    (decoded : list decoded_tile) :
  k <= k' ->
  traverse (with_limit data k) decoded
  = take k (traverse (with_limit data k') decoded).
Proof.
  intros Hk. rewrite !traverse_offer, !encounter_with_limit. simpl.
  rewrite <- foldl_offer_take by apply initial_wfq.
  rewrite take_replicate. by replace (k `min` k') with k by lia.
Qed.

(** C9: with a larger limit and everything else unchanged, the features
    of the smaller limit are a prefix of the features of the larger. *)
Theorem limit_monotone (data : QueryData) (k k' : nat)
    (fc fc' : FeatureCollection) :
  k <= k' ->
  Worker (with_limit data k) = Some fc ->
  Worker (with_limit data k') = Some fc' ->
  features fc `prefix_of` features fc'.
Proof.
  intros Hk Hw Hw'.
  apply Worker_features in Hw as (decoded & Hd & ->).
  apply Worker_features in Hw' as (decoded' & Hd' & ->).
  change (decode_tiles (with_limit data k')) with (decode_tiles (with_limit data k)) in Hd'.
  rewrite Hd in Hd'. injection Hd' as <-.
  rewrite (traverse_with_limit data k k') by done.
  set (q := traverse (with_limit data k') decoded).
  rewrite <- (take_drop k q) at 2.
  unfold emitted. rewrite filter_app, fmap_app. by eexists.
Qed.

End LimitClaim.

(** ** Dedupe when the duplicate test is transitive *)

Lemma is_dup_iff (r c : ResultObject) : is_dup r c = true <-> duplicates r c.
Proof.
  unfold is_dup, duplicates.
  rewrite !andb_true_iff, !bool_decide_eq_true, String.eqb_eq.
  destruct (has_id r), (has_id c), (Z.eqb_spec (id_ r) (id_ c)); simpl;
    intuition congruence.
Qed.

Lemma is_dup_cls (b : bool) (r c : ResultObject) :
  has_id r = b -> has_id c = b -> is_dup r c = true <-> cls r = cls c.
Proof.
  intros Hr Hc. rewrite is_dup_iff. unfold duplicates, cls. rewrite Hr, Hc.
  destruct b; split.
  - intros (Hl & Hg & Hi & Hp). rewrite Hl, Hg, Hp. f_equal. f_equal.
    destruct (decide (id_ r = id_ c)); [done|]. exfalso. by apply Hi.
  - intros [= Hl Hg Hp Hi]. repeat split; [done..| |done]. intros (_ & _ & Hn). done.
  - intros (Hl & Hg & Hi & Hp). by rewrite Hl, Hg, Hp.
  - intros [= Hl Hg Hp]. repeat split; [done..| |done]. intros (? & _). done.
Qed.

Lemma live_default : ¬ live ResultObject_default.
Proof. intros Hl. by apply Hl. Qed.

Lemma slot_ok_live (b : bool) (r : ResultObject) :
  slot_ok b r -> live r ->
  good_cand b r /\ dbl_lt (distance r) DBL_MAX = true.
Proof. intros [->|Hr] Hl; [by apply live_default in Hl|done]. Qed.

Lemma slot_ok_not_live (b : bool) (r : ResultObject) :
  slot_ok b r -> ¬ live r -> r = ResultObject_default.
Proof. intros [->|[(_ & Hl & _) _]] Hn; done. Qed.

Lemma slot_ok_bounded (b : bool) (r : ResultObject) :
  slot_ok b r -> is_num (distance r) /\ (rk r <= DBL_MAX_rank)%Z.
Proof.
  intros [->|[_ Hlt]]; [done|].
  apply dbl_lt_rank in Hlt as (Hn & _ & Hlt). split; [done|]. unfold rk. simpl in Hlt. lia.
Qed.

Lemma is_dup_slot (b : bool) (r c : ResultObject) :
  slot_ok b r -> good_cand b c ->
  is_dup r c = true <-> live r /\ cls r = cls c.
Proof.
  intros Hr (Hc & Hlc & _). destruct (decide (live r)) as [Hl|Hl].
  - destruct (slot_ok_live b r Hr Hl) as [(Hb & _ & _) _].
    rewrite (is_dup_cls b) by done. tauto.
  - rewrite (slot_ok_not_live b r Hr Hl).
    split; [|intros [Hd _]; by apply live_default in Hd].
    rewrite is_dup_iff. intros (_ & Hg & _). exfalso. apply Hlc. by rewrite <- Hg.
Qed.

Lemma nodup_cls_unique (q : list ResultObject) (i j : nat) (r r' : ResultObject) :
  NoDup (cls <$> filter live q) ->
  q !! i = Some r -> q !! j = Some r' -> live r -> live r' -> cls r = cls r' ->
  i = j.
Proof.
  revert i j. induction q as [|x q IH]; intros i j Hnd Hi Hj Hr Hr' Hc; [done|].
  rewrite filter_cons in Hnd.
  assert (forall y, y ∈ q -> live y -> live x -> cls x = cls y -> False) as Hx.
  { intros y Hy Hly Hlx Hxy. rewrite decide_True in Hnd by done.
    rewrite fmap_cons in Hnd. apply NoDup_cons in Hnd as [Hnd _]. apply Hnd.
    rewrite Hxy. apply list_elem_of_fmap_2. by apply list_elem_of_filter. }
  assert (NoDup (cls <$> filter live q)) as Hnd'.
  { destruct (decide (live x)); [|done].
    rewrite fmap_cons in Hnd. by apply NoDup_cons in Hnd as [_ Hnd]. }
  destruct i as [|i], j as [|j]; simpl in Hi, Hj.
  - done.
  - injection Hi as ->. exfalso. apply (Hx r'); [|done..].
    by eapply list_elem_of_lookup_2.
  - injection Hj as ->. exfalso. apply (Hx r); [|done..].
    by eapply list_elem_of_lookup_2.
  - f_equal. by eapply IH.
Qed.

Lemma last_is_Some_ne (q : list ResultObject) :
  q <> [] -> exists r, last q = Some r /\ q !! pred (length q) = Some r.
Proof.
  intros Hq. destruct (last q) as [r|] eqn:Hl; [|by apply last_None in Hl].
  exists r. split; [done|]. by rewrite <- last_lookup.
Qed.

(** The four ways one insertion with dedupe can go. *)
Lemma offer_branches (q : list ResultObject) (c : ResultObject) :
  q <> [] ->
  (exists i r, find_dup c q = Some i /\ q !! i = Some r /\ is_dup r c = true
               /\ dbl_le (distance c) (distance r) = true
               /\ offer true q c = stable_sort CompareDistance (<[i := c]> q))
  \/ (exists i r, find_dup c q = Some i /\ q !! i = Some r /\ is_dup r c = true
                  /\ dbl_le (distance c) (distance r) = false
                  /\ offer true q c = q)
  \/ (exists r, find_dup c q = None /\ last q = Some r
                /\ dbl_lt (distance c) (distance r) = true
                /\ offer true q c
                   = stable_sort CompareDistance (<[pred (length q) := c]> q))
  \/ (exists r, find_dup c q = None /\ last q = Some r
                /\ dbl_lt (distance c) (distance r) = false
                /\ offer true q c = q).
Proof.
  intros Hq. unfold offer. destruct (find_dup c q) as [i|] eqn:Hf.
  - pose proof Hf as Hf'. apply find_dup_Some in Hf' as (r & Hr & Hd & _).
    rewrite Hr. simpl. destruct (dbl_le (distance c) (distance r)) eqn:Hle.
    + left. by exists i, r.
    + right. left. by exists i, r.
  - destruct (last_is_Some_ne q Hq) as (r & Hl & _). rewrite Hl. simpl.
    destruct (dbl_lt (distance c) (distance r)) eqn:Hlt.
    + right. right. left. by exists r.
    + right. right. right. by exists r.
Qed.

Lemma dbl_le_lt_trans (a b c : double) :
  dbl_le a b = true -> dbl_lt b c = true -> dbl_lt a c = true.
Proof.
  rewrite !dbl_le_rank, !dbl_lt_rank. intros (? & ? & ?) (? & ? & ?).
  repeat split; [done..|lia].
Qed.

Lemma filter_overwrite_same (P : ResultObject -> Prop) `{!forall r, Decision (P r)}
    (q : list ResultObject) (i : nat) (r c : ResultObject) :
  q !! i = Some r -> P r -> P c -> cls c = cls r ->
  cls <$> filter P (<[i := c]> q) = cls <$> filter P q.
Proof.
  intros Hr Hlr Hlc Hc. pose proof (lookup_lt_Some _ _ _ Hr) as Hi.
  rewrite insert_take_drop by done.
  rewrite <- (take_drop_middle q i r Hr) at 3.
  rewrite !filter_app, !filter_cons_True, !fmap_app, !fmap_cons by done.
  by rewrite Hc.
Qed.

Lemma offer_queue_inv (b : bool) (q : list ResultObject) (c : ResultObject) :
  queue_inv b q -> good_cand b c -> queue_inv b (offer true q c).
Proof.
  intros (Hw & Hok & Hnd) Hc.
  destruct (decide (q = [])) as [->|Hq]; [by rewrite offer_nil|].
  split; [by apply offer_wfq|].
  destruct (offer_branches q c Hq)
    as [(i & r & Hf & Hr & Hd & Hle & ->)|[(i & r & _ & _ & _ & _ & ->)
       |[(r & Hf & Hl & Hlt & ->)|(r & _ & _ & _ & ->)]]]; [|done| |done].
  - (* a duplicate is overwritten *)
    assert (r ∈ q) as Hin by by eapply list_elem_of_lookup_2.
    assert (slot_ok b r) as Hrok by by eapply Forall_forall in Hok.
    apply (is_dup_slot b r c Hrok Hc) in Hd as [Hlr Hcls].
    destruct (slot_ok_live b r Hrok Hlr) as [_ Hrmax].
    split.
    + rewrite stable_sort_Permutation. apply Forall_insert; [done|].
      right. split; [done|]. by eapply dbl_le_lt_trans.
    + rewrite stable_sort_Permutation.
      rewrite (filter_overwrite_same live q i r c); try done. by destruct Hc as (_ & ? & _).
  - (* the back slot is overwritten *)
    rewrite last_lookup in Hl.
    assert (r ∈ q) as Hin by by eapply list_elem_of_lookup_2.
    assert (slot_ok b r) as Hrok by by eapply Forall_forall in Hok.
    destruct (slot_ok_bounded b r Hrok) as [Hnr Hrmax].
    pose proof (lookup_lt_Some _ _ _ Hl) as Hi.
    split.
    + rewrite stable_sort_Permutation. apply Forall_insert; [done|].
      right. split; [done|].
      apply dbl_lt_rank in Hlt as (? & ? & ?). apply dbl_lt_rank.
      repeat split; [done..|]. unfold rk in Hrmax. simpl. lia.
    + rewrite stable_sort_Permutation, insert_take_drop by done.
      replace (S (pred (length q))) with (length q) by lia.
      rewrite drop_all, filter_app, fmap_app.
      rewrite <- (take_drop_middle q _ r Hl) in Hnd.
      rewrite filter_app, fmap_app in Hnd. apply NoDup_app in Hnd as (Hnd1 & _ & _).
      apply NoDup_app. split; [done|]. split.
      * intros k Hk1 Hk2.
        rewrite filter_cons_True in Hk2 by by destruct Hc as (_ & ? & _).
        apply list_elem_of_fmap in Hk1 as (y & -> & Hy).
        apply list_elem_of_fmap in Hk2 as (y' & Hyy & Hy').
        apply list_elem_of_singleton in Hy'. subst y'.
        apply list_elem_of_filter in Hy as [Hly Hy].
        assert (y ∈ q) as Hyq.
        { by apply (subseteq_take (pred (length q)) q). }
        apply find_dup_None in Hf. eapply Forall_forall in Hf; [|exact Hyq].
        assert (is_dup y c = true); [|congruence].
        apply (is_dup_slot b); [by eapply Forall_forall in Hok|done|done].
      * rewrite filter_cons. destruct (decide (live c)); simpl;
          [apply NoDup_singleton|apply NoDup_nil_2].
Qed.

Lemma initial_queue_inv (b : bool) (n : nat) :
  queue_inv b (replicate n ResultObject_default).
Proof.
  split; [apply initial_wfq|]. split.
  - apply Forall_replicate. by left.
  - assert (filter live (replicate n ResultObject_default) = []) as ->;
      [|apply NoDup_nil_2].
    induction n as [|n IH]; [done|]. simpl.
    rewrite filter_cons_False; [done|]. apply live_default.
Qed.

(** ** Ties with dedupe

    With dedupe an accepted candidate also goes behind the slots already
    at its distance, unless it overwrites a duplicate at that very
    distance. *)

Lemma sorted_behind (q : list ResultObject) (i : nat) (r y : ResultObject) :
  sortedq q -> q !! i = Some r -> y ∈ drop (S i) q -> (rk r <= rk y)%Z.
Proof.
  intros Hs Hr Hy. apply list_elem_of_lookup in Hy as [j Hj].
  rewrite lookup_drop in Hj. eapply (sortedq_lookup q i (S i + j)); [done|lia|done..].
Qed.

Lemma filter_tie_none (d : double) (l : list ResultObject) :
  Forall (fun y => distance y <> d) l -> filter (fun r => distance r = d) l = [].
Proof.
  induction 1 as [|y l Hy Hl IH]; [done|]. by rewrite filter_cons_False.
Qed.

Lemma offer_ties_dedupe (b : bool) (q met : list ResultObject) (c : ResultObject)
    (d : double) :
  wfq q ->
  Forall (fun r => r = ResultObject_default \/ r ∈ met) q ->
  d <> DBL_MAX ->
  (b = true -> forall r, r ∈ met -> duplicates r c -> distance r <> distance c) ->
  filter (fun r => distance r = d) q `sublist_of` met ->
  filter (fun r => distance r = d) (offer b q c) `sublist_of` met ++ [c].
Proof.
  intros [Hn Hs] Hall Hd Hnt Hsub.
  destruct b; [|by apply offer_ties].
  destruct (find_dup c q) as [i|] eqn:Hf.
  2:{ assert (offer true q c = offer false q c) as ->
        by (unfold offer; by rewrite Hf).
      by apply offer_ties. }
  pose proof Hf as Hf'. apply find_dup_Some in Hf' as (r & Hr & Hdup & _).
  unfold offer. rewrite Hf, Hr. simpl.
  destruct (dbl_le (distance c) (distance r)) eqn:Hle; [|by apply sublist_inserts_r].
  rewrite stable_sort_filter_tie.
  pose proof (lookup_lt_Some _ _ _ Hr) as Hi.
  rewrite insert_take_drop by done.
  rewrite <- (take_drop_middle q i r Hr) in Hsub.
  rewrite !filter_app, !filter_cons in *.
  destruct (decide (distance c = d)) as [Hcd|Hcd].
  - assert (distance r <> d) as Hrd.
    { rewrite <- Hcd. eapply Forall_forall in Hall; [|by eapply list_elem_of_lookup_2].
      destruct Hall as [->|Hin].
      - simpl. congruence.
      - apply (Hnt eq_refl r Hin). by apply is_dup_iff. }
    rewrite decide_False in Hsub by done.
    assert (filter (fun r0 => distance r0 = d) (drop (S i) q) = []) as Hnone.
    { apply filter_tie_none, Forall_forall. intros y Hy Hyd.
      pose proof (sorted_behind q i r y Hs Hr Hy) as Hry.
      apply dbl_le_rank in Hle as (Hcn & Hrn & Hcr).
      assert (is_num (distance y)) as Hyn.
      { eapply Forall_forall in Hn; [exact Hn|]. by eapply subseteq_drop. }
      apply Hrd. rewrite <- Hyd. unfold rk in *.
      rewrite <- Hyd in Hcd.
      destruct (distance c), (distance r), (distance y); simplify_eq/=.
      f_equal. lia. }
    rewrite Hnone in *. rewrite app_nil_r in Hsub.
    by apply sublist_app.
  - apply sublist_inserts_r. etrans; [|exact Hsub].
    apply sublist_app; [done|].
    destruct (decide (distance r = d)); [by apply sublist_cons|done].
Qed.

Lemma foldl_offer_ties (b : bool) (cs q met : list ResultObject) (d : double) :
  wfq q ->
  Forall (fun r => r = ResultObject_default \/ r ∈ met) q ->
  d <> DBL_MAX ->
  (b = true -> no_tied_duplicates (met ++ cs)) ->
  filter (fun r => distance r = d) q `sublist_of` met ->
  filter (fun r => distance r = d) (foldl (offer b) q cs) `sublist_of` met ++ cs.
Proof.
  revert q met. induction cs as [|c cs IH]; intros q met Hq Hall Hd Hnt Hsub; simpl.
  - by rewrite app_nil_r.
  - rewrite (cons_middle c), (assoc_L (++)). apply IH.
    + by apply offer_wfq.
    + apply offer_Forall.
      * eapply Forall_impl; [exact Hall|]. simpl. intros r [->|Hr]; [by left|].
        right. apply elem_of_app. by left.
      * right. apply elem_of_app. right. apply list_elem_of_here.
    + done.
    + intros Hb. rewrite <- (assoc_L (++)). simpl. by apply Hnt.
    + apply offer_ties_dedupe; try done.
      intros Hb r Hr Hdup. apply list_elem_of_lookup in Hr as [i Hi].
      apply (Hnt Hb i (length met) r c).
      * by eapply lookup_lt_Some.
      * by apply lookup_app_l_Some.
      * by rewrite list_lookup_middle.
      * done.
Qed.

Section OrderingClaim.

Context `{Collaborators}.

Lemma traverse_ties (data : QueryData) (decoded : list decoded_tile) :
  dedupe data = false \/ no_tied_duplicates (encounter data decoded) ->
  ties_in_encounter_order (encounter data decoded)
                          (emitted (traverse data decoded)).
Proof.
  intros Hd d. rewrite traverse_offer.
  destruct (decide (dbl_lt d DBL_MAX = true)) as [Hlt|Hge].
  - etrans; [apply filter_sublist_mono, sublist_filter|].
    apply (foldl_offer_ties _ _ _ []).
    + apply initial_wfq.
    + apply Forall_forall. intros r Hr. apply elem_of_replicate in Hr as [-> _].
      by left.
    + intros ->. by vm_compute in Hlt.
    + intros Hb. destruct Hd as [Hd|Hd]; [congruence|done].
    + assert (filter (fun r => distance r = d)
                     (replicate (num_results data) ResultObject_default) = [])
        as ->; [|done].
      apply filter_tie_none, Forall_forall. intros r Hr.
      apply elem_of_replicate in Hr as [-> _]. simpl. intros <-.
      by vm_compute in Hlt.
  - assert (filter (fun r => distance r = d)
              (emitted (foldl (offer (dedupe data))
                              (replicate (num_results data) ResultObject_default)
                              (encounter data decoded))) = []) as ->;
      [|apply sublist_nil_l].
    apply filter_tie_none, Forall_forall. intros r Hr.
    apply emitted_elem_of in Hr as [Hr _]. intros <-. done.
Qed.

(** C1 (amended): the features are in ascending order of distance, and
    the features at one distance are in the order in which the loops met
    them when dedupe is off, or when no candidate is a duplicate of an
    earlier candidate at the very same distance (such a candidate
    overwrites the earlier one in place and so takes its position). *)
Theorem output_order (data : QueryData) (fc : FeatureCollection) :
  Worker data = Some fc ->
  ascending_features fc
  /\ exists decoded,
       decode_tiles data = Some decoded
       /\ features fc = (Some ∘ feature_of) <$> emitted (traverse data decoded)
       /\ ascending (emitted (traverse data decoded))
       /\ (dedupe data = false \/ no_tied_duplicates (encounter data decoded) ->
           ties_in_encounter_order (encounter data decoded)
                                   (emitted (traverse data decoded))).
Proof.
  intros Hw. apply Worker_features in Hw as (decoded & Hd & Hf).
  assert (ascending (emitted (traverse data decoded))) as Ha.
  { apply wfq_ascending, emitted_wfq, traverse_wfq. }
  split.
  - intros i j oi oj Hij Hi Hj. rewrite Hf in Hi, Hj.
    rewrite list_lookup_fmap in Hi, Hj.
    destruct (emitted (traverse data decoded) !! i) as [a|] eqn:Hai; [|done].
    destruct (emitted (traverse data decoded) !! j) as [b|] eqn:Hbj; [|done].
    simpl in Hi, Hj. simplify_eq. rewrite !feature_of_distance. by eapply Ha.
  - exists decoded. repeat split; [done..|]. intros Hoff. by apply traverse_ties.
Qed.

End OrderingClaim.

(** *** The emitted slots have pairwise different classes *)

Lemma filter_overwrite_neither (P : ResultObject -> Prop) `{!forall r, Decision (P r)}
    (q : list ResultObject) (i : nat) (r c : ResultObject) :
  q !! i = Some r -> ¬ P r -> ¬ P c -> filter P (<[i := c]> q) = filter P q.
Proof.
  intros Hr Hnr Hnc. pose proof (lookup_lt_Some _ _ _ Hr) as Hi.
  rewrite insert_take_drop by done.
  rewrite <- (take_drop_middle q i r Hr) at 3.
  by rewrite !filter_app, !filter_cons_False.
Qed.

Lemma emitted_rank (r : ResultObject) :
  is_num (distance r) ->
  dbl_lt (distance r) DBL_MAX = true <-> (rk r < DBL_MAX_rank)%Z.
Proof.
  intros Hn. rewrite dbl_lt_rank. unfold rk. simpl. tauto.
Qed.

(** Behind a slot that is not emitted nothing is emitted. *)
Lemma emitted_behind (q : list ResultObject) (i : nat) (r : ResultObject) :
  wfq q -> q !! i = Some r -> ¬ dbl_lt (distance r) DBL_MAX = true ->
  emitted (drop i q) = [].
Proof.
  intros [Hn Hs] Hr Hnr. unfold emitted.
  assert (Forall (fun y => ¬ dbl_lt (distance y) DBL_MAX = true) (drop i q)) as Hall.
  { apply Forall_forall. intros y Hy Hlt.
    apply list_elem_of_lookup in Hy as [j Hj]. rewrite lookup_drop in Hj.
    pose proof (sortedq_lookup q i (i + j) r y Hs ltac:(lia) Hr Hj) as Hle.
    assert (is_num (distance r)) as Hnum.
    { apply list_elem_of_lookup_2 in Hr. by eapply Forall_forall in Hn. }
    apply Hnr. apply emitted_rank; [done|].
    apply dbl_lt_rank in Hlt as (_ & _ & Hlt). unfold rk in *. simpl in Hlt. lia. }
  induction Hall as [|y l Hy Hl IH]; [done|]. by rewrite filter_cons_False.
Qed.

Lemma offer_out_inv (b : bool) (q : list ResultObject) (c : ResultObject) :
  out_inv b q -> has_id c = b -> out_inv b (offer true q c).
Proof.
  intros (Hw & Hbd & Hid & Hnd) Hc.
  destruct (decide (q = [])) as [->|Hq]; [by rewrite offer_nil|].
  split; [by apply offer_wfq|].
  assert (forall e, e ∈ q -> dbl_lt (distance e) DBL_MAX = true ->
                    cls e = cls c -> is_dup e c = true) as Hdupe.
  { intros e He Hlt Hcls. apply (is_dup_cls b); [|done..].
    eapply Forall_forall in Hid; [|exact He]. by apply Hid. }
  destruct (offer_branches q c Hq)
    as [(i & r & Hf & Hr & Hd & Hle & ->)|[(i & r & _ & _ & _ & _ & ->)
       |[(r & Hf & Hl & Hlt & ->)|(r & _ & _ & _ & ->)]]]; [|done| |done].
  - (* the first duplicate is overwritten *)
    assert (r ∈ q) as Hin by by eapply list_elem_of_lookup_2.
    pose proof (lookup_lt_Some _ _ _ Hr) as Hi.
    assert (rk c <= DBL_MAX_rank)%Z as Hcb.
    { apply dbl_le_rank in Hle as (_ & _ & Hle).
      eapply Forall_forall in Hbd; [|exact Hin]. unfold rk in *. lia. }
    split; [rewrite stable_sort_Permutation; by apply Forall_insert|].
    split; [rewrite stable_sort_Permutation; by apply Forall_insert|].
    unfold emitted. rewrite stable_sort_Permutation.
    destruct (decide (dbl_lt (distance c) DBL_MAX = true)) as [Pc|Pc].
    + destruct (decide (dbl_lt (distance r) DBL_MAX = true)) as [Pr|Pr].
      * rewrite (filter_overwrite_same _ q i r c); try done.
        symmetry. apply (is_dup_cls b); [|done..].
        eapply Forall_forall in Hid; [|exact Hin]. by apply Hid.
      * pose proof (emitted_behind q i r Hw Hr Pr) as Hbehind.
        rewrite insert_take_drop by done.
        rewrite filter_app, filter_cons_True by done.
        assert (filter (fun r0 => dbl_lt (distance r0) DBL_MAX = true) (drop (S i) q) = [])
          as ->.
        { rewrite (drop_S q r i Hr) in Hbehind. unfold emitted in Hbehind.
          rewrite filter_cons_False in Hbehind by done. done. }
        unfold emitted in Hnd. rewrite <- (take_drop i q) in Hnd.
        unfold emitted in Hbehind. rewrite filter_app, Hbehind, app_nil_r in Hnd.
        rewrite fmap_app. apply NoDup_app. split; [done|]. split.
        -- intros k Hk1 Hk2. apply list_elem_of_singleton in Hk2. subst k.
           apply list_elem_of_fmap in Hk1 as (e & Hce & He).
           apply list_elem_of_filter in He as [Pe He].
           apply find_dup_Some in Hf as (r' & _ & _ & Hfirst).
           eapply Forall_forall in Hfirst; [|exact He].
           rewrite Hdupe in Hfirst; [done| |done|done].
           by apply (subseteq_take i q).
        -- apply NoDup_singleton.
    + assert (¬ dbl_lt (distance r) DBL_MAX = true) as Pr.
      { intros Pr. apply Pc. by eapply dbl_le_lt_trans. }
      by rewrite (filter_overwrite_neither _ q i r c).
  - (* the back slot is overwritten *)
    rewrite last_lookup in Hl.
    assert (r ∈ q) as Hin by by eapply list_elem_of_lookup_2.
    pose proof (lookup_lt_Some _ _ _ Hl) as Hi.
    assert (dbl_lt (distance c) DBL_MAX = true) as Pc.
    { apply dbl_lt_rank in Hlt as (? & ? & ?). apply dbl_lt_rank.
      eapply Forall_forall in Hbd; [|exact Hin]. unfold rk in Hbd. simpl.
      repeat split; [done..|lia]. }
    split.
    { rewrite stable_sort_Permutation. apply Forall_insert; [done|].
      apply dbl_lt_rank in Pc as (_ & _ & Pc). unfold rk. simpl in Pc. lia. }
    split; [rewrite stable_sort_Permutation; by apply Forall_insert|].
    unfold emitted in *. rewrite stable_sort_Permutation, insert_take_drop by done.
    replace (S (pred (length q))) with (length q) by lia.
    rewrite drop_all, filter_app, fmap_app, filter_cons_True by done.
    rewrite <- (take_drop_middle q _ r Hl) in Hnd.
    rewrite filter_app, fmap_app in Hnd. apply NoDup_app in Hnd as (Hnd1 & _ & _).
    apply NoDup_app. split; [done|]. split; [|apply NoDup_singleton].
    intros k Hk1 Hk2. apply list_elem_of_singleton in Hk2. subst k.
    apply list_elem_of_fmap in Hk1 as (e & Hce & He).
    apply list_elem_of_filter in He as [Pe He].
    assert (e ∈ q) as Heq by by apply (subseteq_take (pred (length q)) q).
    apply find_dup_None in Hf. eapply Forall_forall in Hf; [|exact Heq].
    rewrite Hdupe in Hf; done.
Qed.

Lemma foldl_offer_out_inv (b : bool) (cs q : list ResultObject) :
  out_inv b q -> Forall (fun c => has_id c = b) cs ->
  out_inv b (foldl (offer true) q cs).
Proof.
  revert q. induction cs as [|c cs IH]; intros q Hq Hcs; simpl; [done|].
  apply Forall_cons in Hcs as [Hc Hcs]. apply IH; [|done]. by apply offer_out_inv.
Qed.

Lemma initial_out_inv (b : bool) (n : nat) :
  out_inv b (replicate n ResultObject_default).
Proof.
  split; [apply initial_wfq|]. split; [by apply Forall_replicate|].
  split; [by apply Forall_replicate|].
  assert (emitted (replicate n ResultObject_default) = []) as ->;
    [|apply NoDup_nil_2].
  unfold emitted. induction n as [|n IH]; [done|]. simpl.
  by rewrite filter_cons_False.
Qed.

Section DedupeClaim.

Context `{Collaborators}.

Lemma encounter_elem_strong (data : QueryData) (decoded : list decoded_tile)
    (c : ResultObject) :
  c ∈ encounter data decoded ->
  exists tile_obj layer f extent z x y qp,
    tile_obj ∈ decoded /\ layer ∈ tile_obj.1.1.1 /\ f ∈ l_features layer
    /\ candidate data (l_name layer) extent z x y qp f = Some c.
Proof.
  unfold encounter. intros Hc.
  apply list_elem_of_bind in Hc as ([[[tile z] x] y] & Hc & Ht).
  simpl in Hc. apply list_elem_of_bind in Hc as (layer & Hc & Hl).
  unfold layer_candidates in Hc. case_match; [by apply elem_of_nil in Hc|].
  apply list_elem_of_omap in Hc as (f & Hf & Hc).
  exists (tile, z, x, y), layer, f. eauto 10.
Qed.

Lemma kernel_unknown_rejected (decoded : list decoded_tile) :
  kernel_rejects_unknown -> unknown_rejected decoded.
Proof. intros Hk tile_obj layer f q _ _ _ Hf. by apply Hk. Qed.

Lemma encounter_good (data : QueryData) (decoded : list decoded_tile) (b : bool) :
  unknown_rejected decoded ->
  (forall tile_obj layer f,
      tile_obj ∈ decoded -> layer ∈ tile_obj.1.1.1 -> f ∈ l_features layer ->
      f_has_id f = b) ->
  Forall (good_cand b) (encounter data decoded).
Proof.
  intros Hk Hb. apply Forall_forall. intros c Hc.
  apply encounter_elem_strong in Hc
    as (tile_obj & layer & f & extent & z & x & y & qp & Ht & Hl & Hf & Hc).
  pose proof (candidate_clean _ _ _ _ _ _ _ _ _ Hc) as Hm.
  apply candidate_Some in Hc as (_ & Hcp & _ & ->).
  split; [by apply (Hb tile_obj layer f)|]. split; [|done].
  intros Hu. simpl in Hu. apply get_geometry_type_unknown in Hu.
  rewrite (Hk tile_obj layer f qp Ht Hl Hf Hu) in Hcp. done.
Qed.

Lemma decoded_Worker (data : QueryData) (decoded : list decoded_tile) :
  decode_tiles data = Some decoded ->
  Worker data
  = Some {| fc_type := "FeatureCollection";
            features := (Some ∘ feature_of) <$> emitted (traverse data decoded) |}.
Proof. intros Hd. apply Worker_spec. by exists decoded. Qed.

Lemma encounter_has_id (data : QueryData) (decoded : list decoded_tile) (b : bool) :
  (forall tile_obj layer f,
      tile_obj ∈ decoded -> layer ∈ tile_obj.1.1.1 -> f ∈ l_features layer ->
      f_has_id f = b) ->
  Forall (fun c => has_id c = b) (encounter data decoded).
Proof.
  intros Hb. apply Forall_forall. intros c Hc.
  apply encounter_elem_strong in Hc
    as (tile_obj & layer & f & extent & z & x & y & qp & Ht & Hl & Hf & Hc).
  apply candidate_Some in Hc as (_ & _ & _ & ->).
  by apply (Hb tile_obj layer f).
Qed.

(** C8 (amended): with dedupe on, when either every feature has an id or
    none has, no two emitted results are duplicates of each other under
    the duplicate test of the code (same layer, same geometry type, ids
    not both present and different, equal encoded property lists). *)
Theorem dedupe_distinct_results (data : QueryData) (decoded : list decoded_tile) :
  dedupe data = true ->
  decode_tiles data = Some decoded ->
  ids_uniform decoded ->
  exists fc,
    Worker data = Some fc
    /\ features fc = (Some ∘ feature_of) <$> emitted (traverse data decoded)
    /\ forall i j r1 r2,
         i <> j ->
         emitted (traverse data decoded) !! i = Some r1 ->
         emitted (traverse data decoded) !! j = Some r2 ->
         ¬ duplicates r1 r2.
Proof.
  intros Hd Hdec [b Hb].
  eexists. split; [by apply decoded_Worker|]. split; [done|].
  assert (out_inv b (traverse data decoded)) as (Hw & _ & Hid & Hnd).
  { rewrite traverse_offer, Hd.
    apply foldl_offer_out_inv; [apply initial_out_inv|by apply encounter_has_id]. }
  intros i j r1 r2 Hij H1 H2 Hdup.
  apply Hij. eapply NoDup_lookup; [exact Hnd|..].
  - rewrite list_lookup_fmap, H1. done.
  - rewrite list_lookup_fmap, H2. simpl. f_equal. symmetry.
    apply list_elem_of_lookup_2 in H1, H2.
    apply emitted_elem_of in H1 as [P1 H1], H2 as [P2 H2].
    eapply Forall_forall in H1; [|exact Hid]. eapply Forall_forall in H2; [|exact Hid].
    apply (is_dup_cls b); [by apply H1|by apply H2|]. by apply is_dup_iff.
Qed.

End DedupeClaim.

(** ** Feeding the same candidates again *)

Lemma dbl_lt_irrefl (a : double) : dbl_lt a a = false.
Proof. destruct a; simpl; [done|]. apply Z.ltb_irrefl. Qed.

Lemma dbl_le_false_lt (a b : double) : dbl_le a b = false -> dbl_lt a b = false.
Proof.
  destruct a, b; simpl; try done. rewrite Z.leb_gt, Z.ltb_ge. lia.
Qed.

Lemma dbl_lt_false_le (a b c : double) :
  dbl_le b c = true -> dbl_lt a c = false -> dbl_lt a b = false.
Proof.
  destruct a, b, c; simpl; try done. rewrite Z.leb_le, !Z.ltb_ge. lia.
Qed.

Lemma dbl_lt_false_lt (a b c : double) :
  dbl_lt b c = true -> dbl_lt a c = false -> dbl_lt a b = false.
Proof.
  destruct a, b, c; simpl; try done. rewrite Z.ltb_lt, !Z.ltb_ge. lia.
Qed.

Lemma dbl_lt_false_rank (a b c : double) :
  is_num b -> is_num c -> (rank_of b <= rank_of c)%Z ->
  dbl_lt a c = false -> dbl_lt a b = false.
Proof.
  destruct a, b, c; simpl; try done. rewrite !Z.ltb_ge. lia.
Qed.

Lemma dbl_le_antisym (a b : double) :
  dbl_le a b = true -> dbl_lt a b = false -> a = b.
Proof.
  destruct a, b; simpl; try done. rewrite Z.leb_le, Z.ltb_ge. intros. f_equal. lia.
Qed.

Lemma dbl_le_refl_num (a : double) : is_num a -> dbl_le a a = true.
Proof. destruct a; simpl; [done|]. intros _. apply Z.leb_refl. Qed.

Lemma elem_of_insert_inv (q : list ResultObject) (i : nat) (c x : ResultObject) :
  x ∈ <[i := c]> q -> x = c \/ exists j, j <> i /\ q !! j = Some x.
Proof.
  intros Hx. apply list_elem_of_lookup in Hx as [j Hj].
  destruct (decide (j = i)) as [->|Hne].
  - left. pose proof (lookup_lt_Some _ _ _ Hj) as Hlt.
    rewrite length_insert in Hlt. rewrite list_lookup_insert_eq in Hj by done.
    by injection Hj.
  - right. exists j. split; [done|]. by rewrite list_lookup_insert_ne in Hj.
Qed.

Lemma back_is_max (q : list ResultObject) (r x : ResultObject) :
  wfq q -> last q = Some r -> x ∈ q -> (rk x <= rk r)%Z.
Proof.
  intros [_ Hs] Hl Hx. rewrite last_lookup in Hl.
  apply list_elem_of_lookup in Hx as [j Hj].
  pose proof (lookup_lt_Some _ _ _ Hj) as Hlt.
  eapply (sortedq_lookup q j (pred (length q))); [done|lia|done..].
Qed.

(** The back slot never moves away from the origin. *)
Lemma offer_back_le (q : list ResultObject) (c r : ResultObject) :
  wfq q -> last q = Some r ->
  exists r', last (offer true q c) = Some r'
             /\ is_num (distance r') /\ is_num (distance r)
             /\ (rk r' <= rk r)%Z.
Proof.
  intros Hw Hl.
  assert (q <> []) as Hq by (intros ->; done).
  assert (offer true q c <> []) as Hq'.
  { intros Hnil. apply (f_equal length) in Hnil. rewrite offer_length in Hnil.
    destruct q; simpl in *; done. }
  destruct (last_is_Some_ne _ Hq') as (r' & Hl' & _).
  exists r'. split; [done|].
  pose proof (offer_wfq true q c Hw) as Hw'.
  assert (r' ∈ offer true q c) as Hin' by by apply last_Some_elem_of.
  assert (r ∈ q) as Hin by by apply last_Some_elem_of.
  split; [destruct Hw' as [Hn _]; by eapply Forall_forall in Hn|].
  split; [destruct Hw as [Hn _]; by eapply Forall_forall in Hn|].
  destruct (offer_cases true q c) as [Heq|(i & r0 & Hr0 & Hle & Heq)];
    rewrite Heq in Hin'.
  - by apply (back_is_max q).
  - rewrite stable_sort_Permutation in Hin'.
    apply elem_of_insert_inv in Hin' as [->|(j & _ & Hj)].
    + apply dbl_le_rank in Hle as (_ & _ & Hle).
      apply list_elem_of_lookup_2 in Hr0.
      pose proof (back_is_max q r r0 Hw Hl Hr0). unfold rk in *. lia.
    + apply list_elem_of_lookup_2 in Hj. by apply (back_is_max q).
Qed.

Lemma dominated_back (q q' : list ResultObject) (c : ResultObject) (r r' : ResultObject) :
  last q = Some r -> last q' = Some r' ->
  is_num (distance r') -> is_num (distance r) -> (rk r' <= rk r)%Z ->
  dbl_lt (distance c) (distance (default ResultObject_default (last q))) = false ->
  dbl_lt (distance c) (distance (default ResultObject_default (last q'))) = false.
Proof.
  intros -> -> Hn' Hn Hle. simpl. by apply dbl_lt_false_rank.
Qed.

(** The candidate just offered is dominated. *)
Lemma offer_dominated_new (b : bool) (q : list ResultObject) (c : ResultObject) :
  queue_inv b q -> q <> [] -> good_cand b c -> dominated (offer true q c) c.
Proof.
  intros (Hw & Hok & Hnd) Hq Hc.
  destruct (offer_branches q c Hq)
    as [(i & r & Hf & Hr & Hd & Hle & ->)|[(i & r & Hf & Hr & Hd & Hle & ->)
       |[(r & Hf & Hl & Hlt & ->)|(r & Hf & Hl & Hlt & ->)]]].
  - left. exists c. rewrite stable_sort_Permutation.
    split; [apply list_elem_of_insert; by eapply lookup_lt_Some|].
    split; [by destruct Hc as (_ & ? & _)|]. split; [done|apply dbl_lt_irrefl].
  - left. exists r.
    assert (r ∈ q) as Hin by by eapply list_elem_of_lookup_2.
    assert (slot_ok b r) as Hrok by by eapply Forall_forall in Hok.
    apply (is_dup_slot b r c Hrok Hc) in Hd as [Hlr Hcls].
    repeat split; [done..|]. by apply dbl_le_false_lt.
  - left. exists c. rewrite stable_sort_Permutation.
    rewrite last_lookup in Hl.
    split; [apply list_elem_of_insert; by eapply lookup_lt_Some|].
    split; [by destruct Hc as (_ & ? & _)|]. split; [done|apply dbl_lt_irrefl].
  - right. split; [|by rewrite Hl].
    intros x Hx Hlx Hcls. apply find_dup_None in Hf.
    eapply Forall_forall in Hf; [|exact Hx].
    assert (is_dup x c = true); [|congruence].
    apply (is_dup_slot b); [by eapply Forall_forall in Hok|done|done].
Qed.

(** A candidate met earlier stays dominated. *)
Lemma offer_dominated_old (b : bool) (q : list ResultObject) (c' c : ResultObject) :
  queue_inv b q -> q <> [] -> good_cand b c' ->
  dominated q c -> dominated (offer true q c') c.
Proof.
  intros (Hw & Hok & Hnd) Hq Hc' Hdom.
  destruct (last_is_Some_ne q Hq) as (bq & Hbq & Hbq').
  destruct (offer_back_le q c' bq Hw Hbq) as (bq' & Hbq1 & Hn1 & Hn0 & Hbb).
  destruct (offer_branches q c' Hq)
    as [(i & r0 & Hf & Hr0 & Hd & Hle & Heq)|[(i & r0 & _ & _ & _ & _ & Heq)
       |[(r0 & Hf & Hl & Hlt & Heq)|(r0 & _ & _ & _ & Heq)]]];
    try (by rewrite Heq).
  - (* a duplicate of [c'] is overwritten *)
    assert (r0 ∈ q) as Hin0 by by eapply list_elem_of_lookup_2.
    assert (slot_ok b r0) as Hrok by by eapply Forall_forall in Hok.
    apply (is_dup_slot b r0 c' Hrok Hc') in Hd as [Hlr0 Hcls0].
    pose proof (lookup_lt_Some _ _ _ Hr0) as Hi.
    destruct Hdom as [(r & Hr & Hlr & Hcls & Hnb)|[Habs Hnb]].
    + apply list_elem_of_lookup in Hr as [j Hj].
      destruct (decide (j = i)) as [->|Hne].
      * assert (r = r0) as -> by congruence.
        left. exists c'. rewrite Heq, stable_sort_Permutation.
        split; [by apply list_elem_of_insert|].
        split; [by destruct Hc' as (_ & ? & _)|].
        split; [congruence|]. by eapply dbl_lt_false_le.
      * left. exists r. rewrite Heq, stable_sort_Permutation.
        split; [|done]. apply list_elem_of_lookup. exists j.
        by rewrite list_lookup_insert_ne.
    + right. split.
      * intros x Hx Hlx Hcx. rewrite Heq, stable_sort_Permutation in Hx.
        apply elem_of_insert_inv in Hx as [->|(j & _ & Hj)].
        -- apply (Habs r0 Hin0 Hlr0). congruence.
        -- apply list_elem_of_lookup_2 in Hj. by apply (Habs x).
      * by eapply (dominated_back q).
  - (* the back slot is overwritten *)
    rewrite last_lookup in Hl. assert (r0 = bq) as -> by congruence.
    pose proof (lookup_lt_Some _ _ _ Hl) as Hi.
    assert (forall x, x ∈ q -> live x -> cls x <> cls c') as Hfresh.
    { intros x Hx Hlx Hcx. apply find_dup_None in Hf.
      eapply Forall_forall in Hf; [|exact Hx].
      assert (is_dup x c' = true); [|congruence].
      apply (is_dup_slot b); [by eapply Forall_forall in Hok|done|done]. }
    destruct Hdom as [(r & Hr & Hlr & Hcls & Hnb)|[Habs Hnb]].
    + apply list_elem_of_lookup in Hr as [j Hj].
      destruct (decide (j = pred (length q))) as [->|Hne].
      * assert (r = bq) as -> by congruence.
        right. split.
        -- intros x Hx Hlx Hcx. rewrite Heq, stable_sort_Permutation in Hx.
           apply elem_of_insert_inv in Hx as [->|(j' & Hj' & Hjx)].
           ++ apply (Hfresh bq); [by eapply list_elem_of_lookup_2|done|congruence].
           ++ apply Hj'. eapply (nodup_cls_unique q); try done. congruence.
        -- rewrite Hbq1. simpl. by eapply dbl_lt_false_rank.
      * left. exists r. rewrite Heq, stable_sort_Permutation.
        split; [|done]. apply list_elem_of_lookup. exists j.
        by rewrite list_lookup_insert_ne.
    + destruct (decide (cls c' = cls c)) as [Hcc|Hcc].
      * left. exists c'. rewrite Heq, stable_sort_Permutation.
        split; [by apply list_elem_of_insert|].
        split; [by destruct Hc' as (_ & ? & _)|]. split; [done|].
        rewrite Hbq in Hnb. simpl in Hnb. by eapply dbl_lt_false_lt.
      * right. split.
        -- intros x Hx Hlx Hcx. rewrite Heq, stable_sort_Permutation in Hx.
           apply elem_of_insert_inv in Hx as [->|(j & _ & Hj)]; [done|].
           apply list_elem_of_lookup_2 in Hj. by apply (Habs x).
        -- by eapply (dominated_back q).
Qed.

Lemma latest_snoc_self (met : list ResultObject) (c : ResultObject) :
  latest (met ++ [c]) c.
Proof.
  intros _. rewrite filter_app, filter_cons_True by done.
  rewrite filter_nil. apply last_snoc.
Qed.

Lemma latest_snoc_other (met : list ResultObject) (c x : ResultObject) :
  ¬ matches x c -> latest met x -> latest (met ++ [c]) x.
Proof.
  intros Hm Hx Hl. rewrite filter_app, filter_cons_False by done.
  rewrite filter_nil, app_nil_r. by apply Hx.
Qed.

(** Every slot keeps holding the last candidate of its class and distance. *)
Lemma offer_latest (b : bool) (q met : list ResultObject) (c : ResultObject) :
  queue_inv b q -> q <> [] -> good_cand b c ->
  Forall (latest met) q -> Forall (latest (met ++ [c])) (offer true q c).
Proof.
  intros (Hw & Hok & Hnd) Hq Hc Hlat.
  assert (forall x, x ∈ q -> live x -> cls c = cls x -> is_dup x c = true) as Hdupx.
  { intros x Hx Hlx Hcx. apply (is_dup_slot b); [by eapply Forall_forall in Hok|done|done]. }
  apply Forall_forall. intros x Hx.
  destruct (offer_branches q c Hq)
    as [(i & r & Hf & Hr & Hd & Hle & Heq)|[(i & r & Hf & Hr & Hd & Hle & Heq)
       |[(r & Hf & Hl & Hlt & Heq)|(r & Hf & Hl & Hlt & Heq)]]];
    rewrite Heq in Hx.
  - rewrite stable_sort_Permutation in Hx.
    assert (r ∈ q) as Hin by by eapply list_elem_of_lookup_2.
    assert (slot_ok b r) as Hrok by by eapply Forall_forall in Hok.
    apply (is_dup_slot b r c Hrok Hc) in Hd as [Hlr Hcls].
    apply elem_of_insert_inv in Hx as [->|(j & Hj & Hjx)];
      [apply latest_snoc_self|].
    assert (x ∈ q) as Hxq by by eapply list_elem_of_lookup_2.
    apply latest_snoc_other; [|by eapply Forall_forall in Hlat].
    intros [Hcx _]. apply Hj.
    destruct (decide (live x)) as [Hlx|Hlx].
    + eapply (nodup_cls_unique q); try done. congruence.
    + exfalso. apply Hlx. unfold live. unfold cls in Hcx, Hcls.
      destruct Hc as (_ & Hlc & _). unfold live in Hlc. congruence.
  - assert (r ∈ q) as Hin by by eapply list_elem_of_lookup_2.
    assert (slot_ok b r) as Hrok by by eapply Forall_forall in Hok.
    apply (is_dup_slot b r c Hrok Hc) in Hd as [Hlr Hcls].
    apply latest_snoc_other; [|by eapply Forall_forall in Hlat].
    intros [Hcx Hdx].
    assert (live x) as Hlx.
    { unfold live. unfold cls in Hcx. destruct Hc as (_ & Hlc & _).
      unfold live in Hlc. congruence. }
    apply list_elem_of_lookup in Hx as [j Hj].
    assert (j = i) as -> by (eapply (nodup_cls_unique q); try done; congruence).
    assert (x = r) as -> by congruence.
    rewrite Hdx in Hle.
    destruct Hw as [Hn _]. eapply Forall_forall in Hn; [|exact Hin].
    rewrite dbl_le_refl_num in Hle by done. done.
  - rewrite stable_sort_Permutation in Hx.
    apply elem_of_insert_inv in Hx as [->|(j & Hj & Hjx)];
      [apply latest_snoc_self|].
    assert (x ∈ q) as Hxq by by eapply list_elem_of_lookup_2.
    apply latest_snoc_other; [|by eapply Forall_forall in Hlat].
    intros [Hcx _].
    assert (live x) as Hlx.
    { unfold live. unfold cls in Hcx. destruct Hc as (_ & Hlc & _).
      unfold live in Hlc. congruence. }
    apply find_dup_None in Hf. eapply Forall_forall in Hf; [|exact Hxq].
    rewrite Hdupx in Hf by done. done.
  - apply latest_snoc_other; [|by eapply Forall_forall in Hlat].
    intros [Hcx _].
    assert (live x) as Hlx.
    { unfold live. unfold cls in Hcx. destruct Hc as (_ & Hlc & _).
      unfold live in Hlc. congruence. }
    apply find_dup_None in Hf. eapply Forall_forall in Hf; [|exact Hx].
    rewrite Hdupx in Hf by done. done.
Qed.

Lemma offer_ne_nil (b : bool) (q : list ResultObject) (c : ResultObject) :
  q <> [] -> offer b q c <> [].
Proof.
  intros Hq Hnil. apply (f_equal length) in Hnil. rewrite offer_length in Hnil.
  destruct q; simpl in *; done.
Qed.

Lemma run_step (b : bool) (q met : list ResultObject) (c : ResultObject) :
  q <> [] -> run_inv b q met -> good_cand b c ->
  run_inv b (offer true q c) (met ++ [c]).
Proof.
  intros Hq (Hinv & Hdom & Hlat) Hc. split; [by apply offer_queue_inv|]. split.
  - apply Forall_app. split.
    + eapply Forall_impl; [exact Hdom|]. intros x Hx. by eapply offer_dominated_old.
    + apply Forall_singleton. by eapply offer_dominated_new.
  - by eapply offer_latest.
Qed.

Lemma place_end (c : ResultObject) (l : list ResultObject) :
  numq l -> is_num (distance c) ->
  Forall (fun y => (rk y <= rk c)%Z) l -> place c l = l ++ [c].
Proof.
  intros Hn Hc Hle. induction l as [|y l IH]; simpl; [done|].
  apply numq_cons in Hn as [Hy Hn]. apply Forall_cons in Hle as [Hyc Hle].
  rewrite CompareDistance_rk by done.
  replace (rk c <? rk y)%Z with false by (symmetry; apply Z.ltb_ge; lia).
  by rewrite IH.
Qed.

(** Offering again a candidate that was met before leaves classes and
    distances of all slots as they are. *)
Lemma run_shape (b : bool) (q met : list ResultObject) (c : ResultObject) :
  q <> [] -> run_inv b q met -> good_cand b c -> c ∈ met ->
  shape (offer true q c) = shape q.
Proof.
  intros Hq ((Hw & Hok & Hnd) & Hdom & _) Hc Hmet.
  eapply Forall_forall in Hdom; [|exact Hmet].
  assert (forall x, x ∈ q -> live x -> cls x = cls c -> is_dup x c = true) as Hdupx.
  { intros x Hx Hlx Hcx. apply (is_dup_slot b); [by eapply Forall_forall in Hok|done|done]. }
  destruct (offer_branches q c Hq)
    as [(i & r & Hf & Hr & Hd & Hle & Heq)|[(i & r & _ & _ & _ & _ & Heq)
       |[(r & Hf & Hl & Hlt & Heq)|(r & _ & _ & _ & Heq)]]];
    try (by rewrite Heq).
  - assert (r ∈ q) as Hin by by eapply list_elem_of_lookup_2.
    assert (slot_ok b r) as Hrok by by eapply Forall_forall in Hok.
    apply (is_dup_slot b r c Hrok Hc) in Hd as [Hlr Hcls].
    pose proof (lookup_lt_Some _ _ _ Hr) as Hi.
    assert (distance c = distance r) as Hdist.
    { destruct Hdom as [(r' & Hr' & Hlr' & Hcls' & Hnb)|[Habs _]].
      - apply list_elem_of_lookup in Hr' as [j Hj].
        assert (j = i) as -> by (eapply (nodup_cls_unique q); try done; congruence).
        assert (r' = r) as -> by congruence.
        by apply dbl_le_antisym.
      - exfalso. by apply (Habs r). }
    rewrite Heq, (overwrite_closed q i r c) by done.
    rewrite place_end.
    + rewrite <- (assoc_L (++)). simpl. rewrite <- insert_take_drop by done.
      unfold shape. rewrite list_fmap_insert. apply list_insert_id.
      rewrite list_lookup_fmap, Hr. simpl. by rewrite Hcls, Hdist.
    + destruct Hw as [Hn _]. by apply Forall_take.
    + by apply dbl_le_is_num in Hle as [? _].
    + apply Forall_forall. intros y Hy.
      pose proof (sortedq_take_le q i r y (proj2 Hw) Hr Hy) as Hyr.
      unfold rk in *. rewrite Hdist. done.
  - exfalso. destruct Hdom as [(r' & Hr' & Hlr' & Hcls' & _)|[_ Hnb]].
    + apply find_dup_None in Hf. eapply Forall_forall in Hf; [|exact Hr'].
      rewrite Hdupx in Hf by done. done.
    + rewrite Hl in Hnb. simpl in Hnb. congruence.
Qed.

Lemma foldl_offer_ne_nil (b : bool) (cs q : list ResultObject) :
  q <> [] -> foldl (offer b) q cs <> [].
Proof.
  intros Hq Hnil. apply (f_equal length) in Hnil.
  rewrite foldl_offer_length in Hnil. destruct q; simpl in *; done.
Qed.

Lemma foldl_run (b : bool) (cs q met : list ResultObject) :
  q <> [] -> run_inv b q met -> Forall (good_cand b) cs ->
  run_inv b (foldl (offer true) q cs) (met ++ cs).
Proof.
  revert q met. induction cs as [|c cs IH]; intros q met Hq Hrun Hcs; simpl.
  - by rewrite app_nil_r.
  - apply Forall_cons in Hcs as [Hc Hcs].
    rewrite (cons_middle c), (assoc_L (++)).
    apply IH; [by apply offer_ne_nil|by apply run_step|done].
Qed.

Lemma foldl_shape (b : bool) (cs q met : list ResultObject) :
  q <> [] -> run_inv b q met -> Forall (good_cand b) cs ->
  Forall (fun c => c ∈ met) cs ->
  shape (foldl (offer true) q cs) = shape q.
Proof.
  revert q met. induction cs as [|c cs IH]; intros q met Hq Hrun Hcs Hin; simpl;
    [done|].
  apply Forall_cons in Hcs as [Hc Hcs]. apply Forall_cons in Hin as [Hcin Hin].
  rewrite (IH _ (met ++ [c])); [by eapply run_shape|by apply offer_ne_nil
                                |by apply run_step|done|].
  eapply Forall_impl; [exact Hin|]. intros x Hx. apply elem_of_app. by left.
Qed.

Lemma initial_run_inv (b : bool) (n : nat) :
  run_inv b (replicate n ResultObject_default) [].
Proof.
  split; [apply initial_queue_inv|]. split; [done|].
  apply Forall_replicate. intros Hl. by apply live_default in Hl.
Qed.

(** Feeding the candidates a second time changes nothing. *)
Lemma foldl_offer_again (b : bool) (cs : list ResultObject) (n : nat) :
  Forall (good_cand b) cs ->
  foldl (offer true) (foldl (offer true) (replicate n ResultObject_default) cs) cs
  = foldl (offer true) (replicate n ResultObject_default) cs.
Proof.
  intros Hcs. set (q0 := replicate n ResultObject_default).
  destruct n as [|n].
  { assert (forall l, foldl (offer true) [] l = []) as Hnil.
    { induction l as [|c l IH]; simpl; [done|]. by rewrite offer_nil. }
    subst q0. simpl. by rewrite !Hnil. }
  assert (q0 <> []) as Hq0 by done.
  set (q1 := foldl (offer true) q0 cs).
  pose proof (foldl_run b cs q0 [] Hq0 (initial_run_inv b (S n)) Hcs) as Hrun1.
  simpl in Hrun1. fold q1 in Hrun1.
  assert (q1 <> []) as Hq1 by by apply foldl_offer_ne_nil.
  pose proof (foldl_run b cs q1 cs Hq1 Hrun1 Hcs) as Hrun2.
  assert (shape (foldl (offer true) q1 cs) = shape q1) as Hshape.
  { apply (foldl_shape b cs q1 cs); try done. by apply Forall_forall. }
  set (q2 := foldl (offer true) q1 cs) in *.
  destruct Hrun1 as ((_ & Hok1 & _) & _ & Hlat1).
  destruct Hrun2 as ((_ & Hok2 & _) & _ & Hlat2).
  apply list_eq. intros i.
  assert (shape q2 !! i = shape q1 !! i) as Hi by by rewrite Hshape.
  unfold shape in Hi. rewrite !list_lookup_fmap in Hi.
  destruct (q2 !! i) as [x|] eqn:Hx, (q1 !! i) as [y|] eqn:Hy; simpl in Hi;
    try done.
  assert (cls x = cls y /\ distance x = distance y) as [Hcls Hdist]
    by (split; congruence).
  clear Hi. f_equal.
  apply list_elem_of_lookup_2 in Hx, Hy.
  assert (original_geometry_type x = original_geometry_type y) as Hgeom
    by (unfold cls in Hcls; congruence).
  destruct (decide (live y)) as [Hly|Hly].
  - assert (live x) as Hlx by (unfold live; by rewrite Hgeom).
    eapply Forall_forall in Hlat1; [|exact Hy].
    eapply Forall_forall in Hlat2; [|exact Hx].
    specialize (Hlat1 Hly). specialize (Hlat2 Hlx).
    rewrite filter_app in Hlat2.
    assert (filter (matches x) cs = filter (matches y) cs) as Hfil.
    { apply list_filter_iff. intros z. unfold matches. by rewrite Hcls, Hdist. }
    rewrite Hfil, last_app, Hlat1 in Hlat2. congruence.
  - assert (¬ live x) as Hlx by (unfold live; by rewrite Hgeom).
    eapply Forall_forall in Hok1; [|exact Hy].
    eapply Forall_forall in Hok2; [|exact Hx].
    rewrite (slot_ok_not_live b x Hok2 Hlx), (slot_ok_not_live b y Hok1 Hly). done.
Qed.

Lemma foldl_offer_repeat (b : bool) (cs : list ResultObject) (n k : nat) :
  Forall (good_cand b) cs ->
  foldl (offer true) (replicate n ResultObject_default)
        (replicate (S k) cs ≫= id)
  = foldl (offer true) (replicate n ResultObject_default) cs.
Proof.
  intros Hcs. induction k as [|k IH].
  - simpl. by rewrite app_nil_r.
  - rewrite replicate_S_end, bind_app, foldl_app, IH. simpl.
    rewrite app_nil_r. by apply (foldl_offer_again b).
Qed.

Lemma mapM_replicate_Some {A B : Type} (f : A -> option B) (x : A) (y : B) (n : nat) :
  f x = Some y -> mapM f (replicate n x) = Some (replicate n y).
Proof.
  intros Hf. apply mapM_Some.
  induction n as [|n IH]; simpl; by constructor.
Qed.

Lemma mapM_replicate_None {A B : Type} (f : A -> option B) (x : A) (n : nat) :
  f x = None -> mapM f (replicate (S n) x) = None.
Proof. intros Hf. apply mapM_None_2. simpl. by apply Exists_cons_hd. Qed.

Lemma bind_replicate {A B : Type} (f : A -> list B) (x : A) (n : nat) :
  replicate n x ≫= f = replicate n (f x) ≫= id.
Proof. induction n as [|n IH]; [done|]. csimpl. by rewrite IH. Qed.

Section RepeatedTileClaim.

Context `{Collaborators}.

Lemma encounter_with_tiles (data : QueryData) (ts : list TileObject)
    (decoded : list decoded_tile) :
  encounter (with_tiles data ts) decoded = encounter data decoded.
Proof. reflexivity. Qed.

End RepeatedTileClaim.

(** * The entry point, the filters and the output *)

Section EntryPointFacts.

Context `{NodeApi}.

Lemma bind_Ok {A B : Type} (m : outcome A) (f : A -> outcome B) (b : B) :
  m ≫= f = Ok b <-> exists a, m = Ok a /\ f a = Ok b.
Proof.
  destruct m; simpl; split; try (intros (? & ? & ?)); try done.
  - intros Hf. by eexists.
  - by simplify_eq.
Qed.

Lemma Has_false_Get (obj : napi_value) (key : string) :
  Has obj key = false -> Get obj key = nv_undefined.
Proof.
  unfold Has, Get. by destruct (prop_lookup key (props_of obj)).
Qed.

Lemma Get_Has (obj : napi_value) (key : string) :
  Get obj key <> nv_undefined -> Has obj key = true.
Proof.
  intros Hg. destruct (Has obj key) eqn:Hh; [done|].
  by apply Has_false_Get in Hh.
Qed.

Lemma tile_item_Ok (tile_val : napi_value) (t : TileObject) :
  tile_item tile_val = Ok t <->
  IsObject tile_val = true
  /\ IsBuffer (Get tile_val "buffer") = true
  /\ IsNumber (Get tile_val "z") = true
  /\ IsNumber (Get tile_val "x") = true
  /\ IsNumber (Get tile_val "y") = true
  /\ (0 <= tile_z t)%Z /\ (0 <= tile_x t)%Z /\ (0 <= tile_y t)%Z
  /\ t = {| tile_z := Int32Value (DoubleValue (Get tile_val "z"));
            tile_x := Int32Value (DoubleValue (Get tile_val "x"));
            tile_y := Int32Value (DoubleValue (Get tile_val "y"));
            tile_data := Data (Get tile_val "buffer") |}.
Proof.
  unfold tile_item. split.
  - repeat case_match; try done. intros [= <-]. simpl.
    repeat match goal with
           | Hn : negb _ = false |- _ => apply negb_false_iff in Hn
           | Hn : (_ <? _)%Z = false |- _ => apply Z.ltb_ge in Hn
           end.
    done.
  - intros (Ho & Hb & Hz & Hx & Hy & Hz0 & Hx0 & Hy0 & ->). simpl in *.
    rewrite Ho, Hb, Hz, Hx, Hy. simpl.
    rewrite !Get_Has by (intros Hg; rewrite Hg in *; done). simpl.
    destruct (Get tile_val "buffer"); try done. simpl.
    apply Z.ltb_ge in Hz0, Hx0, Hy0. by rewrite Hz0, Hx0, Hy0.
Qed.

Lemma tile_item_not_Throw (tile_val : napi_value) (msg : string) :
  tile_item tile_val <> Throw msg.
Proof. unfold tile_item. by repeat case_match. Qed.

Lemma tiles_loop_Ok (items : list napi_value) (query_data data : QueryData) :
  tiles_loop items query_data = Ok data <->
  exists ts, Forall2 (fun v t => tile_item v = Ok t) items ts
             /\ data = with_tiles query_data (tiles query_data ++ ts).
Proof.
  revert query_data. induction items as [|v items IH]; intros query_data; simpl.
  - split.
    + intros [= <-]. exists []. split; [constructor|].
      destruct query_data. unfold with_tiles. simpl. by rewrite app_nil_r.
    + intros (ts & Hf & ->). apply Forall2_nil_inv_l in Hf as ->.
      destruct query_data. unfold with_tiles. simpl. by rewrite app_nil_r.
  - rewrite bind_Ok. split.
    + intros (t & Ht & Hrest). apply IH in Hrest as (ts & Hf & ->).
      exists (t :: ts). split; [by constructor|].
      unfold with_tiles. simpl. by rewrite <- app_assoc.
    + intros (ts & Hf & ->). apply Forall2_cons_inv_l in Hf as (t & ts' & Ht & Hf & ->).
      exists t. split; [done|]. apply IH. exists ts'. split; [done|].
      unfold with_tiles. simpl. by rewrite <- app_assoc.
Qed.

Lemma tiles_loop_not_Throw (items : list napi_value) (query_data : QueryData)
    (msg : string) :
  tiles_loop items query_data <> Throw msg.
Proof.
  revert query_data. induction items as [|v items IH]; intros query_data; simpl; [done|].
  pose proof (tile_item_not_Throw v) as Hv.
  destruct (tile_item v); simpl; [apply IH|done|]. intros [= <-]. by eapply Hv.
Qed.


Lemma with_layers_id (data : QueryData) : with_layers data (layers data) = data.
Proof. by destruct data. Qed.

Lemma option_dedupe_Ok (options : napi_value) (query_data data : QueryData) :
  option_dedupe options query_data = Ok data <->
  if Has options "dedupe"
  then exists b, Get options "dedupe" = nv_boolean b /\ data = with_dedupe query_data b
  else data = query_data.
Proof.
  unfold option_dedupe. destruct (Has options "dedupe"); [|split; congruence].
  destruct (Get options "dedupe"); simpl; split; try done;
    try (by intros (? & ? & _)).
  - intros [= <-]. by eexists.
  - by intros (? & [= <-] & ->).
Qed.

Lemma option_radius_Ok (options : napi_value) (query_data data : QueryData) :
  option_radius options query_data = Ok data <->
  if Has options "radius"
  then exists r, Get options "radius" = nv_number r /\ dbl_lt r dbl_zero = false
                 /\ data = with_radius query_data r
  else data = query_data.
Proof.
  unfold option_radius. destruct (Has options "radius"); [|split; congruence].
  destruct (Get options "radius") as [| | |r| | | | | |]; simpl;
    try (split; [done|]; by intros (? & ? & _)).
  destruct (dbl_lt r dbl_zero) eqn:Hr; split; try done.
  - intros (? & [= <-] & ? & _). congruence.
  - intros [= <-]. by exists r.
  - by intros (? & [= <-] & _ & ->).
Qed.

Lemma option_limit_Ok (options : napi_value) (query_data data : QueryData) :
  option_limit options query_data = Ok data <->
  if Has options "limit"
  then exists n, Get options "limit" = nv_number n
                 /\ (1 <= Int32Value n <= 1000)%Z
                 /\ data = with_limit query_data (Z.to_nat (Int32Value n))
  else data = query_data.
Proof.
  unfold option_limit. destruct (Has options "limit"); [|split; congruence].
  destruct (Get options "limit") as [| | |n| | | | | |]; simpl;
    try (split; [done|]; by intros (? & ? & _)).
  destruct (Z.ltb_spec (Int32Value n) 1); [split; [done|]; intros (? & [= <-] & ? & _); lia|].
  destruct (Z.ltb_spec 1000 (Int32Value n)); [split; [done|]; intros (? & [= <-] & ? & _); lia|].
  split.
  - intros [= <-]. exists n. split; [done|]. split; [lia|done].
  - by intros (? & [= <-] & _ & ->).
Qed.

Lemma length_le_0 (s : string) : String.length s <= 0 <-> s = ""%string.
Proof. destruct s; simpl; split; try done; lia. Qed.

Lemma layers_loop_Ok (items : list napi_value) (query_data data : QueryData) :
  layers_loop items query_data = Ok data <->
  exists names, items = nv_string <$> names
                /\ Forall (fun s => s <> ""%string) names
                /\ data = with_layers query_data (layers query_data ++ names).
Proof.
  revert query_data. induction items as [|v items IH]; intros query_data; simpl.
  - split.
    + intros [= <-]. exists []. by rewrite app_nil_r, with_layers_id.
    + intros (names & Hn & _ & ->). destruct names; [|done].
      by rewrite app_nil_r, with_layers_id.
  - destruct v as [| | | |s| | | | |]; simpl;
      try (split; [done|]; by intros ([|??] & ? & _)).
    case_bool_decide as Hs.
    + apply length_le_0 in Hs as ->. split; [done|].
      intros ([|s names] & [= ] & Hne & _); simplify_eq.
      by apply Forall_cons in Hne as [? _].
    + rewrite length_le_0 in Hs. rewrite IH. split.
      * intros (names & -> & Hne & ->). exists (s :: names).
        split; [done|]. split; [by constructor|].
        unfold with_layers. simpl. by rewrite <- app_assoc.
      * intros ([|s' names] & [= ] & Hne & ->); simplify_eq.
        apply Forall_cons in Hne as [_ Hne]. exists names.
        split; [done|]. split; [done|].
        unfold with_layers. simpl. by rewrite <- app_assoc.
Qed.

Lemma option_layers_Ok (options : napi_value) (query_data data : QueryData) :
  option_layers options query_data = Ok data <->
  if Has options "layers"
  then exists names props,
         Get options "layers" = nv_array (nv_string <$> names) props
         /\ Forall (fun s => s <> ""%string) names
         /\ data = with_layers query_data (layers query_data ++ names)
  else data = query_data.
Proof.
  unfold option_layers. destruct (Has options "layers"); [|split; congruence].
  destruct (Get options "layers") as [| | | | | | | |items props|]; simpl;
    try (split; [done|]; by intros (? & ? & ? & _)).
  case_bool_decide as Hl.
  - rewrite layers_loop_Ok. split.
    + intros (names & -> & Hne & ->). by exists names, props.
    + intros (names & ? & [= -> _] & Hne & ->). by exists names.
  - destruct items; [|simpl in Hl; lia]. split.
    + intros [= <-]. exists [], props. by rewrite app_nil_r, with_layers_id.
    + intros ([|??] & ? & ? & _ & ->); [|done].
      by rewrite app_nil_r, with_layers_id.
Qed.

Lemma option_geometry_Ok (options : napi_value) (query_data data : QueryData) :
  option_geometry options query_data = Ok data <->
  if Has options "geometry"
  then exists s g, Get options "geometry" = nv_string s
                   /\ (s, g) ∈ [("point", point); ("linestring", linestring);
                                ("polygon", polygon)]%string
                   /\ data = with_geometry query_data g
  else data = query_data.
Proof.
  unfold option_geometry. destruct (Has options "geometry"); [|split; congruence].
  destruct (Get options "geometry") as [| | | |s| | | | |]; simpl;
    try (split; [done|]; by intros (? & ? & ? & _)).
  case_bool_decide as Hs.
  { apply length_le_0 in Hs as ->. split; [done|].
    intros (s & g & [= <-] & Hm & _). mem_cases Hm; done. }
  destruct (String.eqb_spec s "point") as [->|Hp].
  { split.
    - intros [= <-]. exists "point"%string, point. split; [done|].
      split; [by repeat constructor|done].
    - intros (s & g & [= <-] & Hm & ->). mem_cases Hm; by simplify_eq. }
  destruct (String.eqb_spec s "linestring") as [->|Hl].
  { split.
    - intros [= <-]. exists "linestring"%string, linestring. split; [done|].
      split; [by repeat constructor|done].
    - intros (s & g & [= <-] & Hm & ->). mem_cases Hm; by simplify_eq. }
  destruct (String.eqb_spec s "polygon") as [->|Hy].
  { split.
    - intros [= <-]. exists "polygon"%string, polygon. split; [done|].
      split; [by repeat constructor|done].
    - intros (s & g & [= <-] & Hm & ->). mem_cases Hm; by simplify_eq. }
  split; [done|].
  intros (s' & g & [= <-] & Hm & _). mem_cases Hm; by simplify_eq.
Qed.

End EntryPointFacts.

Section EntryPointMore.

Context `{NodeApi}.

Lemma last_arg (info : list napi_value) :
  last info = if bool_decide (length info = 0) then None
              else Some (arg info (length info - 1)).
Proof.
  unfold arg. rewrite last_lookup.
  destruct info as [|v info]; [done|]. simpl.
  rewrite Nat.sub_0_r.
  destruct (lookup_lt_is_Some_2 (v :: info) (length info)) as [x Hx]; [simpl; lia|].
  by rewrite Hx.
Qed.

Lemma vtquery_Ok (info : list napi_value) (data : QueryData) :
  vtquery info = Ok data <->
  (exists cb, last info = Some cb /\ IsFunction cb = true)
  /\ exists items aprops ts lng lat lprops,
       arg info 0 = nv_array items aprops /\ items <> []
       /\ Forall2 (fun v t => tile_item v = Ok t) items ts
       /\ arg info 1 = nv_array [nv_number lng; nv_number lat] lprops
       /\ let base := with_lnglat (with_tiles QueryData_init ts) lng lat in
          if bool_decide (3 < length info)
          then IsObject (arg info 2) = true
               /\ exists d1 d2 d3 d4,
                    option_dedupe (arg info 2) base = Ok d1
                    /\ option_radius (arg info 2) d1 = Ok d2
                    /\ option_limit (arg info 2) d2 = Ok d3
                    /\ option_layers (arg info 2) d3 = Ok d4
                    /\ option_geometry (arg info 2) d4 = Ok data
          else data = base.
Proof.
  unfold vtquery. rewrite last_arg.
  case_bool_decide as Hlen.
  { split; [done|]. by intros [(cb & ? & _) _]. }
  destruct (IsFunction (arg info (length info - 1))) eqn:Hcb; simpl;
    [|split; [done|]; intros [(cb & [= <-] & ?) _]; congruence].
  destruct (arg info 0) as [| | | | | | | |items aprops|] eqn:Ha0; simpl;
    try (split; [done|]; by intros (_ & ? & ? & ? & ? & ? & ? & ? & _)).
  case_bool_decide as Hnum.
  { destruct items; [|simpl in Hnum; lia]. split; [done|].
    by intros (_ & ? & ? & ? & ? & ? & ? & [= <- _] & ? & _). }
  rewrite bind_Ok. split.
  - intros (a & Ha & Hrest). apply tiles_loop_Ok in Ha as (ts & Hf & ->).
    split; [by eexists|]. exists items, aprops, ts.
    destruct (arg info 1) as [| | | | | | | |lnglat lprops|] eqn:Ha1; simpl in Hrest;
      try done.
    destruct lnglat as [|lng_val [|lat_val [|]]]; try done.
    unfold element in Hrest. simpl in Hrest.
    destruct lng_val as [| | |lng| | | | | |]; try done.
    destruct lat_val as [| | |lat| | | | | |]; try done.
    simpl in Hrest. exists lng, lat, lprops.
    split; [done|]. split; [by destruct items|]. split; [done|]. split; [done|].
    simpl. case_bool_decide; [|by simplify_eq].
    destruct (IsObject (arg info 2)); [|done]. split; [done|]. simpl in Hrest.
    apply bind_Ok in Hrest as (d1 & H1 & Hrest).
    apply bind_Ok in Hrest as (d2 & H2 & Hrest).
    apply bind_Ok in Hrest as (d3 & H3 & Hrest).
    apply bind_Ok in Hrest as (d4 & H4 & Hrest).
    by exists d1, d2, d3, d4.
  - intros (_ & items' & aprops' & ts & lng & lat & lprops & [= <- <-] & _ & Hf
            & -> & Hrest).
    exists (with_tiles QueryData_init ts). split.
    { apply tiles_loop_Ok. by exists ts. }
    simpl. unfold element. simpl. simpl in Hrest.
    case_bool_decide; [|by subst].
    destruct Hrest as (-> & d1 & d2 & d3 & d4 & H1 & H2 & H3 & H4 & H5). simpl.
    apply bind_Ok. exists d1. split; [done|].
    apply bind_Ok. exists d2. split; [done|].
    apply bind_Ok. exists d3. split; [done|].
    apply bind_Ok. by exists d4.
Qed.


Lemma option_dedupe_not_Throw (options : napi_value) (query_data : QueryData)
    (msg : string) :
  option_dedupe options query_data <> Throw msg.
Proof. unfold option_dedupe. by repeat case_match. Qed.

Lemma option_radius_not_Throw (options : napi_value) (query_data : QueryData)
    (msg : string) :
  option_radius options query_data <> Throw msg.
Proof. unfold option_radius. by repeat case_match. Qed.

Lemma option_limit_not_Throw (options : napi_value) (query_data : QueryData)
    (msg : string) :
  option_limit options query_data <> Throw msg.
Proof. unfold option_limit. by repeat case_match. Qed.

Lemma layers_loop_not_Throw (items : list napi_value) (query_data : QueryData)
    (msg : string) :
  layers_loop items query_data <> Throw msg.
Proof.
  revert query_data. induction items as [|v items IH]; intros query_data; simpl; [done|].
  by repeat case_match.
Qed.

Lemma option_layers_not_Throw (options : napi_value) (query_data : QueryData)
    (msg : string) :
  option_layers options query_data <> Throw msg.
Proof.
  unfold option_layers. repeat case_match; try done. apply layers_loop_not_Throw.
Qed.

Lemma option_geometry_not_Throw (options : napi_value) (query_data : QueryData)
    (msg : string) :
  option_geometry options query_data <> Throw msg.
Proof. unfold option_geometry. by repeat case_match. Qed.

Lemma bind_Throw {A B : Type} (m : outcome A) (f : A -> outcome B) (msg : string) :
  (forall msg', m <> Throw msg') -> (forall a msg', f a <> Throw msg') ->
  m ≫= f <> Throw msg.
Proof.
  intros Hm Hf. destruct m as [a|msg'|msg']; simpl; [apply Hf|done|].
  by destruct (Hm msg').
Qed.

(** X1: [vtquery] throws a JavaScript exception exactly when there is no
    argument or the last argument is not a function, always with the
    message "last argument must be a callback function"; every other
    refusal is reported through the callback. *)
Theorem vtquery_throws (info : list napi_value) :
  (forall msg, vtquery info = Throw msg ->
               msg = "last argument must be a callback function"%string)
  /\ ((exists msg, vtquery info = Throw msg) <->
      ¬ exists cb, last info = Some cb /\ IsFunction cb = true).
Proof.
  assert (forall msg, vtquery info = Throw msg ->
            msg = "last argument must be a callback function"%string
            /\ ¬ exists cb, last info = Some cb /\ IsFunction cb = true) as Hthrow.
  { intros msg. unfold vtquery. rewrite last_arg.
    case_bool_decide as Hlen.
    { intros [= <-]. split; [done|]. by intros (cb & ? & _). }
    destruct (IsFunction (arg info (length info - 1))) eqn:Hcb; simpl.
    2:{ intros [= <-]. split; [done|]. intros (cb & [= <-] & ?). congruence. }
    intros Ht. exfalso. revert Ht.
    destruct (negb (IsArray (arg info 0))); [done|].
    destruct (bool_decide (length (items_of (arg info 0)) <= 0)); [done|].
    apply bind_Throw; [intros ?; apply tiles_loop_not_Throw|]. intros a msg'.
    destruct (negb (IsArray (arg info 1))); [done|].
    destruct (negb (bool_decide (length (items_of (arg info 1)) = 2))); [done|].
    destruct (negb (IsNumber (element (items_of (arg info 1)) 0))
              || negb (IsNumber (element (items_of (arg info 1)) 1))); [done|].
    destruct (bool_decide (3 < length info)); [|done].
    destruct (negb (IsObject (arg info 2))); [done|].
    repeat (apply bind_Throw; [intros ?; first [apply option_dedupe_not_Throw
                                     |apply option_radius_not_Throw
                                     |apply option_limit_not_Throw
                                     |apply option_layers_not_Throw]|intros ??]).
    apply option_geometry_not_Throw. }
  split; [intros msg Hm; by destruct (Hthrow _ Hm)|]. split.
  - intros (msg & Hm). by destruct (Hthrow _ Hm).
  - intros Hno. exists "last argument must be a callback function"%string.
    unfold vtquery. rewrite last_arg in Hno.
    case_bool_decide; [done|].
    destruct (IsFunction (arg info (length info - 1))) eqn:Hcb; simpl; [|done].
    destruct Hno. by eexists.
Qed.

End EntryPointMore.

Section Acceptance.

Context `{NodeApi}.

Lemma IsNumber_number (v : napi_value) :
  IsNumber v = true <-> exists n, v = nv_number n.
Proof. destruct v; simpl; split; try done; try (by intros (? & ?)); by eexists. Qed.

Lemma tile_ok_item (tile_val : napi_value) :
  tile_ok tile_val <-> exists t, tile_item tile_val = Ok t.
Proof.
  split.
  - intros (Ho & Hb & Hk).
    destruct (Hk "z"%string) as (z & Hz & Hz0); [by repeat constructor|].
    destruct (Hk "x"%string) as (x & Hx & Hx0); [by repeat constructor|].
    destruct (Hk "y"%string) as (y & Hy & Hy0); [by repeat constructor|].
    exists {| tile_z := Int32Value z; tile_x := Int32Value x;
              tile_y := Int32Value y; tile_data := Data (Get tile_val "buffer") |}.
    apply tile_item_Ok. rewrite Hz, Hx, Hy. simpl. done.
  - intros (t & Ht). apply tile_item_Ok in Ht
      as (Ho & Hb & Hz & Hx & Hy & Hz0 & Hx0 & Hy0 & ->).
    split; [done|]. split; [done|]. intros key Hkey. simpl in *.
    mem_cases Hkey; subst key.
    + apply IsNumber_number in Hz as (n & Hn). rewrite Hn in *. by exists n.
    + apply IsNumber_number in Hx as (n & Hn). rewrite Hn in *. by exists n.
    + apply IsNumber_number in Hy as (n & Hn). rewrite Hn in *. by exists n.
Qed.

Lemma tiles_ok_items (items : list napi_value) :
  Forall tile_ok items <-> exists ts, Forall2 (fun v t => tile_item v = Ok t) items ts.
Proof.
  induction items as [|v items IH].
  - split; [by exists []|done].
  - rewrite Forall_cons, IH, tile_ok_item. split.
    + intros [(t & Ht) (ts & Hts)]. exists (t :: ts). by constructor.
    + intros (ts & Hf). apply Forall2_cons_inv_l in Hf as (t & ts' & Ht & Hf & ->).
      split; by eexists.
Qed.

Lemma options_ok_run (options : napi_value) (base : QueryData) :
  options_ok options <->
  IsObject options = true
  /\ exists d1 d2 d3 d4 data,
       option_dedupe options base = Ok d1
       /\ option_radius options d1 = Ok d2
       /\ option_limit options d2 = Ok d3
       /\ option_layers options d3 = Ok d4
       /\ option_geometry options d4 = Ok data.
Proof.
  unfold options_ok.
  setoid_rewrite option_dedupe_Ok. setoid_rewrite option_radius_Ok.
  setoid_rewrite option_limit_Ok. setoid_rewrite option_layers_Ok.
  setoid_rewrite option_geometry_Ok.
  split.
  - intros (Ho & Hd & Hr & Hl & Hy & Hg). split; [done|].
    assert (exists d1, if Has options "dedupe"
              then exists b, Get options "dedupe" = nv_boolean b
                             /\ d1 = with_dedupe base b
              else d1 = base) as (d1 & H1).
    { destruct (Has options "dedupe"); [|by eexists].
      destruct (Get options "dedupe") as [| |b| | | | | | |]; try (by specialize (Hd eq_refl)).
      eexists. by exists b. }
    assert (exists d2, if Has options "radius"
              then exists r, Get options "radius" = nv_number r
                             /\ dbl_lt r dbl_zero = false /\ d2 = with_radius d1 r
              else d2 = d1) as (d2 & H2).
    { destruct (Has options "radius"); [|by eexists].
      destruct Hr as (r & Hr & Hr0); [done|]. eexists. by exists r. }
    assert (exists d3, if Has options "limit"
              then exists n, Get options "limit" = nv_number n
                             /\ (1 <= Int32Value n <= 1000)%Z
                             /\ d3 = with_limit d2 (Z.to_nat (Int32Value n))
              else d3 = d2) as (d3 & H3).
    { destruct (Has options "limit"); [|by eexists].
      destruct Hl as (n & Hn & Hn0); [done|]. eexists. by exists n. }
    assert (exists d4, if Has options "layers"
              then exists names props,
                     Get options "layers" = nv_array (nv_string <$> names) props
                     /\ Forall (fun s => s <> ""%string) names
                     /\ d4 = with_layers d3 (layers d3 ++ names)
              else d4 = d3) as (d4 & H4).
    { destruct (Has options "layers"); [|by eexists].
      destruct Hy as (names & props & Hn & Hn0); [done|]. eexists. by exists names, props. }
    assert (exists data, if Has options "geometry"
              then exists s g, Get options "geometry" = nv_string s
                     /\ (s, g) ∈ [("point", point); ("linestring", linestring);
                                  ("polygon", polygon)]%string
                     /\ data = with_geometry d4 g
              else data = d4) as (data & H5).
    { destruct (Has options "geometry"); [|by eexists].
      destruct Hg as (s & Hs & Hm); [done|].
      mem_cases Hm; subst s; eexists; eexists _, _; (split; [done|]);
        (split; [|reflexivity]).
      - apply list_elem_of_here.
      - apply list_elem_of_further, list_elem_of_here.
      - do 2 apply list_elem_of_further. apply list_elem_of_here. }
    by exists d1, d2, d3, d4, data.
  - intros (Ho & d1 & d2 & d3 & d4 & data & H1 & H2 & H3 & H4 & H5).
    split; [done|].
    split. { intros Hh. rewrite Hh in H1. destruct H1 as (b & -> & _). done. }
    split. { intros Hh. rewrite Hh in H2. destruct H2 as (r & ? & ? & _). by exists r. }
    split. { intros Hh. rewrite Hh in H3. destruct H3 as (n & ? & ? & _). by exists n. }
    split. { intros Hh. rewrite Hh in H4. destruct H4 as (names & props & ? & ? & _).
             by exists names, props. }
    intros Hh. rewrite Hh in H5. destruct H5 as (s & g & ? & Hm & _).
    exists s. split; [done|]. mem_cases Hm; simplify_eq; by repeat constructor.
Qed.

(** X2: a worker is queued exactly for the well-formed calls: the last
    argument is a function, the first a non-empty array of objects that
    each carry a buffer and numbers z, x, y whose int32 value is not
    negative, the second an array of two numbers, and, when there are
    more than three arguments, the third an object whose options, where
    present, are a boolean dedupe, a radius that is not below zero, a
    limit from 1 to 1000, an array of non-empty strings for layers, and
    one of the three geometry names. *)
Theorem vtquery_accepts_iff (info : list napi_value) :
  (exists data, vtquery info = Ok data) <-> well_formed info.
Proof.
  unfold well_formed. setoid_rewrite vtquery_Ok. split.
  - intros (data & Hcb & items & aprops & ts & lng & lat & lprops & Ha0 & Hne & Hf
            & Ha1 & Hrest).
    split; [done|]. split.
    { exists items, aprops. split; [done|]. split; [done|].
      apply tiles_ok_items. by exists ts. }
    split; [by exists lng, lat, lprops|].
    intros Hlen. simpl in Hrest. rewrite bool_decide_eq_true_2 in Hrest by done.
    destruct Hrest as (Ho & d1 & d2 & d3 & d4 & Hrun).
    eapply options_ok_run. split; [done|]. by exists d1, d2, d3, d4, data.
  - intros (Hcb & (items & aprops & Ha0 & Hne & Hok) & (lng & lat & lprops & Ha1) & Hopt).
    apply tiles_ok_items in Hok as (ts & Hf).
    destruct (decide (3 < length info)) as [Hlen|Hlen].
    + apply (options_ok_run _ (with_lnglat (with_tiles QueryData_init ts) lng lat))
        in Hopt as (Ho & d1 & d2 & d3 & d4 & data & Hrun); [|done].
      exists data. split; [done|]. exists items, aprops, ts, lng, lat, lprops.
      repeat (split; [done|]). simpl. rewrite bool_decide_eq_true_2 by done.
      split; [done|]. by exists d1, d2, d3, d4.
    + eexists. split; [done|]. exists items, aprops, ts, lng, lat, lprops.
      repeat (split; [done|]). simpl. by rewrite bool_decide_eq_false_2 by done.
Qed.

End Acceptance.

Section Reflection.

Context `{NodeApi}.

(** X3: the request a queued worker gets reflects the options: an option
    that was read holds the value passed (the limit as its int32 value,
    from 1 to 1000 inclusive; the geometry as the enumerator whose name
    in [GeomTypeStrings] is the string passed); an option that was not
    read, and every option of a call with at most three arguments, keeps
    the default: dedupe on, radius 0, limit 5, no layer filter, every
    geometry type. *)
Theorem vtquery_options (info : list napi_value) (data : QueryData) :
  vtquery info = Ok data ->
  let options := arg info 2 in
  (if given info "dedupe"
   then Get options "dedupe" = nv_boolean (dedupe data)
   else dedupe data = true)
  /\ (if given info "radius"
      then Get options "radius" = nv_number (radius data)
           /\ dbl_lt (radius data) dbl_zero = false
      else radius data = dbl_zero)
  /\ (if given info "limit"
      then exists n, Get options "limit" = nv_number n
                     /\ (1 <= Int32Value n <= 1000)%Z
                     /\ num_results data = Z.to_nat (Int32Value n)
      else num_results data = 5)
  /\ (if given info "layers"
      then exists props,
             Get options "layers" = nv_array (nv_string <$> layers data) props
             /\ Forall (fun s => s <> ""%string) (layers data)
      else layers data = [])
  /\ (if given info "geometry"
      then exists s, Get options "geometry" = nv_string s
                     /\ getGeomTypeString
                          (GeomType_value (geometry_filter_type data)) = Some s
                     /\ geometry_filter_type data ∈ [point; linestring; polygon]
      else geometry_filter_type data = all)
  /\ 1 <= num_results data <= 1000.
Proof.
  intros Hq. apply vtquery_Ok in Hq
    as (_ & items & aprops & ts & lng & lat & lprops & _ & _ & _ & _ & Hrest).
  simpl in Hrest. unfold given. simpl.
  case_bool_decide as Hlen; simpl.
  2:{ subst data. simpl. repeat split; lia. }
  destruct Hrest as (_ & d1 & d2 & d3 & d4 & H1 & H2 & H3 & H4 & H5).
  apply option_dedupe_Ok in H1. apply option_radius_Ok in H2.
  apply option_limit_Ok in H3. apply option_layers_Ok in H4.
  apply option_geometry_Ok in H5.
  assert (dedupe data = dedupe d1 /\ radius data = radius d2
          /\ num_results data = num_results d3 /\ layers data = layers d4)
    as (Ed & Er & En & El).
  { destruct (Has (arg info 2) "geometry");
      [destruct H5 as (? & ? & _ & _ & ->)|subst data];
    (destruct (Has (arg info 2) "layers");
      [destruct H4 as (? & ? & _ & _ & ->)|subst d4]);
    (destruct (Has (arg info 2) "limit");
      [destruct H3 as (? & _ & _ & ->)|subst d3]);
    (destruct (Has (arg info 2) "radius");
      [destruct H2 as (? & _ & _ & ->)|subst d2]); done. }
  assert (layers d3 = [] /\ num_results d2 = 5 /\ radius d1 = dbl_zero
          /\ geometry_filter_type d4 = all) as (El0 & En0 & Er0 & Eg0).
  { (destruct (Has (arg info 2) "layers");
      [destruct H4 as (? & ? & _ & _ & ->)|subst d4]);
    (destruct (Has (arg info 2) "limit");
      [destruct H3 as (? & _ & _ & ->)|subst d3]);
    (destruct (Has (arg info 2) "radius");
      [destruct H2 as (? & _ & _ & ->)|subst d2]);
    (destruct (Has (arg info 2) "dedupe");
      [destruct H1 as (? & _ & ->)|subst d1]); done. }
  rewrite Ed, Er, En, El. clear Ed Er El.
  split.
  { destruct (Has (arg info 2) "dedupe"); [by destruct H1 as (b & -> & ->)|by subst d1]. }
  split.
  { destruct (Has (arg info 2) "radius");
      [by destruct H2 as (r & -> & ? & ->)|by subst d2]. }
  split.
  { destruct (Has (arg info 2) "limit"); [|by subst d3].
    destruct H3 as (n & -> & ? & ->). by exists n. }
  split.
  { destruct (Has (arg info 2) "layers"); [|by subst d4].
    destruct H4 as (names & props & -> & ? & ->). simpl. rewrite El0. by exists props. }
  split.
  { destruct (Has (arg info 2) "geometry"); [|by subst data].
    destruct H5 as (s & g & -> & Hm & ->). exists s. split; [done|]. simpl.
    mem_cases Hm; simplify_eq; (split; [done|]); by repeat constructor. }
  destruct (Has (arg info 2) "limit"); [|subst d3; lia].
  destruct H3 as (n & _ & ? & ->). simpl. lia.
Qed.

(** X4: the request a queued worker gets holds one tile per item of the
    tiles array, in the order of the array, each with the bytes of the
    item's buffer and the int32 values of its z, x and y, none of them
    negative; the longitude is the first and the latitude the second
    element of the lnglat array. *)
Theorem vtquery_tiles_lnglat (info : list napi_value) (data : QueryData) :
  vtquery info = Ok data ->
  (exists items props,
      arg info 0 = nv_array items props
      /\ tiles data <> []
      /\ Forall2 (fun v t =>
                    tile_data t = Data (Get v "buffer")
                    /\ Get v "z" = nv_number (DoubleValue (Get v "z"))
                    /\ Get v "x" = nv_number (DoubleValue (Get v "x"))
                    /\ Get v "y" = nv_number (DoubleValue (Get v "y"))
                    /\ tile_z t = Int32Value (DoubleValue (Get v "z"))
                    /\ tile_x t = Int32Value (DoubleValue (Get v "x"))
                    /\ tile_y t = Int32Value (DoubleValue (Get v "y"))
                    /\ (0 <= tile_z t)%Z /\ (0 <= tile_x t)%Z /\ (0 <= tile_y t)%Z)
                 items (tiles data))
  /\ exists props,
       arg info 1 = nv_array [nv_number (longitude data); nv_number (latitude data)]
                             props.
Proof.
  intros Hq. apply vtquery_Ok in Hq
    as (_ & items & aprops & ts & lng & lat & lprops & Ha0 & Hne & Hf & Ha1 & Hrest).
  simpl in Hrest.
  assert (tiles data = ts /\ longitude data = lng /\ latitude data = lat)
    as (-> & -> & ->).
  { case_bool_decide; [|by subst data].
    destruct Hrest as (_ & d1 & d2 & d3 & d4 & H1 & H2 & H3 & H4 & H5).
    apply option_dedupe_Ok in H1. apply option_radius_Ok in H2.
    apply option_limit_Ok in H3. apply option_layers_Ok in H4.
    apply option_geometry_Ok in H5.
    destruct (Has (arg info 2) "geometry");
      [destruct H5 as (? & ? & _ & _ & ->)|subst data];
    (destruct (Has (arg info 2) "layers");
      [destruct H4 as (? & ? & _ & _ & ->)|subst d4]);
    (destruct (Has (arg info 2) "limit");
      [destruct H3 as (? & _ & _ & ->)|subst d3]);
    (destruct (Has (arg info 2) "radius");
      [destruct H2 as (? & _ & _ & ->)|subst d2]);
    (destruct (Has (arg info 2) "dedupe");
      [destruct H1 as (? & _ & ->)|subst d1]); done. }
  split; [|by exists lprops].
  exists items, aprops. split; [done|].
  split. { intros ->. apply Forall2_nil_inv_r in Hf. done. }
  eapply Forall2_impl; [exact Hf|]. intros v t Ht. simpl in Ht.
  apply tile_item_Ok in Ht as (_ & _ & Hz & Hx & Hy & Hz0 & Hx0 & Hy0 & ->).
  simpl in *.
  apply IsNumber_number in Hz as (z & Hz), Hx as (x & Hx), Hy as (y & Hy).
  rewrite Hz, Hx, Hy in *. done.
Qed.

(** X5: arguments between the options and the callback are never read:
    a call with more than four arguments behaves as the call with its
    first three arguments and its last. *)
Theorem vtquery_extra_arguments (tiles_val lnglat_val options_val cb : napi_value)
    (extra : list napi_value) :
  vtquery (tiles_val :: lnglat_val :: options_val :: extra ++ [cb])
  = vtquery [tiles_val; lnglat_val; options_val; cb].
Proof.
  unfold vtquery.
  assert (arg (tiles_val :: lnglat_val :: options_val :: extra ++ [cb])
              (length (tiles_val :: lnglat_val :: options_val :: extra ++ [cb]) - 1)
          = cb) as ->.
  { pose proof (last_arg (tiles_val :: lnglat_val :: options_val :: extra ++ [cb]))
      as Hl.
    rewrite bool_decide_eq_false_2 in Hl by done.
    rewrite !last_cons, last_snoc in Hl. by simplify_eq. }
  cbn [length]. rewrite length_app. cbn [length].
  rewrite !bool_decide_eq_false_2 by lia.
  rewrite !(bool_decide_eq_true_2 (3 < _)) by lia.
  reflexivity.
Qed.

End Reflection.

Section Origin.

Context `{Collaborators}.

(** X6: every feature of the FeatureCollection is the candidate made
    from one feature of a layer of one of the decoded tiles, a layer
    that the layer filter selects: layer name, properties, id and
    geometry type of a result are all those of that one feature. *)
Theorem emitted_origin (data : QueryData) (fc : FeatureCollection) :
  Worker data = Some fc ->
  exists decoded rs,
    decode_tiles data = Some decoded
    /\ features fc = (Some ∘ feature_of) <$> rs
    /\ Forall (fun r =>
                 exists tile z x y layer f,
                   (tile, z, x, y) ∈ decoded /\ layer ∈ tile
                   /\ f ∈ l_features layer
                   /\ (layers data = [] \/ l_name layer ∈ layers data)
                   /\ candidate data (l_name layer) (l_extent layer) z x y
                        (create_query_point (longitude data) (latitude data)
                                            (l_extent layer) z x y) f = Some r
                   /\ layer_name r = l_name layer
                   /\ properties_vector r = f_properties f
                   /\ has_id r = f_has_id f /\ id_ r = f_id f
                   /\ original_geometry_type r = get_geometry_type f) rs.
Proof.
  intros Hw. apply Worker_features in Hw as (decoded & Hd & Hf).
  exists decoded, (emitted (traverse data decoded)).
  split; [done|]. split; [done|].
  apply Forall_forall. intros r Hr.
  apply traverse_origin, encounter_origin in Hr
    as (tile & z & x & y & layer & f & Ht & Hl & Hin & Hsel & Hc).
  exists tile, z, x, y, layer, f. repeat (split; [done|]).
  apply candidate_Some in Hc as (_ & _ & _ & ->). done.
Qed.

(** X7: with a layer filter, every feature of the FeatureCollection
    carries in [tilequery.layer] one of the layer names asked for. *)
Theorem layer_filter (data : QueryData) (fc : FeatureCollection) :
  layers data <> [] ->
  Worker data = Some fc ->
  forall o, Some o ∈ features fc ->
    exists t, fo_tilequery o = Some t /\ tq_layer t ∈ layers data.
Proof.
  intros Hne Hw o Ho. apply Worker_features in Hw as (decoded & Hd & Hf).
  rewrite Hf in Ho. apply list_elem_of_fmap in Ho as (r & [= ->] & Hr).
  rewrite feature_of_tilequery. eexists. split; [done|]. simpl.
  apply traverse_origin, encounter_origin in Hr
    as (tile & z & x & y & layer & f & _ & _ & _ & [Hsel|Hsel] & Hc); [done|].
  apply candidate_Some in Hc as (_ & _ & _ & ->). done.
Qed.

Lemma geometry_filter_emitted (data : QueryData) (decoded : list decoded_tile)
    (r : ResultObject) :
  geometry_filter_type data <> all ->
  r ∈ emitted (traverse data decoded) ->
  original_geometry_type r = geometry_filter_type data.
Proof.
  intros Hne Hr.
  apply traverse_origin, encounter_origin in Hr
    as (tile & z & x & y & layer & f & _ & _ & _ & _ & Hc).
  apply candidate_Some in Hc as ([Hg|Hg] & _ & _ & ->); [done|]. by rewrite Hg.
Qed.

End Origin.

Section GeometryOption.

Context `{NodeApi} `{Collaborators}.

Lemma vtquery_geometry_read (info : list napi_value) (data : QueryData) (s : string) :
  vtquery info = Ok data ->
  given info "geometry" = true ->
  Get (arg info 2) "geometry" = nv_string s ->
  getGeomTypeString (GeomType_value (geometry_filter_type data)) = Some s
  /\ geometry_filter_type data <> all.
Proof.
  intros Hq Hg Hs. apply vtquery_Ok in Hq
    as (_ & items & aprops & ts & lng & lat & lprops & _ & _ & _ & _ & Hrest).
  simpl in Hrest. unfold given in Hg. apply andb_true_iff in Hg as [Hlen Hhas].
  rewrite Hlen in Hrest.
  destruct Hrest as (_ & d1 & d2 & d3 & d4 & _ & _ & _ & _ & H5).
  apply option_geometry_Ok in H5. rewrite Hhas in H5.
  destruct H5 as (s' & g & Hs' & Hm & ->). rewrite Hs in Hs'. injection Hs' as <-.
  simpl. mem_cases Hm; by simplify_eq.
Qed.

(** X8: the geometry option comes back: when [vtquery] read the option
    geometry with the string [s], every feature of the FeatureCollection
    that the queued worker produces has [tilequery.geometry] equal to
    [s]. *)
Theorem geometry_option_round_trip (info : list napi_value) (data : QueryData)
    (fc : FeatureCollection) (s : string) :
  vtquery info = Ok data ->
  given info "geometry" = true ->
  Get (arg info 2) "geometry" = nv_string s ->
  Worker data = Some fc ->
  forall o, Some o ∈ features fc ->
    exists t, fo_tilequery o = Some t /\ tq_geometry t = Some s.
Proof.
  intros Hq Hg Hs Hw o Ho.
  destruct (vtquery_geometry_read info data s Hq Hg Hs) as [Hname Hne].
  apply Worker_features in Hw as (decoded & Hd & Hf).
  rewrite Hf in Ho. apply list_elem_of_fmap in Ho as (r & [= ->] & Hr).
  rewrite feature_of_tilequery. eexists. split; [done|]. simpl.
  by rewrite (geometry_filter_emitted data decoded r).
Qed.

End GeometryOption.

Section Failure.

Context `{Collaborators}.

(** X9: for tiles whose bytes (decompressed where they are gzip data)
    can be read, the request fails exactly when one of the compressed
    tiles fails to decompress, wherever that tile stands in the list and
    whatever the filters, the radius and the limit are: the buffers are
    decompressed before the first tile is traversed, and no partial
    collection is returned. *)
Theorem decompress_failure_fails (data : QueryData) :
  Forall (fun tile_obj =>
            forall b,
              (if is_compressed (tile_data tile_obj)
               then decompress (tile_data tile_obj)
               else Some (tile_data tile_obj)) = Some b ->
              is_Some (read_tile b)) (tiles data) ->
  Worker data = None <->
  exists tile_obj,
    tile_obj ∈ tiles data
    /\ is_compressed (tile_data tile_obj) = true
    /\ decompress (tile_data tile_obj) = None.
Proof.
  intros Hread. unfold Worker, Execute.
  destruct (mapM decode_tile (tiles data)) as [decoded|] eqn:Hm; simpl.
  - split; [done|]. intros (tile_obj & Hin & Hc & Hd). exfalso.
    assert (is_Some (mapM decode_tile (tiles data))) as Hs by by eexists.
    apply mapM_is_Some in Hs. rewrite Forall_forall in Hs.
    specialize (Hs _ Hin). simpl in Hs. unfold decode_tile in Hs.
    rewrite Hc, Hd in Hs. by destruct Hs.
  - split; [intros _|done].
    apply eq_None_not_Some in Hm. rewrite mapM_is_Some in Hm.
    apply not_Forall_Exists in Hm; [|intros x; apply _].
    apply Exists_exists in Hm as (tile_obj & Hin & Hn).
    exists tile_obj. split; [done|].
    rewrite Forall_forall in Hread. specialize (Hread _ Hin).
    simpl in Hn. unfold decode_tile in Hn.
    destruct (is_compressed (tile_data tile_obj)).
    + split; [done|].
      destruct (decompress (tile_data tile_obj)) as [b|]; [|done].
      exfalso. apply Hn. destruct (Hread b eq_refl) as [tile Ht]. simpl.
      rewrite Ht. by eexists.
    + exfalso. apply Hn.
      destruct (Hread _ eq_refl) as [tile Ht]. rewrite Ht. by eexists.
Qed.

Lemma traverse_with_tiles (data : QueryData) (ts : list TileObject)
    (decoded : list decoded_tile) :
  traverse (with_tiles data ts) decoded = traverse data decoded.
Proof. by rewrite !traverse_offer, encounter_with_tiles. Qed.

Lemma Worker_decoded (data : QueryData) (ts ts' : list TileObject) :
  mapM decode_tile ts = mapM decode_tile ts' ->
  Worker (with_tiles data ts) = Worker (with_tiles data ts').
Proof.
  intros Hm. unfold Worker, Execute. cbn [tiles with_tiles]. rewrite Hm.
  destruct (mapM decode_tile ts') as [decoded|]; simpl; [|done].
  by rewrite !traverse_with_tiles.
Qed.

(** X10: a gzip-compressed tile gives the same result as the tile that
    holds its decompressed bytes, the other tiles and the request being
    the same. *)
Theorem compressed_tile_transparent (data : QueryData) (ts1 ts2 : list TileObject)
    (tile_obj : TileObject) (b : buffer) :
  is_compressed (tile_data tile_obj) = true ->
  decompress (tile_data tile_obj) = Some b ->
  is_compressed b = false ->
  Worker (with_tiles data (ts1 ++ tile_obj :: ts2))
  = Worker (with_tiles data (ts1 ++ with_data tile_obj b :: ts2)).
Proof.
  intros Hc Hd Hb. apply Worker_decoded.
  assert (decode_tile tile_obj = decode_tile (with_data tile_obj b)) as Ht.
  { unfold decode_tile. simpl. by rewrite Hc, Hd, Hb. }
  induction ts1 as [|t ts1 IH]; simpl.
  - by rewrite Ht.
  - by rewrite IH.
Qed.

End Failure.

Lemma offer_covers (b : bool) (q : list ResultObject) (c : ResultObject) :
  wfq q -> q <> [] -> is_num (distance c) ->
  exists r, r ∈ offer b q c /\ (rk r <= rk c)%Z.
Proof.
  intros [Hn Hs] Hne Hc. unfold offer.
  destruct (if b then find_dup c q else None) as [i|] eqn:Hd.
  - destruct b; [|done]. apply find_dup_Some in Hd as (r & Hr & _ & _).
    rewrite Hr. simpl.
    assert (r ∈ q) as Hin by by eapply list_elem_of_lookup_2.
    assert (is_num (distance r)) as Hrn by by eapply Forall_forall in Hn.
    destruct (dbl_le (distance c) (distance r)) eqn:Hle.
    + exists c. split; [|lia]. rewrite stable_sort_Permutation.
      apply list_elem_of_lookup. exists i. apply list_lookup_insert_eq.
      by eapply lookup_lt_Some.
    + exists r. split; [done|]. rewrite dbl_le_num in Hle by done.
      apply Z.leb_gt in Hle. unfold rk. lia.
  - destruct (last_is_Some_ne q Hne) as (r & Hl & Hr). rewrite Hl. simpl.
    assert (r ∈ q) as Hin by by eapply list_elem_of_lookup_2.
    assert (is_num (distance r)) as Hrn by by eapply Forall_forall in Hn.
    destruct (dbl_lt (distance c) (distance r)) eqn:Hlt.
    + exists c. split; [|lia]. rewrite stable_sort_Permutation.
      apply list_elem_of_lookup. exists (pred (length q)). apply list_lookup_insert_eq.
      by eapply lookup_lt_Some.
    + exists r. split; [done|]. rewrite dbl_lt_num in Hlt by done.
      apply Z.ltb_ge in Hlt. unfold rk. lia.
Qed.

Lemma offer_keeps_cover (b : bool) (q : list ResultObject) (c' : ResultObject) (z : Z) :
  (exists r, r ∈ q /\ (rk r <= z)%Z) ->
  exists r, r ∈ offer b q c' /\ (rk r <= z)%Z.
Proof.
  intros (r & Hin & Hle).
  destruct (offer_cases b q c') as [->|(i & r0 & Hr0 & Hle0 & ->)]; [by exists r|].
  apply list_elem_of_lookup in Hin as (j & Hj).
  destruct (decide (j = i)) as [->|Hji].
  - assert (r = r0) as -> by congruence.
    exists c'. split.
    + rewrite stable_sort_Permutation. apply list_elem_of_lookup. exists i.
      apply list_lookup_insert_eq. by eapply lookup_lt_Some.
    + apply dbl_le_rank in Hle0 as (_ & _ & Hle0). unfold rk in *. lia.
  - exists r. split; [|done]. rewrite stable_sort_Permutation.
    apply list_elem_of_lookup. exists j. by rewrite list_lookup_insert_ne by congruence.
Qed.

Lemma foldl_offer_keeps_cover (b : bool) (cs q : list ResultObject) (z : Z) :
  (exists r, r ∈ q /\ (rk r <= z)%Z) ->
  exists r, r ∈ foldl (offer b) q cs /\ (rk r <= z)%Z.
Proof.
  revert q. induction cs as [|c cs IH]; intros q Hq; simpl; [done|].
  apply IH. by apply offer_keeps_cover.
Qed.

Lemma foldl_offer_covers (b : bool) (cs q : list ResultObject) (c : ResultObject) :
  wfq q -> q <> [] -> c ∈ cs -> is_num (distance c) ->
  exists r, r ∈ foldl (offer b) q cs /\ (rk r <= rk c)%Z.
Proof.
  revert q. induction cs as [|c0 cs IH]; intros q Hq Hne Hc Hn; simpl.
  { by apply elem_of_nil in Hc. }
  apply elem_of_cons in Hc as [->|Hc].
  - apply foldl_offer_keeps_cover. by apply offer_covers.
  - apply IH; [by apply offer_wfq|by apply offer_ne_nil|done|done].
Qed.

Section Nearest.

Context `{Collaborators}.

(** X11: with room for at least one result, the first feature of the
    FeatureCollection is at least as near as every candidate with a
    distance below the sentinel, with or without dedupe. *)
Theorem nearest_first (data : QueryData) (decoded : list decoded_tile)
    (c : ResultObject) :
  0 < num_results data ->
  decode_tiles data = Some decoded ->
  c ∈ encounter data decoded ->
  dbl_lt (distance c) DBL_MAX = true ->
  exists fc o,
    Worker data = Some fc
    /\ features fc !! 0 = Some (Some o)
    /\ dbl_le (fo_distance o) (distance c) = true.
Proof.
  intros Hk Hd Hc Hlive.
  pose proof (dbl_lt_is_num _ _ Hlive) as [Hcn _].
  rewrite (decoded_Worker data decoded Hd).
  pose proof (traverse_wfq data decoded) as Hwf.
  pose proof (traverse_length data decoded) as Hlen.
  destruct (foldl_offer_covers (dedupe data) (encounter data decoded)
              (replicate (num_results data) ResultObject_default) c)
    as (r & Hr & Hle); [apply initial_wfq| |done|done|].
  { destruct (num_results data); [lia|done]. }
  rewrite <- traverse_offer in Hr.
  destruct (traverse data decoded) as [|r0 q] eqn:Hq; [by apply elem_of_nil in Hr|].
  destruct Hwf as [Hn Hs]. apply sortedq_cons in Hs as [_ Hs].
  apply numq_cons in Hn as [Hr0 Hn].
  assert ((rk r0 <= rk c)%Z) as Hr0c.
  { apply elem_of_cons in Hr as [->|Hr]; [done|].
    rewrite Forall_forall in Hs. specialize (Hs _ Hr). lia. }
  assert (dbl_lt (distance r0) DBL_MAX = true) as Hr0l.
  { apply emitted_rank; [done|]. apply emitted_rank in Hlive; [lia|done]. }
  eexists _, (feature_of r0). split; [done|]. split.
  - simpl. unfold emitted. by rewrite filter_cons_True.
  - rewrite feature_of_distance. by apply dbl_le_rank.
Qed.

End Nearest.

Lemma sort_insert_place_comm (x c : ResultObject) (l : list ResultObject) :
  is_num (distance x) -> is_num (distance c) -> numq l ->
  sort_insert CompareDistance x (place c l) = place c (sort_insert CompareDistance x l).
Proof.
  intros Hx Hc Hl. induction l as [|y l IH]; simpl.
  - rewrite !CompareDistance_rk by done.
    destruct (Z.ltb_spec (rk c) (rk x)); done.
  - apply numq_cons in Hl as [Hy Hl]. specialize (IH Hl).
    rewrite !(CompareDistance_rk c y), !(CompareDistance_rk y x) by done.
    destruct (Z.ltb_spec (rk c) (rk y)) as [Hcy|Hcy];
      destruct (Z.ltb_spec (rk y) (rk x)) as [Hyx|Hyx]; simpl;
      rewrite ?(CompareDistance_rk c y), ?(CompareDistance_rk y x),
              ?(CompareDistance_rk c x) by done.
    + destruct (Z.ltb_spec (rk c) (rk x)); [|lia].
      destruct (Z.ltb_spec (rk y) (rk x)); [|lia].
      destruct (Z.ltb_spec (rk c) (rk y)); [done|lia].
    + destruct (Z.ltb_spec (rk c) (rk x)).
      * destruct (Z.ltb_spec (rk y) (rk x)); [lia|done].
      * destruct (Z.ltb_spec (rk c) (rk y)); [done|lia].
    + destruct (Z.ltb_spec (rk y) (rk x)); [|lia].
      destruct (Z.ltb_spec (rk c) (rk y)); [lia|]. by rewrite IH.
    + destruct (Z.ltb_spec (rk y) (rk x)); [lia|].
      destruct (Z.ltb_spec (rk c) (rk x)); [lia|].
      destruct (Z.ltb_spec (rk c) (rk y)); [lia|done].
Qed.

Lemma numq_stable_sort (l : list ResultObject) :
  numq l -> numq (stable_sort CompareDistance l).
Proof. unfold numq. by rewrite stable_sort_Permutation. Qed.

Lemma stable_sort_snoc (l : list ResultObject) (c : ResultObject) :
  numq l -> is_num (distance c) ->
  stable_sort CompareDistance (l ++ [c]) = place c (stable_sort CompareDistance l).
Proof.
  intros Hl Hc. rewrite stable_sort_app. simpl.
  induction l as [|x l IH]; simpl; [done|].
  apply numq_cons in Hl as [Hx Hl]. rewrite IH by done.
  apply sort_insert_place_comm; [done|done|by apply numq_stable_sort].
Qed.

Lemma place_app (c y : ResultObject) (l1 l2 : list ResultObject) :
  CompareDistance c y = true -> place c (l1 ++ y :: l2) = place c l1 ++ y :: l2.
Proof.
  intros Hy. induction l1 as [|x l1 IH]; simpl; [by rewrite Hy|].
  destruct (CompareDistance c x); [done|]. by rewrite IH.
Qed.

Lemma emitted_app (l1 l2 : list ResultObject) :
  emitted (l1 ++ l2) = emitted l1 ++ emitted l2.
Proof. apply filter_app. Qed.

Lemma emitted_all (l : list ResultObject) :
  Forall (fun r => dbl_lt (distance r) DBL_MAX = true) l -> emitted l = l.
Proof.
  induction 1 as [|x l Hx Hl IH]; [done|]. unfold emitted in *.
  by rewrite filter_cons_True, IH.
Qed.

Lemma emitted_none (l : list ResultObject) :
  Forall (fun r => ¬ dbl_lt (distance r) DBL_MAX = true) l -> emitted l = [].
Proof.
  induction 1 as [|x l Hx Hl IH]; [done|]. unfold emitted in *.
  by rewrite filter_cons_False.
Qed.

Lemma emitted_emitted (l : list ResultObject) :
  Forall (fun r => dbl_lt (distance r) DBL_MAX = true) (emitted l).
Proof. apply Forall_forall. intros r Hr. by apply emitted_elem_of in Hr as [? _]. Qed.

(** A queue with room for every candidate holds all of them in order. *)
Lemma offer_all_fit (cs : list ResultObject) (m : nat) :
  length cs <= m ->
  foldl (offer false) (replicate m ResultObject_default) cs
  = stable_sort CompareDistance (emitted cs)
    ++ replicate (m - length (emitted cs)) ResultObject_default.
Proof.
  induction cs as [|c cs IH] using rev_ind; intros Hm.
  { simpl. by rewrite Nat.sub_0_r. }
  rewrite length_app in Hm. simpl in Hm.
  rewrite foldl_snoc.
  pose proof (foldl_offer_wfq false cs _ (initial_wfq m)) as Hwf.
  rewrite IH in * by lia. clear IH.
  pose proof (emitted_length cs) as He.
  set (L := stable_sort CompareDistance (emitted cs)) in *.
  assert (length L = length (emitted cs)) as HL by apply stable_sort_length.
  destruct (m - length (emitted cs)) as [|j] eqn:Hj; [lia|].
  rewrite replicate_S_end, app_assoc in *.
  rewrite emitted_app.
  rewrite (offer_back_closed false _ c ResultObject_default Hwf eq_refl)
    by by rewrite last_snoc.
  rewrite length_app. simpl. rewrite Nat.add_1_r. simpl.
  rewrite take_app_length.
  change (distance ResultObject_default) with DBL_MAX.
  destruct (dbl_lt (distance c) DBL_MAX) eqn:Hc.
  - rewrite (emitted_all [c]) by (by apply Forall_singleton).
    rewrite stable_sort_snoc;
      [|eapply Forall_impl; [apply emitted_emitted|];
        simpl; intros r Hr; by apply dbl_lt_is_num in Hr as [? _]
       |by apply dbl_lt_is_num in Hc as [? _]].
    fold L. rewrite length_app. simpl.
    replace (m - (length (emitted cs) + 1)) with j by lia.
    destruct j as [|j]; [simpl; by rewrite !app_nil_r|].
    simpl. by rewrite place_app.
  - rewrite (emitted_none [c]) by (apply Forall_singleton; by rewrite Hc).
    rewrite app_nil_r. fold L.
    replace (m - length (emitted cs)) with (S j) by lia.
    by rewrite replicate_S_end, app_assoc.
Qed.

Section NearestWithoutDedupe.

Context `{Collaborators}.

Lemma traverse_without_dedupe (data : QueryData) (decoded : list decoded_tile) :
  dedupe data = false ->
  emitted (traverse data decoded)
  = take (num_results data)
         (stable_sort CompareDistance (emitted (encounter data decoded))).
Proof.
  intros Hd. rewrite traverse_offer, Hd.
  set (cs := encounter data decoded). set (k := num_results data).
  replace (replicate k ResultObject_default)
    with (take k (replicate (k + length cs) ResultObject_default))
    by (rewrite take_replicate; f_equal; lia).
  rewrite foldl_offer_take by apply initial_wfq.
  rewrite offer_all_fit by lia.
  rewrite take_app, emitted_app.
  rewrite (emitted_none (take _ (replicate _ _))).
  2:{ apply Forall_forall. intros r Hr.
      apply subseteq_take, elem_of_replicate in Hr as [-> _]. by vm_compute. }
  rewrite app_nil_r. apply emitted_all.
  apply Forall_forall. intros r Hr. apply subseteq_take in Hr.
  rewrite stable_sort_Permutation in Hr. by apply emitted_elem_of in Hr as [? _].
Qed.

(** X12: without dedupe the FeatureCollection holds exactly the first
    [limit] candidates of the stable sort by distance of all candidates
    with a distance below the sentinel, in that order. *)
Theorem nearest_without_dedupe (data : QueryData) (decoded : list decoded_tile) :
  dedupe data = false ->
  decode_tiles data = Some decoded ->
  exists fc,
    Worker data = Some fc
    /\ features fc
       = (Some ∘ feature_of)
           <$> take (num_results data)
                    (stable_sort CompareDistance
                       (emitted (encounter data decoded))).
Proof.
  intros Hd Hdec. eexists. split; [by apply decoded_Worker|]. simpl.
  by rewrite traverse_without_dedupe.
Qed.

End NearestWithoutDedupe.

Lemma array_get_set (i j : nat) (v : feature_obj) (a : js_array) :
  array_get (array_set i v a) j = if decide (j = i) then Some v else array_get a j.
Proof.
  unfold array_get, array_set. destruct (decide (i < length a)) as [Hi|Hi].
  - destruct (decide (j = i)) as [->|Hj].
    + by rewrite list_lookup_insert_eq.
    + by rewrite list_lookup_insert_ne by congruence.
  - destruct (decide (j < length a)) as [Hja|Hja].
    + rewrite lookup_app_l by done. destruct (decide (j = i)); [lia|done].
    + rewrite lookup_app_r by lia. rewrite (lookup_ge_None_2 a j) by lia.
      destruct (decide (j < i)) as [Hji|Hji].
      * rewrite lookup_app_l by (rewrite length_replicate; lia).
        rewrite lookup_replicate_2 by lia. destruct (decide (j = i)); [lia|done].
      * rewrite lookup_app_r by (rewrite length_replicate; lia).
        rewrite length_replicate.
        destruct (decide (j = i)) as [->|Hne].
        -- by replace (i - length a - (i - length a)) with 0 by lia.
        -- rewrite lookup_ge_None_2; [done|]. simpl. lia.
Qed.

Lemma array_set_length (i : nat) (v : feature_obj) (a : js_array) :
  length (array_set i v a) = length a `max` S i.
Proof.
  unfold array_set. destruct (decide (i < length a)).
  - rewrite length_insert. lia.
  - rewrite !length_app, length_replicate. simpl. lia.
Qed.

Lemma OnOK_loop_get (p : list ResultObject) (arr : js_array) (i : nat) :
  array_get (OnOK_loop (reverse p) arr) i
  = match p !! i with
    | Some r => if dbl_lt (distance r) DBL_MAX
                then Some (make_feature_obj r) else array_get arr i
    | None => array_get arr i
    end.
Proof.
  revert arr. induction p as [|r p IH] using rev_ind; intros arr; [done|].
  rewrite reverse_snoc. cbn [OnOK_loop]. rewrite IH, length_reverse.
  destruct (decide (i < length p)) as [Hi|Hi].
  - rewrite lookup_app_l by done.
    destruct (p !! i) as [r'|] eqn:Hr'; [|by apply lookup_ge_None in Hr'; lia].
    destruct (dbl_lt (distance r') DBL_MAX); [done|].
    destruct (dbl_lt (distance r) DBL_MAX); [|done].
    rewrite array_get_set. destruct (decide (i = length p)); [lia|done].
  - rewrite (lookup_ge_None_2 p i) by lia. rewrite lookup_app_r by lia.
    destruct (decide (i = length p)) as [->|Hne].
    + rewrite Nat.sub_diag. simpl.
      destruct (dbl_lt (distance r) DBL_MAX); [|done].
      rewrite array_get_set. by rewrite decide_True.
    + rewrite lookup_ge_None_2 by (simpl; lia).
      destruct (dbl_lt (distance r) DBL_MAX); [|done].
      rewrite array_get_set. by rewrite decide_False.
Qed.

Lemma OnOK_loop_length (p : list ResultObject) (arr : js_array) :
  length (OnOK_loop (reverse p) arr) <= length arr `max` length p.
Proof.
  revert arr. induction p as [|r p IH] using rev_ind; intros arr; [simpl; lia|].
  rewrite reverse_snoc. cbn [OnOK_loop]. rewrite length_app. simpl.
  etrans; [apply IH|]. rewrite length_reverse.
  destruct (dbl_lt (distance r) DBL_MAX); [|lia].
  rewrite array_set_length. lia.
Qed.

(** X13: [OnOK] puts the feature made from slot [i] of the queue at
    index [i] of the features array, for the slots with a distance below
    the sentinel; the other indices are not set, and the array is never
    longer than the queue. *)
Theorem OnOK_slots (results_queue_ : list ResultObject) :
  (forall i,
      array_get (features (OnOK results_queue_)) i
      = results_queue_ !! i ≫= fun feature =>
          if dbl_lt (distance feature) DBL_MAX
          then Some (make_feature_obj feature) else None)
  /\ length (features (OnOK results_queue_)) <= length results_queue_.
Proof.
  split.
  - intros i. simpl. rewrite OnOK_loop_get.
    destruct (results_queue_ !! i) as [r|]; simpl; [|done].
    by destruct (dbl_lt (distance r) DBL_MAX).
  - simpl. etrans; [apply OnOK_loop_length|]. simpl. lia.
Qed.






Section Dense.

Context `{Collaborators}.

(** X15: the features array has no holes: its length is the number of
    slots with a distance below the sentinel, and every index below its
    length holds the feature made from the slot of the queue with the
    same index. *)
Theorem features_dense (data : QueryData) (fc : FeatureCollection) :
  Worker data = Some fc ->
  exists q,
    Execute data = Some q
    /\ length (features fc)
       = length (filter (fun r => dbl_lt (distance r) DBL_MAX = true) q)
    /\ forall i, i < length (features fc) ->
         exists r, q !! i = Some r
                   /\ array_get (features fc) i = Some (make_feature_obj r).
Proof.
  intros Hw. unfold Worker in Hw.
  destruct (Execute data) as [q|] eqn:Hq; [|done]. injection Hw as <-.
  exists q. split; [done|].
  assert (wfq q) as Hwf.
  { unfold Execute in Hq.
    destruct (mapM decode_tile (tiles data)) as [decoded|]; [|done].
    injection Hq as <-. apply materialize_wfq, traverse_wfq. }
  rewrite OnOK_features by done. rewrite length_fmap. split; [done|].
  intros i Hi. fold (emitted q) in Hi.
  destruct (lookup_lt_is_Some_2 (emitted q) i Hi) as [r Hr].
  exists r. split.
  - rewrite (emitted_prefix q Hwf). apply lookup_app_l_Some. done.
  - unfold array_get. by rewrite list_lookup_fmap, Hr.
Qed.

End Dense.

Section DedupeNearest.

Context `{Collaborators}.

(** X16: with dedupe, when either every feature has an id or none has
    and features of unknown geometry type are rejected, an emitted
    result is the nearest of its duplicates: no candidate that is a
    duplicate of it has a smaller distance, and the result is the last
    candidate met among those of its class and distance. *)
Theorem dedupe_keeps_nearest (data : QueryData) (decoded : list decoded_tile)
    (r c : ResultObject) :
  dedupe data = true ->
  ids_uniform decoded ->
  unknown_rejected decoded ->
  r ∈ emitted (traverse data decoded) ->
  c ∈ encounter data decoded ->
  duplicates r c ->
  dbl_lt (distance c) (distance r) = false
  /\ last (filter (matches r) (encounter data decoded)) = Some r.
Proof.
  intros Hd [b Hb] Hk Hr Hc Hdup.
  pose proof (encounter_good data decoded b Hk Hb) as Hgood.
  rewrite traverse_offer, Hd in Hr.
  destruct (num_results data) as [|n] eqn:Hn.
  { simpl in Hr. clear -Hr. exfalso.
    induction (encounter data decoded) as [|x l IH]; simpl in Hr.
    - by apply elem_of_nil in Hr.
    - rewrite offer_nil in Hr. by apply IH. }
  pose proof (foldl_run b (encounter data decoded)
                (replicate (S n) ResultObject_default) [] ltac:(done)
                (initial_run_inv b (S n)) Hgood) as Hrun.
  simpl in Hrun. destruct Hrun as ((Hwf & Hok & Hnd) & Hdom & Hlat).
  set (q := foldl (offer true) (ResultObject_default :: replicate n ResultObject_default)
                  (encounter data decoded)) in *.
  simpl in Hr. fold q in Hr.
  apply emitted_elem_of in Hr as [Hlive Hr].
  rewrite Forall_forall in Hok, Hdom, Hlat, Hgood.
  pose proof (Hok r Hr) as Hrok. pose proof (Hgood c Hc) as Hcg.
  apply is_dup_iff in Hdup. apply (is_dup_slot b r c Hrok Hcg) in Hdup as [Hrl Hcls].
  split; [|by apply Hlat].
  destruct (Hdom c Hc) as [(r' & Hr' & Hl' & Hcls' & Hlt)|[Habsent _]].
  - apply list_elem_of_lookup in Hr as (i & Hi).
    apply list_elem_of_lookup in Hr' as (j & Hj).
    assert (i = j) as -> by (eapply nodup_cls_unique; eauto; congruence).
    by simplify_eq.
  - by destruct (Habsent r Hr Hrl).
Qed.

(** X20: with dedupe, under the same conditions and with room for at
    least one result, no candidate is lost without cause: for every
    candidate with a distance below the sentinel, either a duplicate of
    it that is not farther is emitted, or the result is full and every
    emitted feature is at least as near as the candidate. *)
Theorem dedupe_complete (data : QueryData) (decoded : list decoded_tile)
    (c : ResultObject) :
  dedupe data = true ->
  0 < num_results data ->
  ids_uniform decoded ->
  unknown_rejected decoded ->
  c ∈ encounter data decoded ->
  dbl_lt (distance c) DBL_MAX = true ->
  (exists r, r ∈ emitted (traverse data decoded) /\ duplicates r c
             /\ dbl_le (distance r) (distance c) = true)
  \/ (length (emitted (traverse data decoded)) = num_results data
      /\ forall r, r ∈ emitted (traverse data decoded) ->
                   dbl_le (distance r) (distance c) = true).
Proof.
  intros Hd Hk [b Hb] Hrej Hc Hlive.
  pose proof (encounter_good data decoded b Hrej Hb) as Hgood.
  pose proof (traverse_length data decoded) as Hlen.
  rewrite traverse_offer, Hd in *.
  set (q0 := replicate (num_results data) ResultObject_default) in *.
  assert (q0 <> []) as Hq0.
  { unfold q0. destruct (num_results data); [lia|done]. }
  pose proof (foldl_run b (encounter data decoded) q0 [] Hq0
                (initial_run_inv b _) Hgood) as Hrun.
  simpl in Hrun. destruct Hrun as ((Hwf & Hok & Hnd) & Hdom & Hlat).
  set (q := foldl (offer true) q0 (encounter data decoded)) in *.
  rewrite Forall_forall in Hok, Hdom, Hgood.
  pose proof (dbl_lt_is_num _ _ Hlive) as [Hcn _].
  destruct (Hdom c Hc) as [(r & Hr & Hrl & Hcls & Hlt)|[Habsent Hback]].
  - left. exists r.
    destruct (slot_ok_live b r (Hok r Hr) Hrl) as [Hrg Hrmax].
    split; [by apply emitted_elem_of|]. split.
    + apply is_dup_iff. by apply (is_dup_slot b r c (Hok r Hr) (Hgood c Hc)).
    + pose proof (dbl_lt_is_num _ _ Hrmax) as [Hrn _].
      rewrite dbl_lt_num in Hlt by done. rewrite dbl_le_num by done.
      apply Z.ltb_ge in Hlt. apply Z.leb_le. lia.
  - right.
    assert (q <> []) as Hq by by apply foldl_offer_ne_nil.
    destruct (last_is_Some_ne q Hq) as (bk & Hbk & Hbki).
    rewrite Hbk in Hback. simpl in Hback.
    assert (bk ∈ q) as Hbkin by by eapply list_elem_of_lookup_2.
    destruct Hwf as [Hnum Hsort]. unfold numq in Hnum. rewrite Forall_forall in Hnum.
    rewrite dbl_lt_num in Hback by first [done|by apply Hnum].
    apply Z.ltb_ge in Hback.
    apply emitted_rank in Hlive; [|done].
    assert (forall x, x ∈ q -> dbl_lt (distance x) DBL_MAX = true
                               /\ dbl_le (distance x) (distance c) = true) as Hall.
    { intros x Hx.
      pose proof (back_is_max q bk x (conj (proj2 (Forall_forall _ _) Hnum) Hsort)
                    Hbk Hx) as Hle.
      split.
      - apply emitted_rank; [by apply Hnum|]. unfold rk in *. lia.
      - rewrite dbl_le_num by first [done|by apply Hnum]. apply Z.leb_le.
        unfold rk in *. lia. }
    split.
    + rewrite emitted_all; [done|]. apply Forall_forall. intros x Hx.
      by apply Hall.
    + intros r Hr. apply emitted_elem_of in Hr as [_ Hr]. by apply Hall.
Qed.

End DedupeNearest.

Lemma numq_emitted (l : list ResultObject) : numq (emitted l).
Proof.
  eapply Forall_impl; [apply emitted_emitted|].
  simpl. intros r Hr. by apply dbl_lt_is_num in Hr as [? _].
Qed.

Lemma sorted_ranks_unique (l l' : list ResultObject) :
  numq l -> l ≡ₚ l' ->
  rk <$> stable_sort CompareDistance l = rk <$> stable_sort CompareDistance l'.
Proof.
  intros Hl Hp.
  assert (numq l') as Hl' by (unfold numq; by rewrite <- Hp).
  apply (StronglySorted_unique Z.le).
  - eapply StronglySorted_fmap; [|by apply stable_sort_sortedq]. done.
  - eapply StronglySorted_fmap; [|by apply stable_sort_sortedq]. done.
  - by rewrite !stable_sort_Permutation, Hp.
Qed.

Lemma distance_rk (l : list ResultObject) :
  numq l -> distance <$> l = Num <$> (rk <$> l).
Proof.
  intros Hl. rewrite <- list_fmap_compose. apply Forall_fmap_ext.
  eapply Forall_impl; [exact Hl|]. simpl. intros r Hr. by apply is_num_rank.
Qed.

Lemma Forall2_Permutation_l {A B : Type} (R : A -> B -> Prop) (l l' : list A)
    (k : list B) :
  l ≡ₚ l' -> Forall2 R l k -> exists k', Forall2 R l' k' /\ k ≡ₚ k'.
Proof.
  intros Hp. revert k. induction Hp as [|x l l' Hp IH|x y l|l l' l'' Hp1 IH1 Hp2 IH2];
    intros k Hf.
  - apply Forall2_nil_inv_l in Hf as ->. by exists [].
  - apply Forall2_cons_inv_l in Hf as (b & k0 & Hb & Hk & ->).
    destruct (IH _ Hk) as (k' & Hk' & Hpk). exists (b :: k').
    split; [by constructor|by constructor].
  - apply Forall2_cons_inv_l in Hf as (b & k0 & Hb & Hk & ->).
    apply Forall2_cons_inv_l in Hk as (b' & k1 & Hb' & Hk & ->).
    exists (b' :: b :: k1). split; [by repeat constructor|by constructor].
  - destruct (IH1 _ Hf) as (k' & Hk' & Hpk).
    destruct (IH2 _ Hk') as (k'' & Hk'' & Hpk').
    exists k''. split; [done|by etrans].
Qed.

Section TileOrder.

Context `{Collaborators}.

Lemma traverse_order_distances (data : QueryData) (decoded decoded' : list decoded_tile) :
  dedupe data = false ->
  decoded ≡ₚ decoded' ->
  distance <$> emitted (traverse data decoded)
  = distance <$> emitted (traverse data decoded').
Proof.
  intros Hd Hp. rewrite !traverse_without_dedupe by done.
  assert (emitted (encounter data decoded) ≡ₚ emitted (encounter data decoded'))
    as Hpe.
  { unfold emitted, encounter. by rewrite Hp. }
  rewrite !distance_rk.
  - rewrite !fmap_take. f_equal. f_equal.
    apply sorted_ranks_unique; [apply numq_emitted|done].
  - eapply Forall_forall. intros r Hr. apply subseteq_take in Hr.
    rewrite stable_sort_Permutation in Hr.
    eapply Forall_forall in Hr; [exact Hr|apply numq_emitted].
  - eapply Forall_forall. intros r Hr. apply subseteq_take in Hr.
    rewrite stable_sort_Permutation in Hr.
    eapply Forall_forall in Hr; [exact Hr|apply numq_emitted].
Qed.

(** X17: without dedupe the distances reported do not depend on the
    order of the tiles: two requests whose tile lists are permutations
    of each other give the same list of [tilequery.distance]. *)
Theorem tile_order_distances (data : QueryData) (ts ts' : list TileObject)
    (fc fc' : FeatureCollection) :
  dedupe data = false ->
  ts ≡ₚ ts' ->
  Worker (with_tiles data ts) = Some fc ->
  Worker (with_tiles data ts') = Some fc' ->
  distances fc = distances fc'.
Proof.
  intros Hd Hp Hw Hw'. unfold distances.
  apply Worker_features in Hw as (decoded & Hdec & ->).
  apply Worker_features in Hw' as (decoded' & Hdec' & ->).
  unfold decode_tiles in *. cbn [tiles with_tiles] in *.
  apply mapM_Some in Hdec.
  destruct (Forall2_Permutation_l _ _ _ _ Hp Hdec) as (k' & Hk' & Hpk).
  apply mapM_Some in Hk'. assert (k' = decoded') as -> by congruence.
  rewrite !traverse_with_tiles.
  rewrite <- !list_fmap_compose.
  pose proof (traverse_order_distances data decoded decoded' Hd Hpk) as Hdist.
  apply (f_equal (fmap Some)) in Hdist.
  rewrite <- !list_fmap_compose in Hdist.
  etrans; [|etrans; [exact Hdist|]]; apply list_fmap_ext; intros i r _; simpl;
    by rewrite feature_of_distance.
Qed.

End TileOrder.


Lemma within_closed (r : double) (x y : ResultObject) :
  is_num (distance x) -> is_num (distance y) -> (rk x <= rk y)%Z ->
  within r y -> within r x.
Proof.
  unfold within, dbl_gt, rk. intros Hx Hy Hle.
  destruct r as [|z], (distance x), (distance y); simpl in *; try done.
  rewrite !Z.ltb_ge. lia.
Qed.

Lemma sort_insert_within (r : double) (x : ResultObject) (l : list ResultObject) :
  is_num (distance x) -> numq l -> sortedq l ->
  filter (within r) (sort_insert CompareDistance x l)
  = if decide (within r x)
    then sort_insert CompareDistance x (filter (within r) l)
    else filter (within r) l.
Proof.
  intros Hx Hn Hs. induction l as [|y l IH]; simpl.
  { rewrite filter_cons, filter_nil. by destruct (decide (within r x)). }
  apply numq_cons in Hn as [Hy Hn]. apply sortedq_cons in Hs as [Hs Hle].
  specialize (IH Hn Hs).
  rewrite CompareDistance_rk by done.
  destruct (Z.ltb_spec (rk y) (rk x)) as [Hyx|Hyx].
  - rewrite !(filter_cons _ y), IH.
    destruct (decide (within r x)) as [Hwx|Hwx].
    + assert (within r y) as Hwy
        by (eapply (within_closed r y x); [done..|lia|done]).
      destruct (decide (within r y)) as [_|Hno]; [|done].
      cbn [sort_insert]. rewrite CompareDistance_rk by done.
      destruct (Z.ltb_spec (rk y) (rk x)); [done|lia].
    + done.
  - rewrite (filter_cons _ x).
    destruct (decide (within r x)) as [Hwx|Hwx]; [|done].
    symmetry. apply sort_insert_head. intros z Hz.
    assert (z ∈ filter (within r) (y :: l)) as Hin.
    { destruct (filter (within r) (y :: l)); simplify_eq/=. by left. }
    apply list_elem_of_filter in Hin as [_ Hin].
    assert (is_num (distance z) /\ (rk y <= rk z)%Z) as [Hzn Hyz].
    { apply elem_of_cons in Hin as [->|Hin]; [split; [done|lia]|].
      rewrite Forall_forall in Hle. unfold numq in Hn. rewrite Forall_forall in Hn.
      split; [by apply Hn|by apply Hle]. }
    rewrite CompareDistance_rk by done. apply Z.ltb_ge. lia.
Qed.

Lemma stable_sort_within (r : double) (l : list ResultObject) :
  numq l ->
  filter (within r) (stable_sort CompareDistance l)
  = stable_sort CompareDistance (filter (within r) l).
Proof.
  intros Hn. induction l as [|x l IH]; [done|].
  apply numq_cons in Hn as [Hx Hn]. simpl.
  rewrite sort_insert_within;
    [|done|by apply numq_stable_sort|by apply stable_sort_sortedq].
  rewrite filter_cons, IH by done. by destruct (decide (within r x)).
Qed.

Lemma filter_within_none (r : double) (l : list ResultObject) :
  Forall (fun y => ¬ within r y) l -> filter (within r) l = [].
Proof.
  induction 1 as [|y l Hy Hl IH]; [done|]. by rewrite filter_cons_False.
Qed.

Lemma take_within (r : double) (l : list ResultObject) (k : nat) :
  numq l -> sortedq l ->
  take k (filter (within r) l) = filter (within r) (take k l).
Proof.
  intros Hn Hs. revert k. induction l as [|x l IH]; intros k.
  { by rewrite filter_nil, !take_nil. }
  apply numq_cons in Hn as [Hx Hn]. apply sortedq_cons in Hs as [Hs Hle].
  destruct k as [|k]; [done|]. simpl. rewrite !(filter_cons _ x).
  destruct (decide (within r x)) as [Hwx|Hwx].
  - simpl. by rewrite IH.
  - assert (forall l', l' ⊆ l -> filter (within r) l' = []) as Hnone.
    { intros l' Hl'. apply filter_within_none. apply Forall_forall. intros y Hy Hwy.
      apply Hl' in Hy. apply Hwx.
      rewrite Forall_forall in Hle. unfold numq in Hn. rewrite Forall_forall in Hn.
      eapply (within_closed r x y); [done|by apply Hn|by apply Hle|done]. }
    rewrite (Hnone l) by done. rewrite (Hnone (take k l)) by apply subseteq_take.
    by rewrite take_nil.
Qed.

Section RadiusMonotone.

Context `{Collaborators}.

Lemma candidate_with_radius (data : QueryData) (r1 r2 : double) (layer : string)
    (extent z x y : Z) (qp : point_int64) (f : vt_feature) :
  dbl_le r1 r2 = true ->
  candidate (with_radius data r1) layer extent z x y qp f
  = candidate (with_radius data r2) layer extent z x y qp f
      ≫= fun c => if decide (within r1 c) then Some c else None.
Proof.
  intros Hr. unfold candidate. cbn [geometry_filter_type radius with_radius].
  destruct (negb (bool_decide (geometry_filter_type data = all))
            && negb (bool_decide (geometry_filter_type data = get_geometry_type f)));
    [done|].
  destruct (dbl_lt (cp_distance (closest_point f qp)) dbl_zero); [done|].
  change (snap (with_radius data r1)) with (snap data).
  change (snap (with_radius data r2)) with (snap data).
  destruct (snap data extent z x y (closest_point f qp)) as [ll meters].
  destruct (dbl_gt meters r2) eqn:H2; simpl.
  - assert (dbl_gt meters r1 = true) as ->; [|done].
    unfold dbl_gt in *. apply dbl_lt_rank in H2 as (? & ? & ?).
    apply dbl_le_rank in Hr as (? & ? & ?). apply dbl_lt_rank. repeat split; [done..|lia].
  - destruct (decide (within r1 (entry_of layer ll meters f))) as [Hw|Hw];
      unfold within in Hw; simpl in Hw.
    + by rewrite Hw.
    + by destruct (dbl_gt meters r1).
Qed.

Lemma encounter_with_radius (data : QueryData) (r1 r2 : double)
    (decoded : list decoded_tile) :
  dbl_le r1 r2 = true ->
  encounter (with_radius data r1) decoded
  = filter (within r1) (encounter (with_radius data r2) decoded).
Proof.
  intros Hr. unfold encounter.
  induction decoded as [|[[[tile z] x] y] decoded IH]; [done|].
  cbn [mbind list_bind]. rewrite filter_app, IH. f_equal. clear IH.
  unfold tile_candidates.
  induction tile as [|layer tile IH]; [done|].
  cbn [mbind list_bind]. rewrite filter_app, IH. f_equal. clear IH.
  unfold layer_candidates. cbn [layers longitude latitude with_radius].
  destruct (negb (bool_decide (layers data = []))
            && negb (bool_decide (l_name layer ∈ layers data))); [done|].
  induction (l_features layer) as [|f fs IH]; [done|].
  cbn [omap list_omap]. rewrite (candidate_with_radius data r1 r2) by done.
  rewrite IH.
  destruct (candidate (with_radius data r2) _ _ _ _ _ _ f) as [c|]; simpl; [|done].
  rewrite filter_cons. by destruct (decide (within r1 c)).
Qed.

Lemma traverse_radius_monotone (data : QueryData) (r1 r2 : double)
    (decoded : list decoded_tile) :
  dedupe data = false ->
  dbl_le r1 r2 = true ->
  emitted (traverse (with_radius data r1) decoded)
  = filter (within r1) (emitted (traverse (with_radius data r2) decoded)).
Proof.
  intros Hd Hr. rewrite !traverse_without_dedupe by done.
  cbn [num_results with_radius].
  rewrite (encounter_with_radius data r1 r2) by done.
  rewrite <- take_within;
    [|by apply numq_stable_sort, numq_emitted
     |by apply stable_sort_sortedq, numq_emitted].
  rewrite stable_sort_within by apply numq_emitted.
  unfold emitted. rewrite !list_filter_filter. do 2 f_equal.
  apply list_filter_iff. intros c. tauto.
Qed.

(** X18: without dedupe, the result for a smaller radius is the result
    for the larger radius without the features beyond the smaller
    radius. *)
Theorem radius_monotone (data : QueryData) (r1 r2 : double)
    (fc1 fc2 : FeatureCollection) :
  dedupe data = false ->
  dbl_le r1 r2 = true ->
  Worker (with_radius data r1) = Some fc1 ->
  Worker (with_radius data r2) = Some fc2 ->
  features fc1
  = filter (fun o : option feature_obj =>
              dbl_gt (from_option fo_distance NaN o) r1 = false)
           (features fc2).
Proof.
  intros Hd Hr Hw1 Hw2.
  apply Worker_features in Hw1 as (decoded & Hdec & ->).
  apply Worker_features in Hw2 as (decoded' & Hdec' & ->).
  unfold decode_tiles in *. cbn [tiles with_radius] in *.
  assert (decoded' = decoded) as -> by congruence.
  rewrite traverse_radius_monotone with (r2 := r2) by done.
  generalize (emitted (traverse (with_radius data r2) decoded)). intros l.
  induction l as [|c l IH]; [done|].
  rewrite fmap_cons, !filter_cons, <- IH. simpl.
  rewrite feature_of_distance. unfold within.
  by destruct (decide (dbl_gt (distance c) r1 = false)).
Qed.

End RadiusMonotone.

Section LayerNames.

Context `{Collaborators}.

Lemma layer_candidates_with_layers (data : QueryData) (ls ls' : list string)
    (z x y : Z) (layer : vt_layer) :
  (ls = [] \/ l_name layer ∈ ls <-> ls' = [] \/ l_name layer ∈ ls') ->
  layer_candidates (with_layers data ls) z x y layer
  = layer_candidates (with_layers data ls') z x y layer.
Proof.
  intros Hsel. unfold layer_candidates. cbn [layers with_layers].
  assert (negb (bool_decide (ls = [])) && negb (bool_decide (l_name layer ∈ ls))
          = negb (bool_decide (ls' = [])) && negb (bool_decide (l_name layer ∈ ls')))
    as ->; [|done].
  rewrite <- !negb_orb. f_equal.
  destruct (bool_decide (ls = []) || bool_decide (l_name layer ∈ ls)) eqn:Hl;
    destruct (bool_decide (ls' = []) || bool_decide (l_name layer ∈ ls')) eqn:Hl';
    try done.
  - apply orb_true_iff in Hl. apply orb_false_iff in Hl' as [H1 H2].
    apply bool_decide_eq_false in H1, H2.
    rewrite !bool_decide_eq_true in Hl. tauto.
  - apply orb_true_iff in Hl'. apply orb_false_iff in Hl as [H1 H2].
    apply bool_decide_eq_false in H1, H2.
    rewrite !bool_decide_eq_true in Hl'. tauto.
Qed.

Lemma encounter_with_layers (data : QueryData) (ls ls' : list string)
    (decoded : list decoded_tile) :
  (forall tile z x y layer,
      (tile, z, x, y) ∈ decoded -> layer ∈ tile ->
      (ls = [] \/ l_name layer ∈ ls <-> ls' = [] \/ l_name layer ∈ ls')) ->
  encounter (with_layers data ls) decoded = encounter (with_layers data ls') decoded.
Proof.
  intros Hsel. unfold encounter.
  induction decoded as [|[[[tile z] x] y] decoded IH]; [done|].
  cbn [mbind list_bind]. rewrite IH.
  2:{ intros tile' z' x' y' layer Ht Hl. apply (Hsel tile' z' x' y'); [|done].
      by apply list_elem_of_further. }
  f_equal. unfold tile_candidates.
  assert (forall layer, layer ∈ tile ->
            (ls = [] \/ l_name layer ∈ ls <-> ls' = [] \/ l_name layer ∈ ls')) as Ht.
  { intros layer Hl. apply (Hsel tile z x y); [apply list_elem_of_here|done]. }
  clear -Ht. induction tile as [|layer tile IH]; [done|].
  cbn [mbind list_bind]. rewrite IH.
  2:{ intros layer' Hl. apply Ht. by apply list_elem_of_further. }
  f_equal. apply layer_candidates_with_layers. apply Ht. apply list_elem_of_here.
Qed.

(** X19: the layer filter only matters through the layers of the tiles
    it selects: two lists of layer names that select the same layers of
    the decoded tiles (whatever their order, their repetitions and the
    names that no tile has) give the same result, an empty list selecting
    every layer. *)
Theorem layer_names_as_set (data : QueryData) (ls ls' : list string)
    (decoded : list decoded_tile) :
  decode_tiles data = Some decoded ->
  (forall tile z x y layer,
      (tile, z, x, y) ∈ decoded -> layer ∈ tile ->
      (ls = [] \/ l_name layer ∈ ls <-> ls' = [] \/ l_name layer ∈ ls')) ->
  Worker (with_layers data ls) = Worker (with_layers data ls').
Proof.
  intros Hd Hsel.
  rewrite (decoded_Worker (with_layers data ls) decoded) by exact Hd.
  rewrite (decoded_Worker (with_layers data ls') decoded) by exact Hd.
  rewrite !traverse_offer. cbn [dedupe num_results with_layers].
  by rewrite (encounter_with_layers data ls ls' decoded).
Qed.

End LayerNames.

Lemma shift_below (y r : ResultObject) (l : list ResultObject) :
  sortedq (y :: l ++ [r]) ->
  Forall2 (fun a b => (rk a <= rk b)%Z) (y :: l) (l ++ [r]).
Proof.
  revert y. induction l as [|z l IH]; intros y Hs; simpl in *.
  - apply sortedq_cons in Hs as [_ Hy]. apply Forall_cons in Hy as [Hy _].
    by repeat constructor.
  - apply sortedq_cons in Hs as [Hs Hy]. apply Forall_cons in Hy as [Hyz _].
    constructor; [done|]. by apply IH.
Qed.

Lemma place_below (c r : ResultObject) (l : list ResultObject) :
  numq l -> sortedq (l ++ [r]) -> is_num (distance c) -> (rk c <= rk r)%Z ->
  Forall2 (fun a b => (rk a <= rk b)%Z) (place c l) (l ++ [r]).
Proof.
  intros Hn Hs Hc Hcr. induction l as [|y l IH]; simpl.
  - by repeat constructor.
  - apply numq_cons in Hn as [Hy Hn].
    rewrite CompareDistance_rk by done.
    destruct (Z.ltb_spec (rk c) (rk y)).
    + constructor; [lia|]. by apply shift_below.
    + simpl in Hs. apply sortedq_cons in Hs as [Hs _].
      constructor; [lia|]. by apply IH.
Qed.

Lemma below_refl (l : list ResultObject) :
  Forall2 (fun a b => (rk a <= rk b)%Z) l l.
Proof. induction l; constructor; [lia|done]. Qed.

Lemma offer_improves (b : bool) (q : list ResultObject) (c : ResultObject) :
  wfq q -> Forall2 (fun a b => (rk a <= rk b)%Z) (offer b q c) q.
Proof.
  intros Hwf.
  destruct (offer_cases b q c) as [->|(i & r & Hr & Hle & ->)]; [apply below_refl|].
  rewrite (overwrite_closed q i r c Hwf Hr Hle).
  rewrite <- (take_drop_middle q i r Hr) at 3.
  rewrite (cons_middle r), app_assoc.
  destruct Hwf as [Hn Hs].
  apply Forall2_app; [|apply below_refl].
  apply dbl_le_rank in Hle as (Hcn & _ & Hle).
  apply place_below; [| |done|done].
  - unfold numq in *. rewrite <- (take_drop i q) in Hn.
    by apply Forall_app in Hn as [? _].
  - unfold sortedq in *. rewrite <- (take_drop_middle q i r Hr) in Hs.
    rewrite (cons_middle r), app_assoc in Hs.
    by apply StronglySorted_app_1_l in Hs.
Qed.

Lemma foldl_offer_improves (b : bool) (cs q : list ResultObject) :
  wfq q -> Forall2 (fun a b => (rk a <= rk b)%Z) (foldl (offer b) q cs) q.
Proof.
  revert q. induction cs as [|c cs IH]; intros q Hwf; simpl; [apply below_refl|].
  eapply Forall2_trans; [|apply IH; by apply offer_wfq|by apply offer_improves].
  simpl. intros x y z ? ?. lia.
Qed.

Lemma emitted_lookup (q : list ResultObject) (i : nat) (r : ResultObject) :
  wfq q ->
  emitted q !! i = Some r <-> q !! i = Some r /\ dbl_lt (distance r) DBL_MAX = true.
Proof.
  intros Hwf. pose proof (emitted_prefix q Hwf) as Hq. split.
  - intros Hi. split.
    + rewrite Hq. by apply lookup_app_l_Some.
    + apply list_elem_of_lookup_2, emitted_elem_of in Hi. by destruct Hi.
  - intros [Hi Hlive]. rewrite Hq in Hi.
    apply lookup_app_Some in Hi as [Hi|[_ Hi]]; [done|].
    apply list_elem_of_lookup_2, list_elem_of_filter in Hi as [Hdead _]. done.
Qed.

Section MoreTiles.

Context `{Collaborators}.

Lemma traverse_app (data : QueryData) (decoded more : list decoded_tile) :
  traverse data (decoded ++ more)
  = foldl (offer (dedupe data)) (traverse data decoded) (encounter data more).
Proof.
  rewrite !traverse_offer. unfold encounter. by rewrite bind_app, foldl_app.
Qed.

Lemma traverse_more_tiles (data : QueryData) (decoded more : list decoded_tile)
    (i : nat) (r : ResultObject) :
  emitted (traverse data decoded) !! i = Some r ->
  exists r', emitted (traverse data (decoded ++ more)) !! i = Some r'
             /\ dbl_le (distance r') (distance r) = true.
Proof.
  intros Hr. pose proof (traverse_wfq data decoded) as Hwf.
  pose proof (traverse_wfq data (decoded ++ more)) as Hwf'.
  apply emitted_lookup in Hr as [Hr Hlive]; [|done].
  pose proof (foldl_offer_improves (dedupe data) (encounter data more) _ Hwf) as Himp.
  rewrite <- traverse_app in Himp.
  destruct (Forall2_lookup_r _ _ _ _ _ Himp Hr) as (r' & Hr' & Hle).
  exists r'.
  destruct Hwf as [Hn _]. destruct Hwf' as [Hn' Hs'].
  assert (is_num (distance r)) as Hrn
    by (eapply Forall_forall in Hn; [done|by eapply list_elem_of_lookup_2]).
  assert (is_num (distance r')) as Hrn'
    by (eapply Forall_forall in Hn'; [done|by eapply list_elem_of_lookup_2]).
  split.
  - apply emitted_lookup; [done|]. split; [done|].
    apply emitted_rank; [done|]. apply emitted_rank in Hlive; [lia|done].
  - by apply dbl_le_rank.
Qed.

(** X21: more tiles never make a result farther: when tiles are
    appended to the request, every index that held a feature still
    holds one, and its distance is not greater than before. *)
Theorem more_tiles_never_farther (data : QueryData) (ts more : list TileObject)
    (fc fc' : FeatureCollection) (i : nat) (o : feature_obj) :
  Worker (with_tiles data ts) = Some fc ->
  Worker (with_tiles data (ts ++ more)) = Some fc' ->
  features fc !! i = Some (Some o) ->
  exists o', features fc' !! i = Some (Some o')
             /\ dbl_le (fo_distance o') (fo_distance o) = true.
Proof.
  intros Hw Hw' Ho.
  apply Worker_features in Hw as (decoded & Hd & Hf).
  apply Worker_features in Hw' as (decoded' & Hd' & Hf').
  unfold decode_tiles in *. cbn [tiles with_tiles] in *.
  apply mapM_Some in Hd'. apply Forall2_app_inv_l in Hd'
    as (d1 & d2 & Hd1 & Hd2 & ->).
  apply mapM_Some in Hd1. assert (d1 = decoded) as -> by congruence.
  rewrite Hf in Ho. rewrite Hf'. rewrite !traverse_with_tiles in *.
  rewrite list_lookup_fmap in Ho.
  destruct (emitted (traverse data decoded) !! i) as [r|] eqn:Hr; [|done].
  injection Ho as <-.
  destruct (traverse_more_tiles data decoded d2 i r Hr) as (r' & Hr' & Hle).
  exists (feature_of r'). rewrite list_lookup_fmap, Hr'. split; [done|].
  by rewrite !feature_of_distance.
Qed.

End MoreTiles.

Lemma is_dup_default (c : ResultObject) :
  live c -> is_dup ResultObject_default c = false.
Proof.
  intros Hl. unfold is_dup. simpl.
  rewrite (bool_decide_eq_false_2 (unknown = original_geometry_type c))
    by (intros Hu; by apply Hl).
  by rewrite andb_false_r.
Qed.

Lemma foldl_offer_no_duplicates (cs met q : list ResultObject) :
  Forall (fun r => r = ResultObject_default \/ r ∈ met) q ->
  Forall live cs ->
  no_duplicates (met ++ cs) ->
  foldl (offer true) q cs = foldl (offer false) q cs.
Proof.
  revert met q. induction cs as [|c cs IH]; intros met q Hq Hl Hnd; simpl; [done|].
  apply Forall_cons in Hl as [Hc Hl].
  assert (offer true q c = offer false q c) as ->.
  { unfold offer.
    assert (find_dup c q = None) as ->; [|done].
    apply find_dup_None. eapply Forall_impl; [exact Hq|].
    simpl. intros r [->|Hr]; [by apply is_dup_default|].
    destruct (is_dup r c) eqn:Hd; [|done]. exfalso.
    apply list_elem_of_lookup in Hr as (i & Hi).
    apply (Hnd i (length met) r c).
    - by eapply lookup_lt_Some.
    - by apply lookup_app_l_Some.
    - by rewrite list_lookup_middle.
    - by apply is_dup_iff. }
  apply (IH (met ++ [c])); [|done|by rewrite <- app_assoc].
  apply offer_Forall.
  - eapply Forall_impl; [exact Hq|]. simpl. intros r [->|Hr]; [by left|].
    right. apply elem_of_app. by left.
  - right. apply elem_of_app. right. apply list_elem_of_here.
Qed.

Section DedupeNeutral.

Context `{Collaborators}.

Lemma encounter_with_dedupe (data : QueryData) (b : bool)
    (decoded : list decoded_tile) :
  encounter (with_dedupe data b) decoded = encounter data decoded.
Proof. done. Qed.

Lemma encounter_live (data : QueryData) (decoded : list decoded_tile) :
  unknown_rejected decoded -> Forall live (encounter data decoded).
Proof.
  intros Hrej. apply Forall_forall. intros c Hc.
  apply encounter_elem_strong in Hc
    as (tile_obj & layer & f & extent & z & x & y & qp & Ht & Hl & Hf & Hc).
  apply candidate_Some in Hc as (_ & Hcp & _ & ->).
  intros Hu. simpl in Hu. apply get_geometry_type_unknown in Hu.
  by rewrite (Hrej tile_obj layer f qp Ht Hl Hf Hu) in Hcp.
Qed.

(** X22: dedupe only matters when there are duplicates: when features
    of unknown geometry type are rejected and no candidate is a
    duplicate of a candidate met before it, the request gives the same
    result with and without dedupe. *)
Theorem dedupe_without_duplicates (data : QueryData) (decoded : list decoded_tile) :
  decode_tiles data = Some decoded ->
  unknown_rejected decoded ->
  no_duplicates (encounter data decoded) ->
  Worker (with_dedupe data true) = Worker (with_dedupe data false).
Proof.
  intros Hd Hrej Hnd.
  rewrite (decoded_Worker (with_dedupe data true) decoded) by exact Hd.
  rewrite (decoded_Worker (with_dedupe data false) decoded) by exact Hd.
  rewrite !traverse_offer, !encounter_with_dedupe.
  cbn [dedupe num_results with_dedupe].
  rewrite (foldl_offer_no_duplicates _ []); [done| | |done].
  - apply Forall_replicate. by left.
  - by apply encounter_live.
Qed.

End DedupeNeutral.

Section NeutralTile.

Context `{Collaborators}.

Lemma mapM_insert_Some {A B : Type} (f : A -> option B) (l1 l2 : list A)
    (x : A) (y : B) :
  f x = Some y ->
  mapM f (l1 ++ x :: l2)
  = mapM f (l1 ++ l2) ≫= fun k =>
      Some (take (length l1) k ++ y :: drop (length l1) k).
Proof.
  intros Hx. destruct (mapM f (l1 ++ l2)) as [k|] eqn:Hk; simpl.
  - apply mapM_Some in Hk. apply Forall2_app_inv_l in Hk
      as (k1 & k2 & Hk1 & Hk2 & ->).
    apply mapM_Some. rewrite (Forall2_length _ _ _ Hk1).
    rewrite take_app_length, drop_app_length.
    apply Forall2_app; [done|]. by constructor.
  - apply mapM_None in Hk. apply mapM_None.
    apply Exists_app in Hk as [Hk|Hk]; apply Exists_app; [by left|].
    right. by apply Exists_cons_tl.
Qed.

(** X23: a tile none of whose features becomes a candidate (an empty
    tile, or one whose layers the filter leaves out) does not change the
    result, wherever it stands among the tiles. *)
Theorem tile_without_candidates (data : QueryData) (ts1 ts2 : list TileObject)
    (tile_obj : TileObject) (dt : decoded_tile) :
  decode_tile tile_obj = Some dt ->
  tile_candidates data dt = [] ->
  Worker (with_tiles data (ts1 ++ tile_obj :: ts2))
  = Worker (with_tiles data (ts1 ++ ts2)).
Proof.
  intros Hdt Hnone. unfold Worker, Execute. cbn [tiles with_tiles].
  rewrite (mapM_insert_Some decode_tile ts1 ts2 tile_obj dt Hdt).
  destruct (mapM decode_tile (ts1 ++ ts2)) as [k|]; simpl; [|done].
  do 3 f_equal. rewrite !traverse_with_tiles, !traverse_offer. f_equal.
  rewrite <- (take_drop (length ts1) k) at 3.
  unfold encounter. rewrite !bind_app. simpl.
  change (tile_candidates (with_tiles data ?ts)) with (tile_candidates data).
  by rewrite Hnone.
Qed.

End NeutralTile.

(** * Repeated tiles

    A stored feature of unknown type is a duplicate of an empty slot when
    its layer name and its properties are empty.  The run over the
    relabelled candidates, where this cannot happen, emits the relabelled
    results of the run over the candidates themselves. *)

Lemma relabel_live (r : ResultObject) :
  original_geometry_type r <> all -> live (relabel r).
Proof.
  unfold live, relabel. simpl. intros Hr.
  by destruct (decide (original_geometry_type r = unknown)).
Qed.

Lemma relabel_inj (r r' : ResultObject) :
  original_geometry_type r <> all -> original_geometry_type r' <> all ->
  relabel r = relabel r' -> r = r'.
Proof.
  destruct r as [p m l co d g h i], r' as [p' m' l' co' d' g' h' i'].
  unfold relabel. simpl. intros Hr Hr' [= -> -> -> -> -> Hg -> ->].
  f_equal.
  destruct (decide (g = unknown)), (decide (g' = unknown)); congruence.
Qed.

Lemma fmap_relabel_inj (l l' : list ResultObject) :
  Forall (fun r => original_geometry_type r <> all) l ->
  Forall (fun r => original_geometry_type r <> all) l' ->
  relabel <$> l = relabel <$> l' -> l = l'.
Proof.
  intros Hl. revert l'. induction Hl as [|x l Hx Hl IH]; intros [|y l'] Hl' Heq;
    try done.
  rewrite !fmap_cons in Heq.
  pose proof (f_equal head Heq) as Hxy. pose proof (f_equal tail Heq) as Htl.
  cbn [head tail] in Hxy, Htl. apply (inj Some) in Hxy.
  apply Forall_cons in Hl' as [Hy Hl']. f_equal; [by apply relabel_inj|by apply IH].
Qed.

Lemma is_dup_relabel (r c : ResultObject) :
  original_geometry_type r <> all -> original_geometry_type c <> all ->
  is_dup (relabel r) (relabel c) = is_dup r c.
Proof.
  intros Hr Hc. unfold is_dup, relabel. simpl. f_equal. f_equal. f_equal.
  apply bool_decide_ext.
  destruct (decide (original_geometry_type r = unknown)),
    (decide (original_geometry_type c = unknown)); split; congruence.
Qed.

Lemma find_dup_relabel (c : ResultObject) (l : list ResultObject) :
  Forall (fun r => original_geometry_type r <> all) l ->
  original_geometry_type c <> all ->
  find_dup (relabel c) (relabel <$> l) = find_dup c l.
Proof.
  intros Hl Hc. induction Hl as [|x l Hx Hl IH]; [done|].
  rewrite fmap_cons. cbn [find_dup]. by rewrite is_dup_relabel, IH.
Qed.

Lemma find_dup_app (c : ResultObject) (l1 l2 : list ResultObject) :
  find_dup c (l1 ++ l2)
  = match find_dup c l1 with
    | Some i => Some i
    | None => (fun j => length l1 + j) <$> find_dup c l2
    end.
Proof.
  induction l1 as [|x l1 IH]; simpl.
  - by destruct (find_dup c l2).
  - destruct (is_dup x c); [done|]. rewrite IH.
    destruct (find_dup c l1); [done|]. by destruct (find_dup c l2).
Qed.

Lemma emitted_relabel (l : list ResultObject) :
  emitted (relabel <$> l) = relabel <$> emitted l.
Proof.
  unfold emitted. induction l as [|x l IH]; [done|].
  rewrite fmap_cons, !filter_cons, IH. simpl.
  by destruct (decide (dbl_lt (distance x) DBL_MAX = true)).
Qed.

Lemma sort_insert_relabel (x : ResultObject) (l : list ResultObject) :
  sort_insert CompareDistance (relabel x) (relabel <$> l)
  = relabel <$> sort_insert CompareDistance x l.
Proof.
  induction l as [|y l IH]; [done|].
  rewrite fmap_cons. cbn [sort_insert].
  change (CompareDistance (relabel y) (relabel x)) with (CompareDistance y x).
  destruct (CompareDistance y x); [|done]. by rewrite fmap_cons, IH.
Qed.

Lemma stable_sort_relabel (l : list ResultObject) :
  stable_sort CompareDistance (relabel <$> l)
  = relabel <$> stable_sort CompareDistance l.
Proof.
  induction l as [|x l IH]; [done|].
  rewrite fmap_cons. unfold stable_sort in *. cbn [foldr].
  rewrite IH. apply sort_insert_relabel.
Qed.

Lemma emitted_within (l : list ResultObject) :
  numq l -> emitted l = filter (within (Num (DBL_MAX_rank - 1))) l.
Proof.
  unfold emitted. induction 1 as [|x l Hx Hl IH]; [done|].
  rewrite !filter_cons, IH.
  assert (dbl_lt (distance x) DBL_MAX = true <-> within (Num (DBL_MAX_rank - 1)) x)
    as Hiff.
  { unfold within, dbl_gt. destruct (distance x) as [|z]; [done|]. simpl.
    rewrite Z.ltb_lt, Z.ltb_ge. lia. }
  destruct (decide (dbl_lt (distance x) DBL_MAX = true)) as [Hd|Hd],
    (decide (within (Num (DBL_MAX_rank - 1)) x)) as [Hw|Hw]; tauto.
Qed.

Lemma emitted_stable_sort (l : list ResultObject) :
  numq l ->
  emitted (stable_sort CompareDistance l) = stable_sort CompareDistance (emitted l).
Proof.
  intros Hl. rewrite !emitted_within by (by try apply numq_stable_sort).
  by apply stable_sort_within.
Qed.

Lemma emitted_take (q : list ResultObject) (i : nat) :
  wfq q -> emitted (take i q) = take i (emitted q).
Proof.
  intros [Hn Hs]. rewrite !emitted_within; [|done|].
  - symmetry. by apply take_within.
  - unfold numq in *. eapply Forall_take in Hn. exact Hn.
Qed.

Lemma emitted_drop (q : list ResultObject) (i : nat) :
  wfq q -> emitted (drop i q) = drop i (emitted q).
Proof.
  intros Hq. pose proof (emitted_take q i Hq) as Ht.
  assert (emitted q = take i (emitted q) ++ emitted (drop i q)) as Heq.
  { rewrite <- Ht, <- emitted_app. by rewrite take_drop. }
  rewrite <- (take_drop i (emitted q)) in Heq at 1.
  by apply app_inv_head in Heq.
Qed.

Lemma emitted_insert (q : list ResultObject) (i : nat) (c : ResultObject) :
  wfq q -> i < length q ->
  emitted (<[i := c]> q) = take i (emitted q) ++ emitted [c] ++ drop (S i) (emitted q).
Proof.
  intros Hq Hi. rewrite insert_take_drop by done.
  rewrite (emitted_app _ (c :: _)).
  change (c :: drop (S i) q) with ([c] ++ drop (S i) q).
  by rewrite (emitted_app [c]), emitted_take, emitted_drop.
Qed.

(** The emitted slots after a slot is overwritten and the queue sorted. *)
Lemma emitted_overwrite (q : list ResultObject) (i : nat) (c : ResultObject) :
  wfq q -> i < length q -> is_num (distance c) ->
  emitted (stable_sort CompareDistance (<[i := c]> q))
  = stable_sort CompareDistance
      (take i (emitted q) ++ emitted [c] ++ drop (S i) (emitted q)).
Proof.
  intros Hq Hi Hc. rewrite emitted_stable_sort, emitted_insert; [done..|].
  apply Forall_insert; [by destruct Hq|done].
Qed.

Lemma lookup_emitted_cases (q : list ResultObject) (i : nat) (r : ResultObject) :
  wfq q -> q !! i = Some r ->
  (emitted q !! i = Some r)
  \/ (length (emitted q) <= i /\ ¬ dbl_lt (distance r) DBL_MAX = true).
Proof.
  intros Hq Hr. pose proof (emitted_prefix q Hq) as Hp.
  rewrite Hp in Hr. destruct (decide (i < length (emitted q))) as [Hi|Hi].
  - left. by rewrite lookup_app_l in Hr.
  - right. split; [lia|]. rewrite lookup_app_r in Hr by lia.
    apply list_elem_of_lookup_2, list_elem_of_filter in Hr as [Hr _]. done.
Qed.

Lemma not_emitted_max (r : ResultObject) :
  is_num (distance r) -> (rk r <= DBL_MAX_rank)%Z ->
  ¬ dbl_lt (distance r) DBL_MAX = true -> distance r = DBL_MAX.
Proof.
  unfold rk. destruct (distance r) as [|z]; [done|]. simpl. intros _ Hle Hlt.
  rewrite Z.ltb_lt in Hlt. unfold DBL_MAX. f_equal. lia.
Qed.

Lemma offer_bounded (b : bool) (q : list ResultObject) (c : ResultObject) :
  Forall (fun r => (rk r <= DBL_MAX_rank)%Z) q ->
  Forall (fun r => (rk r <= DBL_MAX_rank)%Z) (offer b q c).
Proof.
  intros Hq. destruct (offer_cases b q c) as [->|(i & r & Hr & Hle & ->)]; [done|].
  rewrite stable_sort_Permutation. apply Forall_insert; [done|].
  apply list_elem_of_lookup_2 in Hr. eapply Forall_forall in Hq; [|exact Hr].
  apply dbl_le_rank in Hle as (_ & _ & Hle). unfold rk in *. lia.
Qed.

Lemma relabelled_step (b : bool) (q q' : list ResultObject) (c : ResultObject) :
  relabelled b q q' ->
  has_id c = b -> original_geometry_type c <> all ->
  properties_vector_materialized c = [] ->
  relabelled b (offer true q c) (offer true q' (relabel c)).
Proof.
  intros (Hlen & Hq & Hbound & Hgeom & Hinv & Hem) Hid Hc Hclean.
  assert (good_cand b (relabel c)) as Hgood.
  { split; [done|]. split; [by apply relabel_live|done]. }
  split; [by rewrite !offer_length|]. split; [by apply offer_wfq|].
  split; [by apply offer_bounded|]. split; [by apply offer_Forall|].
  split; [by apply offer_queue_inv|].
  destruct Hinv as (Hq' & Hok & _).
  destruct (decide (q = [])) as [->|Hne].
  { destruct q'; [|done]. by rewrite !offer_nil. }
  assert (q' <> []) as Hne' by (intros ->; by destruct q).
  pose proof (emitted_prefix q Hq) as Hp. pose proof (emitted_prefix q' Hq') as Hp'.
  set (E := emitted q) in *. set (T := filter _ q) in *.
  set (T' := filter _ q') in *.
  assert (Forall (fun r => original_geometry_type r <> all) E) as HgE.
  { apply Forall_forall. intros r Hr. apply emitted_elem_of in Hr as [_ Hr].
    by eapply Forall_forall in Hgeom. }
  assert (find_dup (relabel c) q' = find_dup c E) as Hf'.
  { rewrite Hp', find_dup_app, Hem, find_dup_relabel by done.
    destruct (find_dup c E); [done|].
    assert (find_dup (relabel c) T' = None) as ->; [|done].
    apply find_dup_None, Forall_forall. intros r Hr.
    apply list_elem_of_filter in Hr as [Hr Hin].
    eapply Forall_forall in Hok; [|exact Hin].
    destruct Hok as [->|[_ Hlt]]; [|done].
    apply is_dup_default. by apply relabel_live. }
  assert (find_dup c q
          = match find_dup c E with
            | Some i => Some i
            | None => (fun j => length E + j) <$> find_dup c T
            end) as Hf.
  { rewrite Hp at 1. apply find_dup_app. }
  assert (forall i r, q !! i = Some r -> length E <= i -> distance r = DBL_MAX)
    as Htail.
  { intros i r Hr Hi.
    destruct (lookup_emitted_cases q i r Hq Hr) as [He|[_ Hnl]].
    - apply lookup_lt_Some in He. fold E in He. lia.
    - apply list_elem_of_lookup_2 in Hr.
      apply not_emitted_max; [|by eapply Forall_forall in Hbound|done].
      destruct Hq as [Hn _]. by eapply Forall_forall in Hn. }
  assert (forall i r, q' !! i = Some r -> length E <= i -> distance r = DBL_MAX)
    as Htail'.
  { intros i r Hr Hi.
    destruct (lookup_emitted_cases q' i r Hq' Hr) as [He|[_ Hnl]].
    - apply lookup_lt_Some in He. rewrite Hem, length_fmap in He. fold E in He. lia.
    - apply list_elem_of_lookup_2 in Hr. eapply Forall_forall in Hok; [|exact Hr].
      destruct Hok as [->|[_ Hlt]]; done. }
  assert (is_num (distance c) ->
          forall i i', i < length q -> i' < length q' ->
            i = i' \/ (length E <= i /\ length E <= i') ->
            emitted (stable_sort CompareDistance (<[i' := relabel c]> q'))
            = relabel <$> emitted (stable_sort CompareDistance (<[i := c]> q)))
    as Hchange.
  { intros Hnum i i' Hi Hi' Hcase.
    rewrite !emitted_overwrite by done. rewrite Hem. fold E.
    rewrite <- stable_sort_relabel, !fmap_app, fmap_take, fmap_drop.
    change (emitted [relabel c]) with (emitted (relabel <$> [c])).
    rewrite emitted_relabel.
    destruct Hcase as [->|[Hge Hge']]; [done|].
    rewrite !take_ge, !drop_ge by (rewrite length_fmap; lia). done. }
  destruct (last_is_Some_ne q Hne) as (bk & Hbk & Hbki).
  destruct (last_is_Some_ne q' Hne') as (bk' & Hbk' & Hbki').
  assert (distance bk' = distance bk) as Hback.
  { destruct (lookup_emitted_cases q _ bk Hq Hbki) as [He|[Hge _]].
    - fold E in He. rewrite <- Hlen in Hbki'.
      destruct (lookup_emitted_cases q' _ bk' Hq' Hbki') as [He'|[Hge' _]].
      + rewrite Hem in He'. fold E in He'. rewrite list_lookup_fmap, He in He'.
        by injection He' as <-.
      + apply lookup_lt_Some in He. rewrite Hem, length_fmap in Hge'. fold E in Hge'.
        lia.
    - fold E in Hge. rewrite (Htail _ _ Hbki Hge).
      apply (Htail' _ _ Hbki'). lia. }
  assert (pred (length q) < length q) as Hlast by (destruct q; simpl; [done|lia]).
  assert (pred (length q') < length q') as Hlast' by lia.
  unfold offer. rewrite Hf', Hf.
  destruct (find_dup c E) as [i|] eqn:HfE.
  - apply find_dup_Some in HfE as (r & Hr & _).
    assert (q !! i = Some r) as Hri.
    { rewrite Hp. apply lookup_app_l_Some. exact Hr. }
    assert (q' !! i = Some (relabel r)) as Hri'.
    { rewrite Hp', Hem. apply lookup_app_l_Some. fold E.
      by rewrite list_lookup_fmap, Hr. }
    rewrite Hri, Hri'. simpl.
    destruct (dbl_le (distance c) (distance r)) eqn:Hle; [|done].
    apply Hchange.
    + by apply dbl_le_is_num in Hle as [? _].
    + by eapply lookup_lt_Some.
    + by eapply lookup_lt_Some.
    + by left.
  - rewrite Hbk'. simpl. rewrite Hback.
    destruct (find_dup c T) as [j|] eqn:HfT; simpl.
    + destruct (q !! (length E + j)) as [r|] eqn:Hr.
      2:{ exfalso. apply find_dup_Some in HfT as (r & Hr' & _).
          rewrite Hp, lookup_app_r in Hr by lia.
          replace (length E + j - length E) with j in Hr by lia.
          by rewrite Hr' in Hr. }
      simpl. pose proof (lookup_lt_Some _ _ _ Hr) as Hj.
      rewrite (Htail _ _ Hr) by lia.
      rewrite (Htail _ _ Hbki) by lia.
      destruct (dbl_lt (distance c) DBL_MAX) eqn:Hlt.
      * assert (dbl_le (distance c) DBL_MAX = true) as ->.
        { apply dbl_lt_rank in Hlt as (? & ? & ?). apply dbl_le_rank.
          repeat split; [done..|lia]. }
        apply Hchange; [by apply dbl_lt_is_num in Hlt as [? _]|done|done|].
        right. split; lia.
      * destruct (dbl_le (distance c) DBL_MAX) eqn:Hle; [|done].
        rewrite emitted_overwrite;
          [|done|done|by apply dbl_le_is_num in Hle as [? _]].
        fold E. rewrite take_ge, drop_ge by lia.
        rewrite (emitted_none [c]) by (apply Forall_singleton; by rewrite Hlt).
        rewrite app_nil_r.
        rewrite stable_sort_sorted; [done|apply emitted_wfq; done..].
    + rewrite Hbk. simpl.
      destruct (dbl_lt (distance c) (distance bk)) eqn:Hlt; [|done].
      apply Hchange; [by apply dbl_lt_is_num in Hlt as [? _]|done|done|].
      left. by rewrite Hlen.
Qed.

Lemma relabelled_run (b : bool) (cs q q' : list ResultObject) :
  relabelled b q q' ->
  Forall (fun c => has_id c = b /\ original_geometry_type c <> all
                   /\ properties_vector_materialized c = []) cs ->
  relabelled b (foldl (offer true) q cs) (foldl (offer true) q' (relabel <$> cs)).
Proof.
  intros Hq Hcs. revert q q' Hq. induction Hcs as [|c cs (Hb & Hg & Hm) Hcs IH];
    intros q q' Hq; simpl; [done|].
  apply IH. by apply relabelled_step.
Qed.

Lemma relabelled_initial (b : bool) (n : nat) :
  relabelled b (replicate n ResultObject_default) (replicate n ResultObject_default).
Proof.
  split; [done|]. split; [apply initial_wfq|].
  split; [by apply Forall_replicate|]. split; [by apply Forall_replicate|].
  split; [apply initial_queue_inv|].
  rewrite !emitted_none; [done|apply Forall_replicate; done..].
Qed.

Lemma relabel_replicate (cs : list ResultObject) (m : nat) :
  relabel <$> (replicate m cs ≫= id) = replicate m (relabel <$> cs) ≫= id.
Proof. induction m as [|m IH]; [done|]. csimpl. by rewrite fmap_app, IH. Qed.

Lemma emitted_offer_repeat (b : bool) (cs : list ResultObject) (n k : nat) :
  Forall (fun c => has_id c = b /\ original_geometry_type c <> all
                   /\ properties_vector_materialized c = []) cs ->
  emitted (foldl (offer true) (replicate n ResultObject_default)
                 (replicate (S k) cs ≫= id))
  = emitted (foldl (offer true) (replicate n ResultObject_default) cs).
Proof.
  intros Hcs. set (q0 := replicate n ResultObject_default).
  assert (Forall (fun c => has_id c = b /\ original_geometry_type c <> all
                           /\ properties_vector_materialized c = [])
                 (replicate (S k) cs ≫= id)) as Hall.
  { apply Forall_forall. intros c Hc. apply list_elem_of_bind in Hc as (l & Hc & Hl).
    apply elem_of_replicate in Hl as [-> _]. by eapply Forall_forall in Hcs. }
  destruct (relabelled_run b _ q0 q0 (relabelled_initial b n) Hall)
    as (_ & _ & _ & Hg1 & _ & He1).
  destruct (relabelled_run b _ q0 q0 (relabelled_initial b n) Hcs)
    as (_ & _ & _ & Hg2 & _ & He2).
  subst q0. rewrite relabel_replicate in He1.
  rewrite (foldl_offer_repeat b) in He1.
  2:{ apply Forall_fmap. eapply Forall_impl; [exact Hcs|]. simpl.
      intros c (Hb & Hg & Hm). split; [done|]. split; [by apply relabel_live|done]. }
  rewrite He2 in He1.
  apply fmap_relabel_inj in He1; [done| |].
  - apply Forall_forall. intros r Hr. apply emitted_elem_of in Hr as [_ Hr].
    by eapply Forall_forall in Hg2.
  - apply Forall_forall. intros r Hr. apply emitted_elem_of in Hr as [_ Hr].
    by eapply Forall_forall in Hg1.
Qed.

Section RepeatedTile.

Context `{Collaborators}.

Lemma encounter_from_features (data : QueryData) (decoded : list decoded_tile)
    (b : bool) :
  (forall tile_obj layer f,
      tile_obj ∈ decoded -> layer ∈ tile_obj.1.1.1 -> f ∈ l_features layer ->
      f_has_id f = b) ->
  Forall (fun c => has_id c = b /\ original_geometry_type c <> all
                   /\ properties_vector_materialized c = [])
         (encounter data decoded).
Proof.
  intros Hb. apply Forall_forall. intros c Hc.
  apply encounter_elem_strong in Hc
    as (tile_obj & layer & f & extent & z & x & y & qp & Ht & Hl & Hf & Hc).
  pose proof (candidate_clean _ _ _ _ _ _ _ _ _ Hc) as Hm.
  apply candidate_Some in Hc as (_ & _ & _ & ->).
  split; [by apply (Hb tile_obj layer f)|]. split; [|done].
  simpl. pose proof (get_geometry_type_cases f) as Hg. intros Heq.
  rewrite Heq in Hg. mem_cases Hg; done.
Qed.

Lemma emitted_traverse_repeated (data : QueryData) (ts ts' : list TileObject)
    (dt : decoded_tile) (k : nat) :
  dedupe data = true ->
  ids_uniform [dt] ->
  emitted (traverse (with_tiles data ts) (replicate (S k) dt))
  = emitted (traverse (with_tiles data ts') [dt]).
Proof.
  intros Hd [b Hb]. rewrite !traverse_offer, !encounter_with_tiles. simpl.
  rewrite Hd. unfold encounter at 1. rewrite bind_replicate.
  pose proof (encounter_from_features data [dt] b Hb) as Hgood.
  unfold encounter in *. simpl in *. rewrite app_nil_r in *.
  by apply (emitted_offer_repeat b).
Qed.

(** C4 (amended): with dedupe on, when either every feature of the tile
    has an id or none has, supplying the same tile [n] times ([n] at
    least 1) gives the same FeatureCollection (or the same failure) as
    supplying it once. *)
Theorem repeated_tile_idempotent (data : QueryData) (t : TileObject) (n : nat) :
  dedupe data = true ->
  (forall dt, decode_tile t = Some dt -> ids_uniform [dt]) ->
  1 <= n ->
  Worker (with_tiles data (replicate n t)) = Worker (with_tiles data [t]).
Proof.
  intros Hd Hu Hn. destruct n as [|k]; [lia|].
  destruct (decode_tile t) as [dt|] eqn:Hdt.
  - rewrite (decoded_Worker _ (replicate (S k) dt)).
    2:{ unfold decode_tiles, with_tiles. cbn [tiles]. by apply mapM_replicate_Some. }
    rewrite (decoded_Worker _ [dt]).
    2:{ unfold decode_tiles, with_tiles. cbn [tiles].
        by apply (mapM_replicate_Some _ _ _ 1). }
    rewrite (emitted_traverse_repeated data _ [t] dt k); [done..|].
    by apply Hu.
  - unfold Worker, Execute, with_tiles. cbn [tiles].
    rewrite (mapM_replicate_None decode_tile t k Hdt).
    change [t] with (replicate 1 t).
    by rewrite (mapM_replicate_None decode_tile t 0 Hdt).
Qed.

End RepeatedTile.

(** * The claims on the planar stand-in *)

Lemma planar_rejects_unknown : @kernel_rejects_unknown planar.
Proof.
  intros f q Hf. simpl. unfold planar_closest_point. by rewrite Hf.
Qed.


Lemma planar_not_negative : @meters_not_negative planar.
Proof.
  intros a b. simpl. unfold planar_distance. simpl. apply Z.ltb_ge. lia.
Qed.

Lemma tile_plain_ids_uniform : @ids_uniform [(tile_plain, 0, 0, 0)%Z].
Proof.
  exists true. intros tile_obj layer f Ht Hl Hf.
  mem_cases Ht. subst tile_obj. simpl in Hl.
  mem_cases Hl. subst layer. simpl in Hf.
  mem_cases Hf; by subst f.
Qed.

Lemma tile_level_no_tied_duplicates :
  no_tied_duplicates (@encounter planar level_query [(tile_level, 0, 0, 0)%Z]).
Proof.
  intros i j a b Hij Hi Hj (_ & _ & _ & Hprops).
  vm_compute in Hi, Hj.
  destruct i as [|[|[|i]]], j as [|[|[|j]]]; try lia; simplify_eq/=; done.
Qed.

(** With dedupe on, the two features of [tile_level] at distance 5 come
    out in the order of the tile; the duplicate met after them is farther
    and changes nothing. *)
Lemma output_order_witness :
  exists fc,
    @Worker planar level_query = Some fc
    /\ ascending_features fc
    /\ distances fc = [Some (Num 5); Some (Num 5)]
    /\ exists decoded,
         @decode_tiles planar level_query = Some decoded
         /\ features fc
            = (Some ∘ feature_of) <$> emitted (@traverse planar level_query decoded)
         /\ ascending (emitted (@traverse planar level_query decoded))
         /\ ties_in_encounter_order
              (@encounter planar level_query decoded)
              (emitted (@traverse planar level_query decoded)).
Proof.
  eexists. split; [vm_compute; reflexivity|].
  destruct (@output_order planar level_query _ eq_refl)
    as (Hasc & decoded & Hd & Hf & Ha & Hties).
  split; [exact Hasc|]. split; [vm_compute; reflexivity|].
  exists decoded. split; [exact Hd|]. split; [exact Hf|]. split; [exact Ha|].
  apply Hties. right. vm_compute in Hd. injection Hd as <-.
  apply tile_level_no_tied_duplicates.
Defined.

(** Without dedupe the three features of [tile_ties] at distance 5 come out
    in the order of the tile. *)
Lemma tie_order_without_dedupe :
  (features <$> @Worker planar (query_at_origin [tile_object Byte.x02] 5 false))
  = Some ((Some ∘ feature_of)
            <$> @encounter planar (query_at_origin [tile_object Byte.x02] 5 false)
                           [(tile_ties, 0, 0, 0)%Z]).
Proof. vm_compute. reflexivity. Qed.

(** With dedupe the later duplicate at distance 5 takes the first slot:
    the feature with id 7, met third, comes out before the feature met
    second. *)
Lemma tie_break_counterexample :
  ¬ @ties_follow_encounter planar (query_at_origin [tile_object Byte.x02] 5 true).
Proof.
  intros Ht.
  assert (@decode_tiles planar (query_at_origin [tile_object Byte.x02] 5 true)
          = Some [(tile_ties, 0, 0, 0)%Z]) as Hd by (vm_compute; reflexivity).
  specialize (Ht _ Hd (Num 5)). vm_compute in Ht.
  repeat match goal with
         | H : sublist _ _ |- _ => inversion H; clear H; subst
         end.
Qed.

(** The feature at distance 3 finds its first duplicate in the second
    slot, overwrites it and moves in front of the slot at distance 4. *)
Lemma duplicate_rule_witness :
  @process_feature planar (query_at_origin [] 3 true) "roads" 4096 0 0 0 (0, 0)%Z
                   ([near_side] ++ far_main :: [ResultObject_default])
                   (point_feature false 0 props_main 3)
  = [entry_of "roads" (Num 3, Num 0) (Num 3) (point_feature false 0 props_main 3);
     near_side; ResultObject_default]
  /\ @process_feature planar (query_at_origin [] 3 true) "roads" 4096 0 0 0 (0, 0)%Z
                      ([near_side] ++ far_main :: [ResultObject_default])
                      (point_feature false 0 props_main 3)
     ≡ₚ [near_side] ++
        entry_of "roads" (Num 3, Num 0) (Num 3) (point_feature false 0 props_main 3)
        :: [ResultObject_default]
  /\ ascending
       (@process_feature planar (query_at_origin [] 3 true) "roads" 4096 0 0 0
                         (0, 0)%Z
                         ([near_side] ++ far_main :: [ResultObject_default])
                         (point_feature false 0 props_main 3)).
Proof.
  split; [vm_compute; reflexivity|].
  assert (numq ([near_side] ++ far_main :: [ResultObject_default])) as Hn
    by (repeat constructor).
  assert (Forall (fun r' =>
                    ¬ (layer_name r' = "roads"%string
                       /\ original_geometry_type r'
                          = get_geometry_type (point_feature false 0 props_main 3)
                       /\ ¬ (has_id r' = true
                             /\ f_has_id (point_feature false 0 props_main 3) = true
                             /\ id_ r' <> f_id (point_feature false 0 props_main 3))
                       /\ properties_vector r'
                          = f_properties (point_feature false 0 props_main 3)))
                 [near_side]) as Hq1.
  { apply Forall_singleton. intros (_ & _ & _ & Hp). done. }
  assert (layer_name far_main = "roads"%string
          /\ original_geometry_type far_main
             = get_geometry_type (point_feature false 0 props_main 3)
          /\ ¬ (has_id far_main = true
                /\ f_has_id (point_feature false 0 props_main 3) = true
                /\ id_ far_main <> f_id (point_feature false 0 props_main 3))
          /\ properties_vector far_main
             = f_properties (point_feature false 0 props_main 3)) as Hr.
  { repeat split. intros (_ & Hid & _). done. }
  destruct (@duplicate_rule planar (query_at_origin [] 3 true) "roads" 4096 0 0 0
              (0, 0)%Z (point_feature false 0 props_main 3)
              (entry_of "roads" (Num 3, Num 0) (Num 3)
                        (point_feature false 0 props_main 3))
              [near_side] [ResultObject_default] far_main
              eq_refl eq_refl Hq1 Hr) as [_ (Hperm & Hasc & _)].
  split; [exact Hperm|exact (Hasc Hn)].
Defined.

Lemma radius_cutoff_witness :
  dbl_le dbl_zero (radius origin_only_query) = true
  /\ (forall fc o,
        @Worker planar origin_only_query = Some fc ->
        Some o ∈ features fc ->
        dbl_le (fo_distance o) (radius origin_only_query) = true)
  /\ (forall fc o,
        @Worker planar origin_only_query = Some fc ->
        Some o ∈ features fc ->
        fo_distance o = dbl_zero).
Proof.
  split; [reflexivity|].
  destruct (@radius_cutoff planar origin_only_query eq_refl) as (_ & _ & Hle & Hzero).
  split; [exact Hle|].
  exact (Hzero planar_not_negative eq_refl).
Defined.

(** With radius 0 only the feature at the origin is emitted. *)
Lemma radius_zero_example :
  (features <$> @Worker planar origin_only_query)
  = Some [Some (feature_of (entry_of "poi" (Num 0, Num 0) dbl_zero
                                     (point_feature true 2 props_side 0)))].
Proof. vm_compute. reflexivity. Qed.

(** The plain tile has a feature of unknown geometry type; the kernel of
    this stand-in gives it the distance 0, so it is stored and emitted. *)
Lemma repeated_tile_idempotent_witness :
  dedupe (query_at_origin [] 5 true) = true
  /\ (forall dt, @decode_tile lenient (tile_object Byte.x03) = Some dt ->
                 @ids_uniform [dt])
  /\ 1 <= 3
  /\ @Worker lenient (with_tiles (query_at_origin [] 5 true)
                                 (replicate 3 (tile_object Byte.x03)))
     = @Worker lenient (with_tiles (query_at_origin [] 5 true) [tile_object Byte.x03]).
Proof.
  assert (forall dt, @decode_tile lenient (tile_object Byte.x03) = Some dt ->
                     @ids_uniform [dt]) as Hu.
  { intros dt Hdt. vm_compute in Hdt. injection Hdt as <-.
    apply tile_plain_ids_uniform. }
  split; [reflexivity|]. split; [exact Hu|]. split; [lia|].
  apply (@repeated_tile_idempotent lenient (query_at_origin [] 5 true)
           (tile_object Byte.x03) 3);
    [reflexivity|exact Hu|lia].
Defined.

(** The tile with and without ids: supplied once, the feature with id 1 is
    replaced by its duplicate without id, which is replaced in turn by a
    feature with id 2; supplied twice, the feature with id 1 comes back. *)
Lemma repeated_tile_counterexample :
  @Worker planar (with_tiles (query_at_origin [] 5 true)
                             (replicate 2 (tile_object Byte.x01)))
  <> @Worker planar (with_tiles (query_at_origin [] 5 true) [tile_object Byte.x01]).
Proof. vm_compute. congruence. Qed.



(** The plain tile has a feature at the origin and features at distances
    2 and 4: the first is stored at the request's point with distance 0,
    the others at their converted snap points. *)
Lemma direct_hit_short_circuit_witness :
  exists fc,
    @Worker planar plain_query = Some fc
    /\ (fo_coordinates <$> mjoin (features fc !! 0),
        fo_distance <$> mjoin (features fc !! 0))
       = (Some [longitude plain_query; latitude plain_query], Some dbl_zero)
    /\ (fo_coordinates <$> mjoin (features fc !! 1),
        fo_distance <$> mjoin (features fc !! 1))
       = (Some [Num 2; Num 0], Some (Num 2))
    /\ @process_feature planar plain_query "poi" 4096 0 0 0 (0, 0)%Z
                        (replicate 5 ResultObject_default)
                        (point_feature true 2 props_side 0)
       = entry_of "poi" (longitude plain_query, latitude plain_query) dbl_zero
                  (point_feature true 2 props_side 0)
         :: replicate 4 ResultObject_default
    /\ @process_feature planar plain_query "poi" 4096 0 0 0 (0, 0)%Z
                        (replicate 5 ResultObject_default)
                        (point_feature true 4 props_side 2)
       = entry_of "poi" (Num 2, Num 0) (Num 2) (point_feature true 4 props_side 2)
         :: replicate 4 ResultObject_default
    /\ forall o, Some o ∈ features fc ->
         fo_distance o = dbl_zero \/ exists ll, fo_coordinates o = [ll.1; ll.2]
                                               /\ fo_distance o
                                                  = planar_distance (Num 0, Num 0) ll.
Proof.
  eexists. split; [vm_compute; reflexivity|].
  split; [vm_compute; reflexivity|]. split; [vm_compute; reflexivity|].
  destruct (@direct_hit_short_circuit planar plain_query _ eq_refl)
    as [(decoded & Hd & Hout) Hstore].
  split; [|split].
  - apply (Hstore "poi"%string 4096%Z 0%Z 0%Z 0%Z (0, 0)%Z
                  (point_feature true 2 props_side 0) 4);
      [by left|reflexivity|reflexivity].
  - apply (Hstore "poi"%string 4096%Z 0%Z 0%Z 0%Z (0, 0)%Z
                  (point_feature true 4 props_side 2) 4);
      [by left|reflexivity|reflexivity|reflexivity].
  - intros o Ho.
    destruct (Hout o Ho) as (tile & z & x & y & layer & f & _ & _ & _ & Hcase).
    cbv zeta in Hcase. destruct Hcase as (_ & _ & Hcase).
    match type of Hcase with (if ?b then _ else _) => destruct b end; [right|left].
    + eexists. exact Hcase.
    + by destruct Hcase.
Defined.

Lemma dedupe_distinct_results_witness :
  dedupe (query_at_origin [tile_object Byte.x03] 5 true) = true
  /\ @decode_tiles planar (query_at_origin [tile_object Byte.x03] 5 true)
     = Some [(tile_plain, 0, 0, 0)%Z]
  /\ @ids_uniform [(tile_plain, 0, 0, 0)%Z]
  /\ exists fc,
       @Worker planar (query_at_origin [tile_object Byte.x03] 5 true) = Some fc
       /\ features fc
          = (Some ∘ feature_of)
              <$> emitted (@traverse planar
                             (query_at_origin [tile_object Byte.x03] 5 true)
                             [(tile_plain, 0, 0, 0)%Z])
       /\ forall i j r1 r2,
            i <> j ->
            emitted (@traverse planar (query_at_origin [tile_object Byte.x03] 5 true)
                               [(tile_plain, 0, 0, 0)%Z]) !! i = Some r1 ->
            emitted (@traverse planar (query_at_origin [tile_object Byte.x03] 5 true)
                               [(tile_plain, 0, 0, 0)%Z]) !! j = Some r2 ->
            ¬ duplicates r1 r2.
Proof.
  split; [reflexivity|]. split; [reflexivity|].
  split; [apply tile_plain_ids_uniform|].
  apply (@dedupe_distinct_results planar
           (query_at_origin [tile_object Byte.x03] 5 true)
           [(tile_plain, 0, 0, 0)%Z]);
    [reflexivity|reflexivity|apply tile_plain_ids_uniform].
Defined.

(** The result holds the feature with id 2 twice, at distances 3 and 20:
    the feature without id replaced the feature with id 1 and was then
    replaced by the nearer feature with id 2. *)
Lemma dedupe_counterexample :
  ¬ @no_shared_identity planar (query_at_origin [tile_object Byte.x01] 5 true).
Proof.
  intros Hn. eapply (Hn _ 0 1).
  - vm_compute. reflexivity.
  - lia.
  - vm_compute. reflexivity.
  - vm_compute. reflexivity.
  - repeat split.
Qed.

(** The code keeps both features of [tile_encodings]: their encoded
    properties differ although they materialize to the same value. *)
Lemma materialized_duplicates_kept :
  ¬ @no_shared_identity planar (query_at_origin [tile_object Byte.x04] 5 true).
Proof.
  intros Hn. eapply (Hn _ 0 1).
  - vm_compute. reflexivity.
  - lia.
  - vm_compute. reflexivity.
  - vm_compute. reflexivity.
  - repeat split.
Qed.

Lemma limit_monotone_witness :
  exists fc fc',
    2 <= 3
    /\ @Worker planar (with_limit (query_at_origin [tile_object Byte.x03] 0 true) 2)
       = Some fc
    /\ @Worker planar (with_limit (query_at_origin [tile_object Byte.x03] 0 true) 3)
       = Some fc'
    /\ features fc `prefix_of` features fc'.
Proof.
  eexists. eexists. split; [lia|].
  split; [vm_compute; reflexivity|]. split; [vm_compute; reflexivity|].
  apply (@limit_monotone planar (query_at_origin [tile_object Byte.x03] 0 true) 2 3);
    [lia|vm_compute; reflexivity|vm_compute; reflexivity].
Defined.



(** * The entry point and the filters on the stand-ins *)

Lemma vtquery_options_witness :
  @vtquery planar_api sample_call = Ok sample_query
  /\ (let options := arg sample_call 2 in
      (if given sample_call "dedupe"
       then Get options "dedupe" = nv_boolean (dedupe sample_query)
       else dedupe sample_query = true)
      /\ (if given sample_call "radius"
          then Get options "radius" = nv_number (radius sample_query)
               /\ dbl_lt (radius sample_query) dbl_zero = false
          else radius sample_query = dbl_zero)
      /\ (if given sample_call "limit"
          then exists n, Get options "limit" = nv_number n
                         /\ (1 <= @Int32Value planar_api n <= 1000)%Z
                         /\ num_results sample_query
                            = Z.to_nat (@Int32Value planar_api n)
          else num_results sample_query = 5)
      /\ (if given sample_call "layers"
          then exists props,
                 Get options "layers"
                 = nv_array (nv_string <$> layers sample_query) props
                 /\ Forall (fun s => s <> ""%string) (layers sample_query)
          else layers sample_query = [])
      /\ (if given sample_call "geometry"
          then exists s, Get options "geometry" = nv_string s
                         /\ getGeomTypeString
                              (GeomType_value (geometry_filter_type sample_query))
                            = Some s
                         /\ geometry_filter_type sample_query
                            ∈ [point; linestring; polygon]
          else geometry_filter_type sample_query = all)
      /\ 1 <= num_results sample_query <= 1000).
Proof.
  split; [vm_compute; reflexivity|].
  apply (@vtquery_options planar_api sample_call sample_query).
  vm_compute. reflexivity.
Defined.

Lemma vtquery_tiles_lnglat_witness :
  @vtquery planar_api sample_call = Ok sample_query
  /\ exists props,
       arg sample_call 1
       = nv_array [nv_number (longitude sample_query);
                   nv_number (latitude sample_query)] props.
Proof.
  split; [vm_compute; reflexivity|].
  apply (@vtquery_tiles_lnglat planar_api sample_call sample_query).
  vm_compute. reflexivity.
Defined.

Lemma emitted_origin_witness :
  exists fc,
    @Worker planar (query_at_origin [tile_object Byte.x03] 5 true) = Some fc
    /\ exists decoded rs,
         @decode_tiles planar (query_at_origin [tile_object Byte.x03] 5 true)
         = Some decoded
         /\ features fc = (Some ∘ feature_of) <$> rs
         /\ length rs = 3.
Proof.
  eexists. split; [vm_compute; reflexivity|].
  destruct (@emitted_origin planar (query_at_origin [tile_object Byte.x03] 5 true) _
              eq_refl) as (decoded & rs & Hd & Hf & _).
  exists decoded, rs. split; [exact Hd|]. split; [exact Hf|].
  apply (f_equal length) in Hf. rewrite length_fmap in Hf. rewrite <- Hf.
  vm_compute. reflexivity.
Defined.

Lemma layer_filter_witness :
  layers sample_query <> []
  /\ exists fc,
       @Worker planar sample_query = Some fc
       /\ forall o, Some o ∈ features fc ->
            exists t, fo_tilequery o = Some t /\ tq_layer t ∈ layers sample_query.
Proof.
  split; [done|]. eexists. split; [vm_compute; reflexivity|].
  apply (@layer_filter planar sample_query); [done|vm_compute; reflexivity].
Defined.

Lemma geometry_option_round_trip_witness :
  @vtquery planar_api sample_call = Ok sample_query
  /\ given sample_call "geometry" = true
  /\ Get (arg sample_call 2) "geometry" = nv_string "point"
  /\ exists fc,
       @Worker planar sample_query = Some fc
       /\ forall o, Some o ∈ features fc ->
            exists t, fo_tilequery o = Some t /\ tq_geometry t = Some "point"%string.
Proof.
  split; [vm_compute; reflexivity|]. split; [reflexivity|]. split; [reflexivity|].
  eexists. split; [vm_compute; reflexivity|].
  apply (@geometry_option_round_trip planar_api planar sample_call sample_query);
    [vm_compute; reflexivity|reflexivity|reflexivity|vm_compute; reflexivity].
Defined.

Lemma decompress_failure_fails_witness :
  Forall (fun tile_obj =>
            forall b,
              (if @is_compressed broken_gzip (tile_data tile_obj)
               then @decompress broken_gzip (tile_data tile_obj)
               else Some (tile_data tile_obj)) = Some b ->
              is_Some (@read_tile broken_gzip b))
         (tiles (query_at_origin [tile_object Byte.x03; compressed_tile] 5 true))
  /\ @Worker broken_gzip (query_at_origin [tile_object Byte.x03; compressed_tile] 5 true)
     = None.
Proof.
  assert (Forall (fun tile_obj =>
                    forall b,
                      (if @is_compressed broken_gzip (tile_data tile_obj)
                       then @decompress broken_gzip (tile_data tile_obj)
                       else Some (tile_data tile_obj)) = Some b ->
                      is_Some (@read_tile broken_gzip b))
                 (tiles (query_at_origin [tile_object Byte.x03; compressed_tile] 5 true)))
    as Hread.
  { repeat constructor.
    - intros b [= <-]. by eexists.
    - intros b Hb. discriminate Hb. }
  split; [exact Hread|].
  apply (@decompress_failure_fails broken_gzip
           (query_at_origin [tile_object Byte.x03; compressed_tile] 5 true) Hread).
  exists compressed_tile. split; [|split; reflexivity].
  apply list_elem_of_further, list_elem_of_here.
Defined.

Lemma compressed_tile_transparent_witness :
  @is_compressed planar (tile_data compressed_tile) = true
  /\ @decompress planar (tile_data compressed_tile) = Some [Byte.x03]
  /\ @is_compressed planar [Byte.x03] = false
  /\ @Worker planar (with_tiles (query_at_origin [] 5 true) ([] ++ compressed_tile :: []))
     = @Worker planar
         (with_tiles (query_at_origin [] 5 true)
                     ([] ++ with_data compressed_tile [Byte.x03] :: [])).
Proof.
  split; [reflexivity|]. split; [reflexivity|]. split; [reflexivity|].
  apply (@compressed_tile_transparent planar); reflexivity.
Defined.

Lemma nearest_first_witness :
  0 < num_results (query_at_origin [tile_object Byte.x03] 5 true)
  /\ @decode_tiles planar (query_at_origin [tile_object Byte.x03] 5 true)
     = Some [(tile_plain, 0, 0, 0)%Z]
  /\ exists fc o,
       @Worker planar (query_at_origin [tile_object Byte.x03] 5 true) = Some fc
       /\ features fc !! 0 = Some (Some o)
       /\ dbl_le (fo_distance o) (Num 4) = true.
Proof.
  split; [simpl; lia|]. split; [reflexivity|].
  apply (@nearest_first planar (query_at_origin [tile_object Byte.x03] 5 true)
           [(tile_plain, 0, 0, 0)%Z]
           (entry_of "poi" (Num 4, Num 0) (Num 4) (point_feature true 1 props_main 4)));
    [simpl; lia|reflexivity| |reflexivity].
  vm_compute. apply list_elem_of_here.
Defined.

Lemma nearest_without_dedupe_witness :
  dedupe (query_at_origin [tile_object Byte.x02] 2 false) = false
  /\ exists fc,
       @Worker planar (query_at_origin [tile_object Byte.x02] 2 false) = Some fc
       /\ features fc
          = (Some ∘ feature_of)
              <$> take (num_results (query_at_origin [tile_object Byte.x02] 2 false))
                       (stable_sort CompareDistance
                          (emitted
                             (@encounter planar
                                (query_at_origin [tile_object Byte.x02] 2 false)
                                [(tile_ties, 0, 0, 0)%Z]))).
Proof.
  split; [reflexivity|].
  apply (@nearest_without_dedupe planar (query_at_origin [tile_object Byte.x02] 2 false)
           [(tile_ties, 0, 0, 0)%Z]); reflexivity.
Defined.


Lemma features_dense_witness :
  exists fc,
    @Worker planar (query_at_origin [tile_object Byte.x03] 5 true) = Some fc
    /\ exists q,
         @Execute planar (query_at_origin [tile_object Byte.x03] 5 true) = Some q
         /\ length (features fc)
            = length (filter (fun r => dbl_lt (distance r) DBL_MAX = true) q)
         /\ forall i, i < length (features fc) ->
              exists r, q !! i = Some r
                        /\ array_get (features fc) i = Some (make_feature_obj r).
Proof.
  eexists. split; [vm_compute; reflexivity|].
  apply (@features_dense planar (query_at_origin [tile_object Byte.x03] 5 true)).
  vm_compute. reflexivity.
Defined.

Lemma tile_repeats_ids_uniform : @ids_uniform [(tile_repeats, 0, 0, 0)%Z].
Proof.
  exists false. intros tile_obj layer f Ht Hl Hf.
  mem_cases Ht. subst tile_obj. simpl in Hl.
  mem_cases Hl. subst layer. simpl in Hf.
  mem_cases Hf; by subst f.
Qed.

Lemma dedupe_keeps_nearest_witness :
  dedupe (query_at_origin [] 5 true) = true
  /\ @ids_uniform [(tile_repeats, 0, 0, 0)%Z]
  /\ @unknown_rejected planar [(tile_repeats, 0, 0, 0)%Z]
  /\ dbl_lt (Num 7) (Num 3) = false
  /\ last (filter (matches (entry_of "roads" (Num 3, Num 0) (Num 3)
                                     (point_feature false 0 props_main 3)))
                  (@encounter planar (query_at_origin [] 5 true)
                              [(tile_repeats, 0, 0, 0)%Z]))
     = Some (entry_of "roads" (Num 3, Num 0) (Num 3)
                      (point_feature false 0 props_main 3)).
Proof.
  split; [reflexivity|]. split; [apply tile_repeats_ids_uniform|].
  split; [apply kernel_unknown_rejected, planar_rejects_unknown|].
  apply (@dedupe_keeps_nearest planar (query_at_origin [] 5 true)
           [(tile_repeats, 0, 0, 0)%Z]
           (entry_of "roads" (Num 3, Num 0) (Num 3) (point_feature false 0 props_main 3))
           (entry_of "roads" (Num 7, Num 0) (Num 7) (point_feature false 0 props_main 7)));
    [reflexivity|apply tile_repeats_ids_uniform
    |apply kernel_unknown_rejected, planar_rejects_unknown| | |].
  - vm_compute. apply list_elem_of_here.
  - vm_compute. apply list_elem_of_here.
  - repeat split; try done. simpl. intros (? & ? & ?). done.
Defined.

Lemma tile_order_distances_witness :
  dedupe (query_at_origin [] 5 false) = false
  /\ [tile_object Byte.x02; tile_object Byte.x03]
     ≡ₚ [tile_object Byte.x03; tile_object Byte.x02]
  /\ exists fc fc',
       @Worker planar
         (with_tiles (query_at_origin [] 5 false)
                     [tile_object Byte.x02; tile_object Byte.x03]) = Some fc
       /\ @Worker planar
            (with_tiles (query_at_origin [] 5 false)
                        [tile_object Byte.x03; tile_object Byte.x02]) = Some fc'
       /\ distances fc = distances fc'.
Proof.
  split; [reflexivity|]. split; [apply perm_swap|].
  eexists _, _. split; [vm_compute; reflexivity|]. split; [vm_compute; reflexivity|].
  apply (@tile_order_distances planar (query_at_origin [] 5 false)
           [tile_object Byte.x02; tile_object Byte.x03]
           [tile_object Byte.x03; tile_object Byte.x02]);
    [reflexivity|apply perm_swap|vm_compute; reflexivity|vm_compute; reflexivity].
Defined.

Lemma radius_monotone_witness :
  dedupe (query_at_origin [tile_object Byte.x03] 5 false) = false
  /\ dbl_le (Num 2) (Num 100) = true
  /\ exists fc1 fc2,
       @Worker planar
         (with_radius (query_at_origin [tile_object Byte.x03] 5 false) (Num 2))
       = Some fc1
       /\ @Worker planar
            (with_radius (query_at_origin [tile_object Byte.x03] 5 false) (Num 100))
          = Some fc2
       /\ features fc1
          = filter (fun o : option feature_obj =>
                      dbl_gt (from_option fo_distance NaN o) (Num 2) = false)
                   (features fc2).
Proof.
  split; [reflexivity|]. split; [reflexivity|].
  eexists _, _. split; [vm_compute; reflexivity|]. split; [vm_compute; reflexivity|].
  apply (@radius_monotone planar (query_at_origin [tile_object Byte.x03] 5 false)
           (Num 2) (Num 100));
    [reflexivity|reflexivity|vm_compute; reflexivity|vm_compute; reflexivity].
Defined.

Lemma layer_names_as_set_witness :
  @decode_tiles planar (query_at_origin [tile_object Byte.x03] 5 true)
  = Some [(tile_plain, 0, 0, 0)%Z]
  /\ @Worker planar
       (with_layers (query_at_origin [tile_object Byte.x03] 5 true)
                    ["water"; "poi"; "poi"]%string)
     = @Worker planar (with_layers (query_at_origin [tile_object Byte.x03] 5 true) []).
Proof.
  split; [reflexivity|].
  apply (@layer_names_as_set planar (query_at_origin [tile_object Byte.x03] 5 true)
           ["water"; "poi"; "poi"]%string [] [(tile_plain, 0, 0, 0)%Z]); [reflexivity|].
  intros tile z x y layer Ht Hl.
  mem_cases Ht. injection Ht as -> _ _ _. mem_cases Hl. subst layer. simpl.
  split; [intros _; by left|intros _; right].
  apply list_elem_of_further, list_elem_of_here.
Defined.

Lemma dedupe_complete_witness :
  dedupe (query_at_origin [] 5 true) = true
  /\ 0 < num_results (query_at_origin [] 5 true)
  /\ @ids_uniform [(tile_repeats, 0, 0, 0)%Z]
  /\ @unknown_rejected planar [(tile_repeats, 0, 0, 0)%Z]
  /\ ((exists r,
          r ∈ emitted (@traverse planar (query_at_origin [] 5 true)
                                 [(tile_repeats, 0, 0, 0)%Z])
          /\ duplicates r (entry_of "roads" (Num 7, Num 0) (Num 7)
                                    (point_feature false 0 props_main 7))
          /\ dbl_le (distance r) (Num 7) = true)
      \/ (length (emitted (@traverse planar (query_at_origin [] 5 true)
                                     [(tile_repeats, 0, 0, 0)%Z]))
          = num_results (query_at_origin [] 5 true)
          /\ forall r,
               r ∈ emitted (@traverse planar (query_at_origin [] 5 true)
                                      [(tile_repeats, 0, 0, 0)%Z]) ->
               dbl_le (distance r) (Num 7) = true)).
Proof.
  split; [reflexivity|]. split; [simpl; lia|].
  split; [apply tile_repeats_ids_uniform|].
  split; [apply kernel_unknown_rejected, planar_rejects_unknown|].
  apply (@dedupe_complete planar (query_at_origin [] 5 true)
           [(tile_repeats, 0, 0, 0)%Z]
           (entry_of "roads" (Num 7, Num 0) (Num 7) (point_feature false 0 props_main 7)));
    [reflexivity|simpl; lia|apply tile_repeats_ids_uniform
    |apply kernel_unknown_rejected, planar_rejects_unknown| |reflexivity].
  vm_compute. apply list_elem_of_here.
Defined.

Lemma more_tiles_never_farther_witness :
  exists fc fc' o,
    @Worker planar (with_tiles (query_at_origin [] 2 true) [tile_object Byte.x01])
    = Some fc
    /\ @Worker planar
         (with_tiles (query_at_origin [] 2 true)
                     ([tile_object Byte.x01] ++ [tile_object Byte.x03]))
       = Some fc'
    /\ features fc !! 0 = Some (Some o)
    /\ exists o', features fc' !! 0 = Some (Some o')
                  /\ dbl_le (fo_distance o') (fo_distance o) = true.
Proof.
  eexists _, _, _. split; [vm_compute; reflexivity|].
  split; [vm_compute; reflexivity|]. split; [vm_compute; reflexivity|].
  eapply (@more_tiles_never_farther planar (query_at_origin [] 2 true)
            [tile_object Byte.x01] [tile_object Byte.x03]);
    vm_compute; reflexivity.
Defined.

Lemma tile_plain_no_duplicates :
  no_duplicates (@encounter planar (query_at_origin [tile_object Byte.x03] 5 true)
                            [(tile_plain, 0, 0, 0)%Z]).
Proof.
  intros i j a b Hij Hi Hj (_ & _ & Hid & Hprops).
  vm_compute in Hi, Hj.
  destruct i as [|[|[|i]]], j as [|[|[|j]]]; try lia; simplify_eq/=.
  all: apply Hid; repeat split; done.
Qed.

Lemma dedupe_without_duplicates_witness :
  @decode_tiles planar (query_at_origin [tile_object Byte.x03] 5 true)
  = Some [(tile_plain, 0, 0, 0)%Z]
  /\ @unknown_rejected planar [(tile_plain, 0, 0, 0)%Z]
  /\ @Worker planar (with_dedupe (query_at_origin [tile_object Byte.x03] 5 true) true)
     = @Worker planar (with_dedupe (query_at_origin [tile_object Byte.x03] 5 true) false).
Proof.
  split; [reflexivity|].
  split; [apply kernel_unknown_rejected, planar_rejects_unknown|].
  apply (@dedupe_without_duplicates planar
           (query_at_origin [tile_object Byte.x03] 5 true) [(tile_plain, 0, 0, 0)%Z]);
    [reflexivity|apply kernel_unknown_rejected, planar_rejects_unknown
    |apply tile_plain_no_duplicates].
Defined.

Lemma tile_without_candidates_witness :
  @decode_tile planar (tile_object Byte.x03) = Some (tile_plain, 0, 0, 0)%Z
  /\ @tile_candidates planar
       (with_layers (query_at_origin [] 5 true) ["roads"%string])
       (tile_plain, 0, 0, 0)%Z = []
  /\ @Worker planar
       (with_tiles (with_layers (query_at_origin [] 5 true) ["roads"%string])
                   ([tile_object Byte.x01] ++ tile_object Byte.x03 :: []))
     = @Worker planar
         (with_tiles (with_layers (query_at_origin [] 5 true) ["roads"%string])
                     ([tile_object Byte.x01] ++ [])).
Proof.
  split; [reflexivity|]. split; [reflexivity|].
  apply (@tile_without_candidates planar
           (with_layers (query_at_origin [] 5 true) ["roads"%string])
           [tile_object Byte.x01] [] (tile_object Byte.x03) (tile_plain, 0, 0, 0)%Z);
    reflexivity.
Defined.
